(** * HTML to EPUB node: a shallow embedding of [HtmlToEpubNode.node.ts]

    The development follows the source file top to bottom: the small string
    helpers ([slugify], [escapeXml]), the CRC-32 engine, DOS time packing, the
    [ZipBuilder] class, the XML document templates, the chapter splitter and
    [writeEpubBufferFromParts].

    Conventions.
    - A JavaScript string is a [string] holding its UTF-8 encoding, so that
      [Buffer.from(s, 'utf8')] is the list of its characters.  Every
      character the source tests for is ASCII, and ASCII bytes never occur
      inside a multi-byte UTF-8 sequence.
    - A [Buffer] is a list of bytes ([ascii]).
    - A JavaScript number that holds an integer is a [Z]; the 32-bit
      behaviour of the bitwise operators is written out in module [JS].
    - Calls into the platform or into libraries that are not part of the
      repository ([String.prototype.toLowerCase], zlib's [deflateRawSync],
      cheerio's parser and serializer, the clock, [Math.random]) are
      parameters of the functions that use them. *)

From Stdlib Require Import ZArith NArith List Lia Bool Ascii String DecimalString DecimalNat.
Import ListNotations.
Local Open Scope Z_scope.

(* ================================================================== *)
(** * Part I: the program *)
(* ================================================================== *)

(** ** JavaScript integers *)

Module JS.

(** [ToUint32] and [ToInt32] of ECMA-262, on integers. *)
Definition ToUint32 (x : Z) : Z := x mod 2 ^ 32.
Definition ToInt32 (x : Z) : Z := (x + 2 ^ 31) mod 2 ^ 32 - 2 ^ 31.

(** [a ^ b], [a & b], [a | b]: both operands through [ToInt32], the result
    is an int32. *)
Definition xor (a b : Z) : Z := ToInt32 (Z.lxor (ToInt32 a) (ToInt32 b)).
Definition and (a b : Z) : Z := ToInt32 (Z.land (ToInt32 a) (ToInt32 b)).
Definition or (a b : Z) : Z := ToInt32 (Z.lor (ToInt32 a) (ToInt32 b)).

(** [a << n]: the shift count is taken modulo 32, the result wraps. *)
Definition shl (a n : Z) : Z := ToInt32 (Z.shiftl (ToInt32 a) (ToUint32 n mod 32)).

(** [a >>> n]: the left operand through [ToUint32], the result is a uint32. *)
Definition ushr (a n : Z) : Z := Z.shiftr (ToUint32 a) (ToUint32 n mod 32).

(** Truthiness of a number. *)
Definition truthy (x : Z) : bool := negb (x =? 0).

End JS.

(** ** Bytes and buffers *)

Definition Buffer : Type := list ascii.

(** [buf[i]] read as a number. *)
Definition byteVal (b : ascii) : Z := Z.of_N (N_of_ascii b).

(** The byte stored for an integer (its low eight bits). *)
Definition byteOf (z : Z) : ascii := ascii_of_N (Z.to_N (z mod 256)).

(** [Buffer.from(s, 'utf8')]. *)
Definition utf8 (s : string) : Buffer := list_ascii_of_string s.

(** The double quote, which a string literal of this file cannot hold. *)
Definition dq : string := String (ascii_of_nat 34) EmptyString.

(** [`${n}`] for a non-negative integer. *)
Definition showNat (n : nat) : string := NilEmpty.string_of_uint (Nat.to_uint n).

(** ** String helpers of the standard library of JavaScript *)

Definition isLowerAlnum (c : ascii) : bool :=
  let n := nat_of_ascii c in
  ((97 <=? n)%nat && (n <=? 122)%nat) || ((48 <=? n)%nat && (n <=? 57)%nat).

Definition hyphen : ascii := "-"%char.

(** [s.replace(/[^a-z0-9]+/g, '-')]: scanning left to right, each maximal
    run of characters outside [a-z0-9] is replaced by one hyphen.  [inRun]
    tells that the previous character already belonged to the current run. *)
Fixpoint replaceNonAlnumRuns (inRun : bool) (s : string) : string :=
  match s with
  | EmptyString => EmptyString
  | String c t =>
      if isLowerAlnum c then String c (replaceNonAlnumRuns false t)
      else if inRun then replaceNonAlnumRuns true t
      else String hyphen (replaceNonAlnumRuns true t)
  end.

(** The match of [^-+]: leading hyphens are dropped. *)
Fixpoint dropLeadingHyphens (s : string) : string :=
  match s with
  | String c t => if Ascii.eqb c hyphen then dropLeadingHyphens t else s
  | EmptyString => EmptyString
  end.

Fixpoint allHyphens (s : string) : bool :=
  match s with
  | EmptyString => true
  | String c t => Ascii.eqb c hyphen && allHyphens t
  end.

(** The match of [-+$]: a run of hyphens that reaches the end is dropped. *)
Fixpoint dropTrailingHyphens (s : string) : string :=
  match s with
  | EmptyString => EmptyString
  | String c t => if allHyphens s then EmptyString else String c (dropTrailingHyphens t)
  end.

(** [s.replace(/^-+|-+$/g, '')]. *)
Definition stripHyphens (s : string) : string :=
  dropTrailingHyphens (dropLeadingHyphens s).

(** [s.substring(0, n)]. *)
Fixpoint substring0 (n : nat) (s : string) : string :=
  match n, s with
  | S k, String c t => String c (substring0 k t)
  | _, _ => EmptyString
  end.

(** [a || b] on strings: the empty string is falsy. *)
Definition orElse (a b : string) : string :=
  match a with EmptyString => b | _ => a end.

(** [slugify], lines 36-42.  [toLowerCase] is the platform's
    [String.prototype.toLowerCase]. *)
Definition slugify (toLowerCase : string -> string) (str : string) : string :=
  orElse (substring0 60 (stripHyphens (replaceNonAlnumRuns false (toLowerCase str))))
         "chapter".

(** [s.replace(/c/g, rep)] for a single character [c] and a replacement
    without [$]. *)
Fixpoint replaceChar (c : ascii) (rep : string) (s : string) : string :=
  match s with
  | EmptyString => EmptyString
  | String x t =>
      if Ascii.eqb x c then (rep ++ replaceChar c rep t)%string
      else String x (replaceChar c rep t)
  end.

(** [escapeXml], lines 44-51: five global replacements, [&] first. *)
Definition escapeXml (unsafe : string) : string :=
  replaceChar "'" "&apos;"
    (replaceChar (ascii_of_nat 34) "&quot;"
      (replaceChar ">" "&gt;"
        (replaceChar "<" "&lt;"
          (replaceChar "&" "&amp;" unsafe)))).

(** ** CRC-32, lines 53-67 *)

(** One round of the table initialisation:
    [c = (c & 1) ? (0xedb88320 ^ (c >>> 1)) : (c >>> 1)]. *)
Definition crcRound (c : Z) : Z :=
  if JS.truthy (JS.and c 1) then JS.xor 0xedb88320 (JS.ushr c 1) else JS.ushr c 1.

(** [table[n] = c >>> 0] after eight rounds from [c = n]. *)
Definition crcTableEntry (n : Z) : Z := JS.ushr (Nat.iter 8 crcRound n) 0.

(** The table is computed once, when the module is loaded. *)
Definition CRC_TABLE : list Z :=
  Eval vm_compute in map (fun n => crcTableEntry (Z.of_nat n)) (seq 0 256).

(** [CRC_TABLE[i]] for an index in range. *)
Definition tableAt (i : Z) : Z := nth (Z.to_nat i) CRC_TABLE 0.

(** The body of the loop of [crc32]:
    [c = (c >>> 8) ^ CRC_TABLE[(c ^ buf[i]) & 0xff]]. *)
Definition crcFold (c : Z) (b : ascii) : Z :=
  JS.xor (JS.ushr c 8) (tableAt (JS.and (JS.xor c (byteVal b)) 0xff)).

Definition crc32 (buf : Buffer) : Z :=
  let c := fold_left crcFold buf (JS.xor 0 (-1)) in
  JS.ushr (JS.xor c (-1)) 0.

(** The reference algorithm: reflected CRC-32 with polynomial 0xEDB88320,
    bit by bit, on unsigned values; accumulator all ones at the start and
    complemented at the end. *)
Definition crcBit (c : Z) : Z :=
  if Z.testbit c 0 then Z.lxor (Z.shiftr c 1) 0xEDB88320 else Z.shiftr c 1.

Definition crcByte (acc : Z) (b : ascii) : Z :=
  Nat.iter 8 crcBit (Z.lxor acc (byteVal b)).

Definition crc32_reference (bytes : Buffer) : Z :=
  Z.lxor (fold_left crcByte bytes 0xFFFFFFFF) 0xFFFFFFFF.

(** ** Reference notions for the string helpers

    These definitions are not part of the program: they state, in the
    words of the specification, what [escapeXml] and [slugify] are compared
    with. *)

(** The escape of one character. *)
Definition escChar (c : ascii) : string :=
  if Ascii.eqb c "&" then "&amp;"
  else if Ascii.eqb c "<" then "&lt;"
  else if Ascii.eqb c ">" then "&gt;"
  else if Ascii.eqb c (ascii_of_nat 34) then "&quot;"
  else if Ascii.eqb c "'" then "&apos;"
  else String c EmptyString.

(** The five entities. *)
Definition xmlEntities : list string :=
  ["&amp;"; "&lt;"; "&gt;"; "&quot;"; "&apos;"]%string.

(** [s.startsWith(p)]. *)
Fixpoint startsWith (p s : string) : bool :=
  match p with
  | EmptyString => true
  | String a p' =>
      match s with
      | String b s' => Ascii.eqb a b && startsWith p' s'
      | EmptyString => false
      end
  end.

(** [s.replaceAll(pat, rep)] for a non-empty [pat]: matches are found left
    to right and do not overlap.  [skip] counts the characters of the
    current match that are still to be passed over. *)
Fixpoint replaceAllFrom (skip : nat) (pat rep s : string) : string :=
  match s with
  | EmptyString => EmptyString
  | String c t =>
      match skip with
      | S k => replaceAllFrom k pat rep t
      | O =>
          if startsWith pat s
          then (rep ++ replaceAllFrom (String.length pat - 1) pat rep t)%string
          else String c (replaceAllFrom 0 pat rep t)
      end
  end.

Definition replaceAll (pat rep s : string) : string := replaceAllFrom 0 pat rep s.

(** The inverse entity substitutions, applied in the reverse order of
    [escapeXml]: [&amp;] is decoded last. *)
Definition unescapeXml (s : string) : string :=
  replaceAll "&amp;" "&"
    (replaceAll "&lt;" "<"
      (replaceAll "&gt;" ">"
        (replaceAll "&quot;" dq
          (replaceAll "&apos;" "'" s)))).

(** A raw markup character: one of [<], [>], the double quote, ['']. *)
Definition isRawMarkup (c : ascii) : bool :=
  Ascii.eqb c "<" || Ascii.eqb c ">" || Ascii.eqb c (ascii_of_nat 34) || Ascii.eqb c "'".

Fixpoint noRawMarkup (s : string) : bool :=
  match s with
  | EmptyString => true
  | String c t => negb (isRawMarkup c) && noRawMarkup t
  end.

(** Every [&] of [s] is the first character of an entity. *)
Fixpoint ampersandsStartEntities (s : string) : bool :=
  match s with
  | EmptyString => true
  | String c t =>
      (if Ascii.eqb c "&" then existsb (fun e => startsWith e s) xmlEntities else true)
      && ampersandsStartEntities t
  end.

(** The maximal runs of characters of [a-z0-9] of a string, in order. *)
Definition startsAlnum (s : string) : bool :=
  match s with
  | String d _ => isLowerAlnum d
  | EmptyString => false
  end.

Definition consToFirst (c : ascii) (ws : list string) : list string :=
  match ws with
  | w :: r => String c w :: r
  | [] => [String c EmptyString]
  end.

Fixpoint alnumWords (s : string) : list string :=
  match s with
  | EmptyString => []
  | String c t =>
      if isLowerAlnum c then
        if startsAlnum t then consToFirst c (alnumWords t)
        else String c EmptyString :: alnumWords t
      else alnumWords t
  end.

Fixpoint allChars (p : ascii -> bool) (s : string) : bool :=
  match s with
  | EmptyString => true
  | String c t => p c && allChars p t
  end.

(** A character a slug may hold. *)
Definition isSlugChar (c : ascii) : bool := isLowerAlnum c || Ascii.eqb c hyphen.

(** A word: not empty, all of [a-z0-9]. *)
Definition isAlnumWord (w : string) : bool :=
  negb (String.eqb w EmptyString) && allChars isLowerAlnum w.

(** [toLowerCase] restricted to ASCII, where it maps [A-Z] to [a-z] and
    leaves every other character alone.  It stands for the platform's
    function in the examples, whose strings are ASCII. *)
Definition asciiLowerChar (c : ascii) : ascii :=
  let n := nat_of_ascii c in
  if ((65 <=? n)%nat && (n <=? 90)%nat)%bool then ascii_of_nat (n + 32) else c.

Fixpoint asciiLower (s : string) : string :=
  match s with
  | EmptyString => EmptyString
  | String c t => String (asciiLowerChar c) (asciiLower t)
  end.

(** ** Exceptions

    A function that can throw returns an [option]: [None] stands for the
    exception (always a [RangeError] of a [Buffer] write in this file). *)

Definition bind {A B : Type} (m : option A) (f : A -> option B) : option B :=
  match m with
  | Some a => f a
  | None => None
  end.

Notation "x <- m ;; k" := (bind m (fun x => k))
  (at level 61, m at next level, right associativity).

Definition isSome {A : Type} (m : option A) : bool :=
  match m with Some _ => true | None => false end.

(** ** Writing integers into a [Buffer] *)

Definition u16le (v : Z) : Buffer := [byteOf v; byteOf (v / 256)].

Definition u32le (v : Z) : Buffer :=
  [byteOf v; byteOf (v / 256); byteOf (v / 65536); byteOf (v / 16777216)].

(** [buf.writeUInt16LE(v, p)] and [buf.writeUInt32LE(v, p)] throw a
    [RangeError] when [v] is outside the range of the field. *)
Definition writeUInt16LE (v : Z) : option Buffer :=
  if (0 <=? v) && (v <=? 65535) then Some (u16le v) else None.

Definition writeUInt32LE (v : Z) : option Buffer :=
  if (0 <=? v) && (v <=? 4294967295) then Some (u32le v) else None.

(** A header is allocated at its exact size and filled by consecutive
    writes, [p] advancing by the width of each field: the header is the
    concatenation of the fields, unless one of the writes throws. *)
Inductive Field : Type :=
  | U16 (v : Z)
  | U32 (v : Z).

Definition writeField (f : Field) : option Buffer :=
  match f with
  | U16 v => writeUInt16LE v
  | U32 v => writeUInt32LE v
  end.

Fixpoint writeFields (fs : list Field) : option Buffer :=
  match fs with
  | [] => Some []
  | f :: r =>
      b <- writeField f ;;
      bs <- writeFields r ;;
      Some (b ++ bs)
  end.

(** [buf.length] as a number. *)
Definition len (b : Buffer) : Z := Z.of_nat (List.length b).

(** ** DOS time, lines 69-79 *)

(** The UTC fields of a [Date]. *)
Record Date : Type := mkDate {
  getUTCFullYear : Z;
  getUTCMonth : Z;
  getUTCDate : Z;
  getUTCHours : Z;
  getUTCMinutes : Z;
  getUTCSeconds : Z
}.

Definition msDosDateTime (d : Date) : Z * Z :=
  let year := getUTCFullYear d in
  let month := getUTCMonth d + 1 in
  let day := getUTCDate d in
  let hours := getUTCHours d in
  let minutes := getUTCMinutes d in
  let seconds := getUTCSeconds d / 2 in
  let time := JS.or (JS.or (JS.shl hours 11) (JS.shl minutes 5)) seconds in
  let date := JS.or (JS.or (JS.shl (year - 1980) 9) (JS.shl month 5)) day in
  (time, date).

(** ** [ZipBuilder], lines 81-171 *)

(** An element of [files]. *)
Module Entry.

Record t : Type := mk {
  name : string;
  crc : Z;
  comp : Buffer;
  uncomp : Z;
  method : Z;
  time : Z;
  date : Z;
  offset : Z
}.

End Entry.

(** The argument [data: string | Buffer] of [addFile]. *)
Inductive Data : Type :=
  | DataString (s : string)
  | DataBuffer (b : Buffer).

(** The argument [opts?: { compress?: boolean; date?: Date }]. *)
Record AddOpts : Type := mkOpts {
  compress : option bool;
  date : option Date
}.

Module ZipBuilder.

Record t : Type := mk {
  files : list Entry.t;
  chunks : list Buffer;
  offset : Z
}.

(** [new ZipBuilder()]. *)
Definition new : t := {| files := []; chunks := []; offset := 0 |}.

Definition UTF8_FLAG : Z := 0x0800.

(** The local file header of lines 103-116. *)
Definition localHeader (method time date crc : Z) (comp buf nameBuf : Buffer)
  : option Buffer :=
  fields <- writeFields
    [ U32 0x04034b50;
      U16 20;
      U16 UTF8_FLAG;
      U16 method;
      U16 time;
      U16 date;
      U32 (JS.ushr crc 0);
      U32 (JS.ushr (len comp) 0);
      U32 (JS.ushr (len buf) 0);
      U16 (len nameBuf);
      U16 0 ] ;;
  Some (fields ++ nameBuf).

(** [addFile(name, data, opts)].  [deflateRawSync] is zlib's; [now] is the
    value of [new Date()] at the call, used when [opts] gives no date.
    [None]: a write threw, and [this] is as it was. *)
Definition addFile (deflateRawSync : Buffer -> Buffer) (now : Date)
    (this : t) (name : string) (data : Data) (opts : option AddOpts) : option t :=
  let buf := match data with DataBuffer b => b | DataString s => utf8 s end in
  let d := match bind opts date with Some d => d | None => now end in
  let '(time, date) := msDosDateTime d in
  let crc := crc32 buf in
  let compress :=
    match bind opts compress with Some false => false | _ => true end in
  let method := if compress then 8 else 0 in
  let comp := if compress then deflateRawSync buf else buf in
  let nameBuf := utf8 name in
  localHeader <- localHeader method time date crc comp buf nameBuf ;;
  let offset := offset this in
  Some {| files := files this ++
                   [Entry.mk name crc comp (len buf) method time date offset];
          chunks := chunks this ++ [localHeader; comp];
          offset := offset + len localHeader + len comp |}.

(** The central directory header of one entry, lines 128-148. *)
Definition centralHeader (f : Entry.t) : option Buffer :=
  let nameBuf := utf8 (Entry.name f) in
  fields <- writeFields
    [ U32 0x02014b50;
      U16 0x031E;
      U16 20;
      U16 0x0800;
      U16 (Entry.method f);
      U16 (Entry.time f);
      U16 (Entry.date f);
      U32 (JS.ushr (Entry.crc f) 0);
      U32 (JS.ushr (len (Entry.comp f)) 0);
      U32 (JS.ushr (Entry.uncomp f) 0);
      U16 (len nameBuf);
      U16 0;
      U16 0;
      U16 0;
      U16 0;
      U32 0;
      U32 (JS.ushr (Entry.offset f) 0) ] ;;
  Some (fields ++ nameBuf).

(** The loop of lines 127-151: the headers in the order of [files]; the
    first write that throws ends it. *)
Fixpoint centralHeaders (fs : list Entry.t) : option (list Buffer) :=
  match fs with
  | [] => Some []
  | f :: r =>
      hdr <- centralHeader f ;;
      hdrs <- centralHeaders r ;;
      Some (hdr :: hdrs)
  end.

(** The end of central directory record of lines 156-165. *)
Definition endRecord (count centralSize centralStart : Z) : option Buffer :=
  writeFields
    [ U32 0x06054b50;
      U16 0;
      U16 0;
      U16 count;
      U16 count;
      U32 (JS.ushr centralSize 0);
      U32 (JS.ushr centralStart 0);
      U16 0 ].

(** [build()] returns the builder as the call leaves it, and the buffer or
    [None] when a write threw.  The central headers are pushed onto [chunks]
    and [offset] is advanced before the end record is written. *)
Definition build (this : t) : t * option Buffer :=
  match centralHeaders (files this) with
  | None => (this, None)
  | Some central =>
      let centralSize := len (List.concat central) in
      let centralStart := offset this in
      let this1 := {| files := files this;
                      chunks := chunks this ++ central;
                      offset := offset this + centralSize |} in
      match endRecord (Z.of_nat (List.length (files this))) centralSize centralStart with
      | None => (this1, None)
      | Some eocd =>
          let this2 := {| files := files this1;
                          chunks := chunks this1 ++ [eocd];
                          offset := offset this1 + len eocd |} in
          (this2, Some (List.concat (chunks this2)))
      end
  end.

End ZipBuilder.

(** One call of [addFile] with the clock reading it sees. *)
Record Call : Type := mkCall {
  callName : string;
  callData : Data;
  callOpts : option AddOpts;
  callNow : Date
}.

(** A sequence of [addFile] calls on one builder; the first exception ends
    it. *)
Fixpoint addFiles (deflateRawSync : Buffer -> Buffer) (calls : list Call)
    (zb : ZipBuilder.t) : option ZipBuilder.t :=
  match calls with
  | [] => Some zb
  | c :: r =>
      zb1 <- ZipBuilder.addFile deflateRawSync (callNow c) zb
               (callName c) (callData c) (callOpts c) ;;
      addFiles deflateRawSync r zb1
  end.

(** ** A reader of the archive

    Not part of the program: the view of a ZIP reader, against which the
    headers are checked. *)

Definition le16 (b : Buffer) : option Z :=
  match b with
  | b0 :: b1 :: _ => Some (byteVal b0 + 256 * byteVal b1)
  | _ => None
  end.

Definition le32 (b : Buffer) : option Z :=
  match b with
  | b0 :: b1 :: b2 :: b3 :: _ =>
      Some (byteVal b0 + 256 * byteVal b1 + 65536 * byteVal b2 + 16777216 * byteVal b3)
  | _ => None
  end.

Definition readUInt16LE (buf : Buffer) (p : nat) : option Z := le16 (skipn p buf).
Definition readUInt32LE (buf : Buffer) (p : nat) : option Z := le32 (skipn p buf).

(** [buf.slice(p, p + n)] when those bytes exist. *)
Definition slice (buf : Buffer) (p n : nat) : option Buffer :=
  let s := firstn n (skipn p buf) in
  if (List.length s =? n)%nat then Some s else None.

Record LocalHeader : Type := mkLocal {
  lh_name : Buffer;
  lh_crc : Z;
  lh_compSize : Z;
  lh_uncompSize : Z
}.

Record CentralHeader : Type := mkCentral {
  ch_name : Buffer;
  ch_crc : Z;
  ch_compSize : Z;
  ch_uncompSize : Z;
  ch_offset : Z;
  ch_length : nat
}.

(** The local file header found at position [p]. *)
Definition parseLocalHeader (buf : Buffer) (p : nat) : option LocalHeader :=
  sig <- readUInt32LE buf p ;;
  if sig =? 0x04034b50 then
    crc <- readUInt32LE buf (p + 14) ;;
    csize <- readUInt32LE buf (p + 18) ;;
    usize <- readUInt32LE buf (p + 22) ;;
    nlen <- readUInt16LE buf (p + 26) ;;
    nm <- slice buf (p + 30) (Z.to_nat nlen) ;;
    Some (mkLocal nm crc csize usize)
  else None.

(** The central directory header found at position [p]. *)
Definition parseCentralHeader (buf : Buffer) (p : nat) : option CentralHeader :=
  sig <- readUInt32LE buf p ;;
  if sig =? 0x02014b50 then
    crc <- readUInt32LE buf (p + 16) ;;
    csize <- readUInt32LE buf (p + 20) ;;
    usize <- readUInt32LE buf (p + 24) ;;
    nlen <- readUInt16LE buf (p + 28) ;;
    xlen <- readUInt16LE buf (p + 30) ;;
    clen <- readUInt16LE buf (p + 32) ;;
    off <- readUInt32LE buf (p + 42) ;;
    nm <- slice buf (p + 46) (Z.to_nat nlen) ;;
    Some (mkCentral nm crc csize usize off (46 + Z.to_nat nlen + Z.to_nat xlen + Z.to_nat clen))
  else None.

(** [count] consecutive central directory headers from position [p]. *)
Fixpoint readCentralDirectory (buf : Buffer) (p count : nat)
  : option (list CentralHeader) :=
  match count with
  | O => Some []
  | S k =>
      ch <- parseCentralHeader buf p ;;
      rest <- readCentralDirectory buf (p + ch_length ch) k ;;
      Some (ch :: rest)
  end.

Definition bufferEqb (a b : Buffer) : bool :=
  String.eqb (string_of_list_ascii a) (string_of_list_ascii b).

(** The local header at the offset a central header records carries the
    same name, crc and sizes. *)
Definition headersAgree (buf : Buffer) (ch : CentralHeader) : bool :=
  match parseLocalHeader buf (Z.to_nat (ch_offset ch)) with
  | Some lh =>
      bufferEqb (lh_name lh) (ch_name ch)
      && (lh_crc lh =? ch_crc ch)
      && (lh_compSize lh =? ch_compSize ch)
      && (lh_uncompSize lh =? ch_uncompSize ch)
  | None => false
  end.

(** The recorded offsets grow along the list. *)
Fixpoint increasing (l : list Z) : bool :=
  match l with
  | a :: (b :: _) as r => (a <? b) && increasing r
  | _ => true
  end.

(** A stand-in for [deflateRawSync] in the examples: every input of fewer
    than 65536 bytes as one stored block of raw DEFLATE. *)
Definition deflateStored (b : Buffer) : Buffer :=
  byteOf 1 :: u16le (len b) ++ u16le (65535 - len b) ++ b.

(** ** The layout the builder maintains

    Not part of the program: the bytes each entry contributes, and the
    invariant of a builder that was only ever changed by [addFile]. *)

Definition u16 (v : Z) : bool := (0 <=? v) && (v <=? 65535).

Definition fieldOk (f : Field) : bool :=
  match f with
  | U16 v => u16 v
  | U32 v => (0 <=? v) && (v <=? 4294967295)
  end.

Definition fieldBytes (f : Field) : Buffer :=
  match f with
  | U16 v => u16le v
  | U32 v => u32le v
  end.

Definition localHeaderOf (f : Entry.t) : Buffer :=
  flat_map fieldBytes
    [ U32 0x04034b50; U16 20; U16 0x0800;
      U16 (Entry.method f); U16 (Entry.time f); U16 (Entry.date f);
      U32 (JS.ushr (Entry.crc f) 0);
      U32 (JS.ushr (len (Entry.comp f)) 0);
      U32 (JS.ushr (Entry.uncomp f) 0);
      U16 (len (utf8 (Entry.name f))); U16 0 ]
  ++ utf8 (Entry.name f).

Definition localRecordOf (f : Entry.t) : Buffer := localHeaderOf f ++ Entry.comp f.

Definition centralHeaderOf (f : Entry.t) : Buffer :=
  flat_map fieldBytes
    [ U32 0x02014b50; U16 0x031E; U16 20; U16 0x0800;
      U16 (Entry.method f); U16 (Entry.time f); U16 (Entry.date f);
      U32 (JS.ushr (Entry.crc f) 0);
      U32 (JS.ushr (len (Entry.comp f)) 0);
      U32 (JS.ushr (Entry.uncomp f) 0);
      U16 (len (utf8 (Entry.name f)));
      U16 0; U16 0; U16 0; U16 0; U32 0;
      U32 (JS.ushr (Entry.offset f) 0) ]
  ++ utf8 (Entry.name f).

(** What a reader finds in the two headers of an entry. *)
Definition localOf (f : Entry.t) : LocalHeader :=
  mkLocal (utf8 (Entry.name f))
          (Entry.crc f mod 2 ^ 32)
          (len (Entry.comp f) mod 2 ^ 32)
          (Entry.uncomp f mod 2 ^ 32).

Definition centralOf (f : Entry.t) : CentralHeader :=
  mkCentral (utf8 (Entry.name f))
            (Entry.crc f mod 2 ^ 32)
            (len (Entry.comp f) mod 2 ^ 32)
            (Entry.uncomp f mod 2 ^ 32)
            (Entry.offset f mod 2 ^ 32)
            (46 + List.length (utf8 (Entry.name f))).

(** The 16-bit fields of an entry are in range. *)
Definition validEntry (f : Entry.t) : bool :=
  u16 (Entry.method f) && u16 (Entry.time f) && u16 (Entry.date f)
  && u16 (len (utf8 (Entry.name f))).

(** The entries of [fs] lie one after the other from offset [o] to [o']. *)
Fixpoint offsetsFrom (o : Z) (fs : list Entry.t) (o' : Z) : Prop :=
  match fs with
  | [] => o' = o
  | f :: r => Entry.offset f = o /\ offsetsFrom (o + len (localRecordOf f)) r o'
  end.

Record BuilderInv (zb : ZipBuilder.t) : Prop := mkInv {
  inv_chunks :
    ZipBuilder.chunks zb
    = flat_map (fun f => [localHeaderOf f; Entry.comp f]) (ZipBuilder.files zb);
  inv_offsets : offsetsFrom 0 (ZipBuilder.files zb) (ZipBuilder.offset zb);
  inv_valid : forallb validEntry (ZipBuilder.files zb) = true
}.

(** [addFile] succeeds exactly when this holds: the DOS time and date fit
    16 bits and the UTF-8 name is at most 65535 bytes long. *)
Definition addFileOk (now : Date) (name : string) (opts : option AddOpts) : bool :=
  let d := match bind opts date with Some d => d | None => now end in
  u16 (fst (msDosDateTime d)) && u16 (snd (msDosDateTime d)) && u16 (len (utf8 name)).

(** The entry [addFile] records. *)
Definition entryOf (deflateRawSync : Buffer -> Buffer) (now : Date) (offset : Z)
    (name : string) (data : Data) (opts : option AddOpts) : Entry.t :=
  let buf := match data with DataBuffer b => b | DataString s => utf8 s end in
  let d := match bind opts date with Some d => d | None => now end in
  let compress :=
    match bind opts compress with Some false => false | _ => true end in
  Entry.mk name (crc32 buf)
           (if compress then deflateRawSync buf else buf)
           (len buf)
           (if compress then 8 else 0)
           (fst (msDosDateTime d)) (snd (msDosDateTime d))
           offset.

(** ** Sample inputs *)

(** 2024-03-15 10:30:44 UTC. *)
Definition sampleDate : Date := mkDate 2024 2 15 10 30 44.

(** [{ compress: false }]. *)
Definition storedOpts : option AddOpts := Some (mkOpts (Some false) None).

(** A small archive: the [mimetype] entry stored and a deflated text. *)
Definition sampleCalls : list Call :=
  [ mkCall "mimetype" (DataString "application/epub+zip") storedOpts sampleDate;
    mkCall "OEBPS/a.txt" (DataString "hello, hello, hello") None sampleDate ].

(** Three stored entries [a], [b], [c]; [b] carries [n] zero bytes. *)
Definition bigCalls (n : nat) : list Call :=
  [ mkCall "a" (DataBuffer []) storedOpts sampleDate;
    mkCall "b" (DataBuffer (repeat zero n)) storedOpts sampleDate;
    mkCall "c" (DataBuffer []) storedOpts sampleDate ].

(** The condition under which a call of [addFile] does not throw, and the
    entries a sequence of calls records from cursor [o] on. *)
Definition callOk (c : Call) : bool := addFileOk (callNow c) (callName c) (callOpts c).

Fixpoint entriesFrom (deflateRawSync : Buffer -> Buffer) (o : Z) (calls : list Call)
  : list Entry.t :=
  match calls with
  | [] => []
  | c :: r =>
      let e := entryOf deflateRawSync (callNow c) o (callName c) (callData c) (callOpts c) in
      e :: entriesFrom deflateRawSync (o + len (localRecordOf e)) r
  end.

(** [this.files.length] as a number. *)
Definition len_files (zb : ZipBuilder.t) : Z := Z.of_nat (List.length (ZipBuilder.files zb)).

(** The entries [bigCalls n] records. *)
Definition bigEntries (deflateRawSync : Buffer -> Buffer) (n : nat) : list Entry.t :=
  [ entryOf deflateRawSync sampleDate 0 "a" (DataBuffer []) storedOpts;
    entryOf deflateRawSync sampleDate 31 "b" (DataBuffer (repeat zero n)) storedOpts;
    entryOf deflateRawSync sampleDate (62 + Z.of_nat n) "c" (DataBuffer []) storedOpts ].

Local Open Scope string_scope.

(** ** Text *)

Definition nl : string := String (ascii_of_nat 10) EmptyString.

Definition bytes (l : list nat) : string := string_of_list_ascii (map ascii_of_nat l).

(** The white space and line terminators of ECMA-262 (what [trim] removes
    and [\s] matches), each as its UTF-8 sequence: U+0009 to U+000D, U+0020,
    U+00A0, U+1680, U+2000 to U+200A, U+2028, U+2029, U+202F, U+205F,
    U+3000, U+FEFF. *)
Definition whiteSpace : list string :=
  map bytes
    ([ [9]; [10]; [11]; [12]; [13]; [32];
      [194; 160]; [225; 154; 128];
      [226; 128; 128]; [226; 128; 129]; [226; 128; 130]; [226; 128; 131];
      [226; 128; 132]; [226; 128; 133]; [226; 128; 134]; [226; 128; 135];
      [226; 128; 136]; [226; 128; 137]; [226; 128; 138];
      [226; 128; 168]; [226; 128; 169]; [226; 128; 175];
      [226; 129; 159]; [227; 128; 128]; [239; 187; 191] ])%nat.

Definition revString (s : string) : string :=
  string_of_list_ascii (rev (list_ascii_of_string s)).

(** The length of the sequence of [seqs] that [s] starts with, or 0. *)
Fixpoint matchLength (seqs : list string) (s : string) : nat :=
  match seqs with
  | [] => 0
  | p :: r => if startsWith p s then String.length p else matchLength r s
  end.

(** Drop the white space [s] starts with; [skip] counts the bytes of the
    current white space character still to be dropped. *)
Fixpoint dropWhiteSpace (seqs : list string) (skip : nat) (s : string) : string :=
  match s with
  | EmptyString => EmptyString
  | String c t =>
      match skip with
      | S k => dropWhiteSpace seqs k t
      | O =>
          match matchLength seqs s with
          | O => s
          | S k => dropWhiteSpace seqs k t
          end
      end
  end.

Definition trimStart (s : string) : string := dropWhiteSpace whiteSpace 0 s.

Definition trimEnd (s : string) : string :=
  revString (dropWhiteSpace (map revString whiteSpace) 0 (revString s)).

(** [s.trim()]. *)
Definition trim (s : string) : string := trimEnd (trimStart s).

(** The words of [s] between white space. *)
Fixpoint tokensFrom (skip : nat) (cur : string) (s : string) : list string :=
  let flush := match cur with EmptyString => [] | _ => [cur] end in
  match s with
  | EmptyString => flush
  | String c t =>
      match skip with
      | S k => tokensFrom k cur t
      | O =>
          match matchLength whiteSpace s with
          | O => tokensFrom 0 (cur ++ String c EmptyString) t
          | S k => (flush ++ tokensFrom k EmptyString t)%list
          end
      end
  end.

Definition tokens (s : string) : list string := tokensFrom 0 EmptyString s.

(** [array.map((c, i) => f(c, i))]. *)
Fixpoint mapiFrom {A B : Type} (i : nat) (f : nat -> A -> B) (l : list A) : list B :=
  match l with
  | [] => []
  | a :: r => f i a :: mapiFrom (S i) f r
  end.

Definition mapi {A B : Type} (f : nat -> A -> B) (l : list A) : list B := mapiFrom 0 f l.

(** ** The stylesheet, lines 13-26 *)

Definition DEFAULT_CSS : string := "
.chapter-content table {
  background: #004b7a;
  margin: 10px auto;
  width: 90%;
  border: none;
  box-shadow: 1px 1px 1px rgba(0,0,0,.75);
  border-collapse: separate;
  border-spacing: 2px;
}
.chapter-content table td {
  color: #ccc;
}
".

(** ** [uuidv4], lines 28-34 *)

(** [v.toString(16)] for [0 <= v < 16]. *)
Definition hexDigit (v : Z) : string :=
  String (ascii_of_nat (Z.to_nat (if (v <? 10)%Z then 48 + v else 87 + v)%Z)) EmptyString.

(** The replacement of one character of the pattern.  [r] is
    [(Math.random() * 16) | 0], a number from 0 to 15. *)
Definition uuidChar (c : ascii) (r : Z) : string :=
  let v := if Ascii.eqb c "x" then r else JS.or (JS.and r 0x3) 0x8 in
  hexDigit v.

(** The global replacement of [/[xy]/g]: the callback draws a fresh random
    number at each match, in order; [draws] is the sequence of those numbers. *)
Fixpoint uuidFill (pattern : string) (draws : list Z) : string :=
  match pattern with
  | EmptyString => EmptyString
  | String c t =>
      if Ascii.eqb c "x" || Ascii.eqb c "y" then
        match draws with
        | r :: rest => (uuidChar c r ++ uuidFill t rest)%string
        | [] => (uuidChar c 0 ++ uuidFill t [])%string
        end
      else String c (uuidFill t draws)
  end.

Definition uuidv4 (draws : list Z) : string :=
  uuidFill "xxxxxxxx-xxxx-4xxx-yxxx-xxxxxxxxxxxx" draws.

(** ** The document templates, lines 173-257 *)

Record ChapterFile : Type := mkChapterFile {
  cfTitle : string;
  cfFilename : string;
  cfXhtml : string
}.

Definition buildXhtml (title bodyHtml : string) : string :=
  "<?xml version=" ++ dq ++ "1.0" ++ dq ++ " encoding=" ++ dq ++ "utf-8" ++ dq ++
  "?>" ++ nl ++ "<!DOCTYPE html>" ++ nl ++ "<html xmlns=" ++ dq ++
  "http://www.w3.org/1999/xhtml" ++ dq ++ ">" ++ nl ++ "<head>" ++ nl ++
  "  <meta http-equiv=" ++ dq ++ "Content-Type" ++ dq ++ " content=" ++ dq ++
  "text/html; charset=utf-8" ++ dq ++ " />" ++ nl ++ "  <title>" ++ escapeXml title ++
  "</title>" ++ nl ++ "  <link rel=" ++ dq ++ "stylesheet" ++ dq ++ " type=" ++ dq ++
  "text/css" ++ dq ++ " href=" ++ dq ++ "style.css" ++ dq ++ " />" ++ nl ++
  "</head>" ++ nl ++ "<body>" ++ nl ++ bodyHtml ++ nl ++ "</body>" ++ nl ++ "</html>".

(** The manifest entries of the chapters, one per chapter. *)
Definition manifestChapterItem (i : nat) (c : ChapterFile) : string :=
  "<item id=" ++ dq ++ "chapter-" ++ showNat (i + 1)%nat ++ dq ++ " href=" ++ dq ++
  cfFilename c ++ dq ++ " media-type=" ++ dq ++ "application/xhtml+xml" ++ dq ++ "/>".

Definition ncxItem : string :=
  "<item id=" ++ dq ++ "ncx" ++ dq ++ " href=" ++ dq ++ "toc.ncx" ++ dq ++
  " media-type=" ++ dq ++ "application/x-dtbncx+xml" ++ dq ++ "/>".

Definition styleItem : string :=
  "<item id=" ++ dq ++ "style" ++ dq ++ " href=" ++ dq ++ "style.css" ++ dq ++
  " media-type=" ++ dq ++ "text/css" ++ dq ++ "/>".

Definition manifestItemList (chapters : list ChapterFile) : list string :=
  List.app [ncxItem; styleItem] (mapi manifestChapterItem chapters).

Definition spineItem (i : nat) (c : ChapterFile) : string :=
  "<itemref idref=" ++ dq ++ "chapter-" ++ showNat (i + 1)%nat ++ dq ++ " />".

Definition spineItemList (chapters : list ChapterFile) : list string :=
  mapi spineItem chapters.

Definition makeOpf (uuid title author language : string) (chapters : list ChapterFile)
  : string :=
  let manifestItems := String.concat (nl ++ "    ") (manifestItemList chapters) in
  let spineItems := String.concat (nl ++ "    ") (spineItemList chapters) in
  "<?xml version=" ++ dq ++ "1.0" ++ dq ++ " encoding=" ++ dq ++ "utf-8" ++ dq ++
  "?>" ++ nl ++ "<package xmlns=" ++ dq ++ "http://www.idpf.org/2007/opf" ++ dq ++
  " unique-identifier=" ++ dq ++ "BookId" ++ dq ++ " version=" ++ dq ++ "2.0" ++ dq ++
  ">" ++ nl ++ "  <metadata xmlns:dc=" ++ dq ++ "http://purl.org/dc/elements/1.1/" ++
  dq ++ " xmlns:opf=" ++ dq ++ "http://www.idpf.org/2007/opf" ++ dq ++ ">" ++ nl ++
  "    <dc:title>" ++ escapeXml title ++ "</dc:title>" ++ nl ++
  "    <dc:creator opf:role=" ++ dq ++ "aut" ++ dq ++ ">" ++ escapeXml author ++
  "</dc:creator>" ++ nl ++ "    <dc:language>" ++ escapeXml language ++
  "</dc:language>" ++ nl ++ "    <dc:identifier id=" ++ dq ++ "BookId" ++ dq ++
  ">urn:uuid:" ++ uuid ++ "</dc:identifier>" ++ nl ++ "  </metadata>" ++ nl ++
  "  <manifest>" ++ nl ++ "    " ++ manifestItems ++ nl ++ "  </manifest>" ++ nl ++
  "  <spine toc=" ++ dq ++ "ncx" ++ dq ++ ">" ++ nl ++ "    " ++ spineItems ++ nl ++
  "  </spine>" ++ nl ++ "</package>".

Definition navPoint (i : nat) (c : ChapterFile) : string :=
  "    <navPoint id=" ++ dq ++ "navPoint-" ++ showNat (i + 1)%nat ++ dq ++ " playOrder=" ++
  dq ++ showNat (i + 1)%nat ++ dq ++ ">" ++ nl ++ "      <navLabel><text>" ++
  escapeXml (orElse (cfTitle c) ("Chapter " ++ showNat (i + 1)%nat)) ++
  "</text></navLabel>" ++ nl ++ "      <content src=" ++ dq ++ cfFilename c ++ dq ++
  " />" ++ nl ++ "    </navPoint>".

Definition navPointList (chapters : list ChapterFile) : list string :=
  mapi navPoint chapters.

Definition makeNcx (uuid title author : string) (chapters : list ChapterFile) : string :=
  let navPoints := String.concat nl (navPointList chapters) in
  "<?xml version=" ++ dq ++ "1.0" ++ dq ++ " encoding=" ++ dq ++ "utf-8" ++ dq ++
  "?>" ++ nl ++ "<!DOCTYPE ncx PUBLIC " ++ dq ++ "-//NISO//DTD ncx 2005-1//EN" ++ dq ++
  " " ++ dq ++ "http://www.daisy.org/z3986/2005/ncx-2005-1.dtd" ++ dq ++ ">" ++ nl ++
  "<ncx xmlns=" ++ dq ++ "http://www.daisy.org/z3986/2005/ncx/" ++ dq ++ " version=" ++
  dq ++ "2005-1" ++ dq ++ ">" ++ nl ++ "  <head>" ++ nl ++ "    <meta name=" ++ dq ++
  "dtb:uid" ++ dq ++ " content=" ++ dq ++ "urn:uuid:" ++ uuid ++ dq ++ "/>" ++ nl ++
  "    <meta name=" ++ dq ++ "dtb:depth" ++ dq ++ " content=" ++ dq ++ "1" ++ dq ++
  "/>" ++ nl ++ "    <meta name=" ++ dq ++ "dtb:totalPageCount" ++ dq ++ " content=" ++
  dq ++ "0" ++ dq ++ "/>" ++ nl ++ "    <meta name=" ++ dq ++ "dtb:maxPageNumber" ++
  dq ++ " content=" ++ dq ++ "0" ++ dq ++ "/>" ++ nl ++ "  </head>" ++ nl ++
  "  <docTitle><text>" ++ escapeXml title ++ "</text></docTitle>" ++ nl ++
  "  <docAuthor><text>" ++ escapeXml author ++ "</text></docAuthor>" ++ nl ++
  "  <navMap>" ++ nl ++ navPoints ++ nl ++ "  </navMap>" ++ nl ++ "</ncx>".

(** ** The chapter splitter, lines 259-284 *)

(** The document tree cheerio works on. *)
#[local] Set Warnings "-register-all".
Inductive Node : Type :=
  | Element (tag : string) (attribs : list (string * string)) (children : list Node)
  | Text (data : string)
  | Comment (data : string).

Definition isElement (n : Node) : bool :=
  match n with Element _ _ _ => true | _ => false end.

(** [$(el).text()]: the text nodes below [el], concatenated in document
    order. *)
Fixpoint text (n : Node) : string :=
  match n with
  | Text d => d
  | Comment _ => EmptyString
  | Element _ _ cs =>
      (fix go (l : list Node) : string :=
         match l with
         | [] => EmptyString
         | c :: r => (text c ++ go r)%string
         end) cs
  end.

Fixpoint attr (name : string) (attribs : list (string * string)) : option string :=
  match attribs with
  | [] => None
  | (k, v) :: r => if String.eqb k name then Some v else attr name r
  end.

(** The selector [h1.chapter]: an [h1] element whose [class] attribute has
    the word [chapter]. *)
Definition isChapterHeading (n : Node) : bool :=
  match n with
  | Element tag attribs _ =>
      String.eqb tag "h1" &&
      match attr "class" attribs with
      | Some v => existsb (String.eqb "chapter") (tokens v)
      | None => false
      end
  | _ => false
  end.

(** The selector [style]. *)
Definition isStyle (n : Node) : bool :=
  match n with
  | Element tag _ _ => String.eqb tag "style"
  | _ => false
  end.

(** [$(selector)]: the matching elements of the document, in document
    order, each with the siblings that follow it ([el.next], ...). *)
Fixpoint selectNode (p : Node -> bool) (n : Node) (next : list Node)
  : list (Node * list Node) :=
  match n with
  | Element _ _ cs =>
      ((if p n then [(n, next)] else [])
      ++ (fix go (l : list Node) : list (Node * list Node) :=
            match l with
            | [] => []
            | c :: r => selectNode p c r ++ go r
            end) cs)%list
  | _ => []
  end.

Fixpoint select (p : Node -> bool) (nodes : list Node) : list (Node * list Node) :=
  match nodes with
  | [] => []
  | n :: r => (selectNode p n r ++ select p r)%list
  end.

Fixpoint takeWhile {A : Type} (p : A -> bool) (l : list A) : list A :=
  match l with
  | a :: r => if p a then a :: takeWhile p r else []
  | [] => []
  end.

(** [$(el).nextUntil('h1.chapter')]: the element siblings after [el], up
    to the first that is a chapter heading. *)
Definition nextUntilChapter (next : list Node) : list Node :=
  takeWhile (fun n => negb (isChapterHeading n)) (filter isElement next).

Record Chapter : Type := mkChapter {
  chTitle : string;
  chHtml : string
}.

(** The wrapper of line 268. *)
Definition wrapRoot (html : string) : string :=
  "<div id=" ++ dq ++ "root" ++ dq ++ ">" ++ html ++ "</div>".

(** The callback of [each] on line 270, pushing onto [chapters]. *)
Definition pushChapter (outerHtml : Node -> string)
    (chapters : list Chapter) (i : nat) (sel : Node * list Node) : list Chapter :=
  let '(el, next) := sel in
  let title := orElse (trim (text el)) ("Chapter " ++ showNat (i + 1)%nat) in
  let titleHtml := outerHtml el in
  let bodyHtml := String.concat EmptyString (map outerHtml (nextUntilChapter next)) in
  (chapters ++ [mkChapter title (titleHtml ++ nl ++ bodyHtml)%string])%list.

(** [selection.each((i, el) => ...)] with the array it fills. *)
Fixpoint eachFrom {St A : Type} (f : St -> nat -> A -> St) (i : nat) (l : list A)
    (s : St) : St :=
  match l with
  | [] => s
  | a :: r => eachFrom f (S i) r (f s i a)
  end.

(** The callback of [each] on line 262. *)
Definition collectCss (innerHtml : Node -> string)
    (cssCollected : string) (i : nat) (sel : Node * list Node) : string :=
  let css := innerHtml (fst sel) in
  match css with
  | EmptyString => cssCollected
  | _ => cssCollected ++ css ++ nl
  end.

(** [extractChaptersAndCss].  [loadHtml] is cheerio's [load] (the nodes
    of the document it builds), [outerHtml] is [$.html(node)] and
    [innerHtml] is [$(el).html()]. *)
Definition extractChaptersAndCss
    (loadHtml : string -> list Node) (outerHtml innerHtml : Node -> string)
    (html : string) : list Chapter * string :=
  let probe := loadHtml html in
  let cssCollected :=
    eachFrom (collectCss innerHtml) 0 (select isStyle probe) EmptyString in
  let cssCollected := trim (orElse cssCollected DEFAULT_CSS) in
  let doc := loadHtml (wrapRoot html) in
  let chapters :=
    eachFrom (pushChapter outerHtml) 0 (select isChapterHeading doc) [] in
  let chapters :=
    match chapters with
    | [] => [mkChapter "Chapter 1" html]
    | _ => chapters
    end in
  (chapters, cssCollected).

(** ** [writeEpubBufferFromParts], lines 286-323 *)

Record EpubOpts : Type := mkEpubOpts {
  optTitle : option string;
  optAuthor : option string;
  optLanguage : option string
}.

(** [o || d] for an optional string. *)
Definition orDefault (o : option string) (d : string) : string :=
  match o with
  | Some s => orElse s d
  | None => d
  end.

Definition containerXml : string :=
  "<?xml version=" ++ dq ++ "1.0" ++ dq ++ "?>" ++ nl ++ "<container version=" ++ dq ++
  "1.0" ++ dq ++ " xmlns=" ++ dq ++
  "urn:oasis:names:tc:opendocument:xmlns:container" ++ dq ++ ">" ++ nl ++
  "  <rootfiles>" ++ nl ++ "    <rootfile full-path=" ++ dq ++ "OEBPS/content.opf" ++
  dq ++ " media-type=" ++ dq ++ "application/oebps-package+xml" ++ dq ++ "/>" ++ nl ++
  "  </rootfiles>" ++ nl ++ "</container>".

Definition chapterFile (toLowerCase : string -> string) (i : nat) (c : Chapter)
  : ChapterFile :=
  mkChapterFile
    (chTitle c)
    ("chapter-" ++ showNat (i + 1)%nat ++ "-" ++ slugify toLowerCase (chTitle c) ++ ".xhtml")
    (buildXhtml (chTitle c) (chHtml c)).

Definition inferredTitle (chaptersIn : list Chapter) (opts : EpubOpts) : string :=
  orElse (orDefault (optTitle opts)
                    (match chaptersIn with c :: _ => chTitle c | [] => EmptyString end))
         "Book".

(** The arguments of the [addFile] calls of lines 313-320, in order. *)
Definition epubFiles (toLowerCase : string -> string) (uuid : string)
    (chaptersIn : list Chapter) (css : string) (opts : EpubOpts)
  : list (string * Data * option AddOpts) :=
  let language := orDefault (optLanguage opts) "en" in
  let author := orDefault (optAuthor opts) "Unknown" in
  let title := inferredTitle chaptersIn opts in
  let chapterFiles := mapi (chapterFile toLowerCase) chaptersIn in
  let opf := makeOpf uuid title author language chapterFiles in
  let ncx := makeNcx uuid title author chapterFiles in
  ([ ("mimetype", DataString "application/epub+zip", Some (mkOpts (Some false) None));
    ("META-INF/container.xml", DataString containerXml, None);
    ("OEBPS/style.css", DataString css, None);
    ("OEBPS/content.opf", DataString opf, None);
    ("OEBPS/toc.ncx", DataString ncx, None) ]
  ++ map (fun ch => (("OEBPS/" ++ cfFilename ch)%string, DataString (cfXhtml ch), None))
         chapterFiles)%list.

(** The calls with the clock reading each makes: the [k]-th call of
    [addFile] sees [clock k]. *)
Definition epubCalls (clock : nat -> Date)
    (files : list (string * Data * option AddOpts)) : list Call :=
  mapi (fun k f => mkCall (fst (fst f)) (snd (fst f)) (snd f) (clock k)) files.

Record EpubResult : Type := mkEpubResult {
  resBuffer : Buffer;
  resUuid : string;
  resTitle : string;
  resChapterCount : nat
}.

(** [writeEpubBufferFromParts].  [draws] are the random numbers [uuidv4]
    draws; [None] when [addFile] or [build] throws. *)
Definition writeEpubBufferFromParts
    (toLowerCase : string -> string) (deflateRawSync : Buffer -> Buffer)
    (draws : list Z) (clock : nat -> Date)
    (chaptersIn : list Chapter) (css : string) (opts : EpubOpts) : option EpubResult :=
  let uuid := uuidv4 draws in
  zip <- addFiles deflateRawSync
           (epubCalls clock (epubFiles toLowerCase uuid chaptersIn css opts))
           ZipBuilder.new ;;
  buffer <- snd (ZipBuilder.build zip) ;;
  Some (mkEpubResult buffer uuid (inferredTitle chaptersIn opts) (List.length chaptersIn)).

Local Close Scope string_scope.

Local Open Scope string_scope.

(** ** Sample documents

    The inputs of the examples, with the tree cheerio builds for each and
    the markup it serializes each node to. *)

(** The input of the specification's example. *)
Definition exampleHtml : string :=
  "<h1 class=" ++ dq ++ "chapter" ++ dq ++ ">Intro</h1><p>Hello</p>" ++
  "<h1 class=" ++ dq ++ "chapter" ++ dq ++ ">End</h1><p>Bye</p>".

(** An input without chapter heading and without stylesheet. *)
Definition plainHtml : string := "<p>Hello</p>".

Definition exampleBody : list Node :=
  [ Element "h1" [("class", "chapter")] [Text "Intro"];
    Element "p" [] [Text "Hello"];
    Element "h1" [("class", "chapter")] [Text "End"];
    Element "p" [] [Text "Bye"] ].

Definition plainBody : list Node := [ Element "p" [] [Text "Hello"] ].

(** The document of an HTML fragment: [html], with an empty [head] and the
    fragment in [body]. *)
Definition documentOf (body : list Node) : list Node :=
  [ Element "html" [] [Element "head" [] []; Element "body" [] body] ].

Definition rootOf (body : list Node) : list Node :=
  [ Element "div" [("id", "root")] body ].

(** cheerio's [load] on the four strings the examples pass to it. *)
Definition sampleLoadHtml (s : string) : list Node :=
  if String.eqb s exampleHtml then documentOf exampleBody
  else if String.eqb s (wrapRoot exampleHtml) then documentOf (rootOf exampleBody)
  else if String.eqb s plainHtml then documentOf plainBody
  else if String.eqb s (wrapRoot plainHtml) then documentOf (rootOf plainBody)
  else [].

(** The serializer on trees whose text and attribute values have no
    character to escape and whose elements are not void. *)
Fixpoint sampleOuterHtml (n : Node) : string :=
  match n with
  | Text d => d
  | Comment d => "<!--" ++ d ++ "-->"
  | Element tag attribs cs =>
      "<" ++ tag ++
      String.concat EmptyString
        (map (fun kv => " " ++ fst kv ++ "=" ++ dq ++ snd kv ++ dq) attribs) ++
      ">" ++
      (fix go (l : list Node) : string :=
         match l with
         | [] => EmptyString
         | c :: r => sampleOuterHtml c ++ go r
         end) cs ++
      "</" ++ tag ++ ">"
  end.

Definition sampleInnerHtml (n : Node) : string :=
  match n with
  | Element _ _ cs => String.concat EmptyString (map sampleOuterHtml cs)
  | _ => EmptyString
  end.

(** The default stylesheet without its first and last line break. *)
Definition trimmedDefaultCss : string :=
  ".chapter-content table {
  background: #004b7a;
  margin: 10px auto;
  width: 90%;
  border: none;
  box-shadow: 1px 1px 1px rgba(0,0,0,.75);
  border-collapse: separate;
  border-spacing: 2px;
}
.chapter-content table td {
  color: #ccc;
}".

Local Close Scope string_scope.

Local Open Scope string_scope.

(** The chapter the splitter makes of the [i]-th heading [el] and the
    siblings [next] that follow it. *)
Definition chapterOf (outerHtml : Node -> string) (i : nat) (sel : Node * list Node)
  : Chapter :=
  mkChapter
    (orElse (trim (text (fst sel))) ("Chapter " ++ showNat (i + 1)%nat))
    (outerHtml (fst sel) ++ nl
     ++ String.concat EmptyString (map outerHtml (nextUntilChapter (snd sel)))).

(** What the specification's example expects. *)
Definition exampleChapters : list Chapter :=
  [ mkChapter "Intro"
      ("<h1 class=" ++ dq ++ "chapter" ++ dq ++ ">Intro</h1>" ++ nl ++ "<p>Hello</p>");
    mkChapter "End"
      ("<h1 class=" ++ dq ++ "chapter" ++ dq ++ ">End</h1>" ++ nl ++ "<p>Bye</p>") ].




Local Close Scope string_scope.

(** Induction on a tree, with the hypothesis for every child. *)
Section NodeInduction.

Variable P : Node -> Prop.
Hypothesis onElement :
  forall tag attribs cs, Forall P cs -> P (Element tag attribs cs).
Hypothesis onText : forall d, P (Text d).
Hypothesis onComment : forall d, P (Comment d).

Fixpoint Node_induction (n : Node) : P n :=
  match n with
  | Element tag attribs cs =>
      onElement tag attribs cs
        ((fix go (l : list Node) : Forall P l :=
            match l with
            | [] => Forall_nil P
            | c :: r => Forall_cons c (Node_induction c) (go r)
            end) cs)
  | Text d => onText d
  | Comment d => onComment d
  end.

End NodeInduction.

(** An entry without its position in the archive. *)
Definition eraseOffset (e : Entry.t) : Entry.t :=
  Entry.mk (Entry.name e) (Entry.crc e) (Entry.comp e) (Entry.uncomp e)
           (Entry.method e) (Entry.time e) (Entry.date e) 0.

(** What decides whether a call of [addFile] throws. *)
Definition callGuard (c : Call) : string * option AddOpts * Date :=
  (callName c, callOpts c, callNow c).

(** Two sequences of random numbers, for two builds. *)
Definition draws1 : list Z :=
  [0; 1; 2; 3; 4; 5; 6; 7; 8; 9; 10; 11; 12; 13; 14; 15;
   0; 1; 2; 3; 4; 5; 6; 7; 8; 9; 10; 11; 12; 13; 14].

Definition draws2 : list Z :=
  [15; 14; 13; 12; 11; 10; 9; 8; 7; 6; 5; 4; 3; 2; 1; 0;
   15; 14; 13; 12; 11; 10; 9; 8; 7; 6; 5; 4; 3; 2; 1].

Definition noOpts : EpubOpts := mkEpubOpts None None None.

(** ** More of the reader

    The end of central directory record and the remaining fields of the two
    headers, as a reader finds them. *)

Record EndRecord : Type := mkEnd {
  er_disk : Z;
  er_diskStart : Z;
  er_countDisk : Z;
  er_count : Z;
  er_size : Z;
  er_offset : Z;
  er_commentLen : Z
}.

Definition parseEndRecord (buf : Buffer) (p : nat) : option EndRecord :=
  sig <- readUInt32LE buf p ;;
  if sig =? 0x06054b50 then
    disk <- readUInt16LE buf (p + 4) ;;
    diskStart <- readUInt16LE buf (p + 6) ;;
    countDisk <- readUInt16LE buf (p + 8) ;;
    count <- readUInt16LE buf (p + 10) ;;
    size <- readUInt32LE buf (p + 12) ;;
    off <- readUInt32LE buf (p + 16) ;;
    clen <- readUInt16LE buf (p + 20) ;;
    Some (mkEnd disk diskStart countDisk count size off clen)
  else None.

(** Version needed, flags, method, time and date of a header. *)
Record HeaderMeta : Type := mkMeta {
  hm_version : Z;
  hm_flags : Z;
  hm_method : Z;
  hm_time : Z;
  hm_date : Z
}.

(** The five fields from position [q] on (4 in a local header, 6 in a
    central one). *)
Definition parseMeta (buf : Buffer) (q : nat) : option HeaderMeta :=
  v <- readUInt16LE buf q ;;
  fl <- readUInt16LE buf (q + 2) ;;
  m <- readUInt16LE buf (q + 4) ;;
  t <- readUInt16LE buf (q + 6) ;;
  d <- readUInt16LE buf (q + 8) ;;
  Some (mkMeta v fl m t d).

Definition metaOf (f : Entry.t) : HeaderMeta :=
  mkMeta 20 0x0800 (Entry.method f) (Entry.time f) (Entry.date f).

(** The end record [build] writes for a builder. *)
Definition endRecordOf (zb : ZipBuilder.t) : Buffer :=
  flat_map fieldBytes
    [ U32 0x06054b50; U16 0; U16 0; U16 (len_files zb); U16 (len_files zb);
      U32 (JS.ushr (len (List.concat (map centralHeaderOf (ZipBuilder.files zb)))) 0);
      U32 (JS.ushr (ZipBuilder.offset zb) 0); U16 0 ].

(** Where the central header of the [i]-th entry starts. *)
Definition centralPosition (zb : ZipBuilder.t) (i : nat) : nat :=
  Z.to_nat (ZipBuilder.offset zb)
  + List.length (List.concat (map centralHeaderOf (firstn i (ZipBuilder.files zb)))).

(** The payload of a call and whether it is deflated. *)
Definition callBuffer (c : Call) : Buffer :=
  match callData c with DataBuffer b => b | DataString s => utf8 s end.

Definition callCompress (c : Call) : bool :=
  match bind (callOpts c) compress with Some false => false | _ => true end.

Definition callDate (c : Call) : Date :=
  match bind (callOpts c) date with Some d => d | None => callNow c end.

(** ** Reading DOS time and date back

    Not part of the program: the fields a reader unpacks from the two
    16-bit values, and the dates a JavaScript [Date] can hold. *)

Definition dosTimeFields (time : Z) : Z * Z * Z :=
  (Z.shiftr time 11, Z.land (Z.shiftr time 5) 63, 2 * Z.land time 31).

Definition dosDateFields (date : Z) : Z * Z * Z :=
  (1980 + Z.shiftr date 9, Z.land (Z.shiftr date 5) 15, Z.land date 31).

(** The fields of a valid [Date]: month 0 to 11, day 1 to 31, hours 0 to
    23, minutes and seconds 0 to 59, and a year a [Date] can represent. *)
Definition calendarDate (d : Date) : Prop :=
  -271821 <= getUTCFullYear d <= 275760 /\
  0 <= getUTCMonth d <= 11 /\
  1 <= getUTCDate d <= 31 /\
  0 <= getUTCHours d <= 23 /\
  0 <= getUTCMinutes d <= 59 /\
  0 <= getUTCSeconds d <= 59.

(** ** The shape of an identifier

    Not part of the program: what a reader of a version 4 UUID checks. *)

Definition isHexLower (c : ascii) : bool :=
  let n := nat_of_ascii c in
  ((48 <=? n)%nat && (n <=? 57)%nat) || ((97 <=? n)%nat && (n <=? 102)%nat).

(** The variant digit: one of [8], [9], [a], [b]. *)
Definition isVariantDigit (c : ascii) : bool :=
  Ascii.eqb c "8" || Ascii.eqb c "9" || Ascii.eqb c "a" || Ascii.eqb c "b".

(** [s] follows [pattern]: a hexadecimal digit for each [x], a variant
    digit for each [y], the character of the pattern elsewhere. *)
Fixpoint followsPattern (pattern s : string) : bool :=
  match pattern, s with
  | EmptyString, EmptyString => true
  | String p pt, String c t =>
      (if Ascii.eqb p "x" then isHexLower c
       else if Ascii.eqb p "y" then isVariantDigit c
       else Ascii.eqb p c)
      && followsPattern pt t
  | _, _ => false
  end.

(** A number [(Math.random() * 16) | 0] can be. *)
Definition isDraw (r : Z) : Prop := 0 <= r <= 15.

(** ** Reading a number back from a file name *)

Definition isDigit (c : ascii) : bool :=
  let n := nat_of_ascii c in (48 <=? n)%nat && (n <=? 57)%nat.

Fixpoint digitsOnly (s : string) : bool :=
  match s with
  | EmptyString => true
  | String c t => isDigit c && digitsOnly t
  end.

(** The decimal digits a string starts with. *)
Fixpoint leadingDigits (s : string) : string :=
  match s with
  | EmptyString => EmptyString
  | String c t => if isDigit c then String c (leadingDigits t) else EmptyString
  end.

(** The name of the archive member of each [addFile] call. *)
Definition memberNames (files : list (string * Data * option AddOpts)) : list string :=
  map (fun f => fst (fst f)) files.

(** ** What the splitter collects, stated on lists *)

Definition nonEmpty (s : string) : bool :=
  match s with EmptyString => false | _ => true end.

(** Each block followed by a line break, one after the other. *)
Fixpoint joinLines (blocks : list string) : string :=
  match blocks with
  | [] => EmptyString
  | b :: r => (b ++ nl ++ joinLines r)%string
  end.

(** The contents of the [style] elements of a document, in document
    order. *)
Definition styleBlocks (innerHtml : Node -> string) (doc : list Node) : list string :=
  map (fun sel => innerHtml (fst sel)) (select isStyle doc).

(** * The RoyalRoad node: [fetchBook], src/unnamed/part_000 lines 20-111

    [fetchBook] talks to the network and reads each page with cheerio.  The
    network is a function [fetch]: the answer to the [n]-th call of [fetch]
    of a run, for the URL asked.  The four cheerio queries are functions of
    the text of the page.  [sleep] only waits and is left out.  The numbers
    [nbChapters] and [startChapter] are integers.  The retry loop of lines
    59-69 has no bound, so the functions take fuel, and [Running] is the
    outcome of a run the fuel did not finish. *)

Module RoyalRoad.

Local Open Scope string_scope.

Definition CSS : string := "<style>
    .chapter-content table {
        background: #004b7a;
        margin: 10px auto;
        width: 90%;
        border: none;
        box-shadow: 1px 1px 1px rgba(0,0,0,.75);
        border-collapse: separate;
        border-spacing: 2px;
    }
    .chapter-content table td {
        color: #ccc;
    }
    </style>
".

(** What the code reads of a response. *)
Record Response : Type := mkResponse {
  ok : bool;
  status : Z;
  responseText : string
}.

Record Fetched : Type := mkFetched {
  book : string;
  lastChapterHtml : string;
  fetched : Z
}.

Inductive Outcome : Type :=
  | Returned (r : Fetched)
  | Thrown (message : string)
  | Running.

(** [o || EmptyString] for the result of [html()]. *)
Definition orEmpty (o : option string) : string :=
  match o with Some s => s | None => EmptyString end.

(** The test [/^https?:\/\//i] of line 106. *)
Definition isAbsolute (s : string) : bool :=
  startsWith "http://" (asciiLower s) || startsWith "https://" (asciiLower s).

(** Line 106. *)
Definition resolve (nextRel : string) : string :=
  if isAbsolute nextRel then nextRel else "https://www.royalroad.com" ++ nextRel.

(** The status in the message of line 72, a number that is a natural. *)
Definition showStatus (status : Z) : string := showNat (Z.to_nat status).

Section FetchBook.

Variable fetch : nat -> string -> Response.

(** [$('h1.font-white').first().text()]. *)
Variable chapterTitleText : string -> string.
(** [$('.chapter-inner').first().html()], [None] for [null]. *)
Variable chapterInnerHtml : string -> option string.
(** [html()] of each element of [$('.portlet-body.author-note')]. *)
Variable authorNotesHtml : string -> list (option string).
(** [$('[rel=next]').first().attr('href')], [None] for [undefined]. *)
Variable nextHref : string -> option string.

(** Lines 79-95: the markup [S] of one page. *)
Definition chapterHtml (html : string) : string :=
  let s := "<h1 class=" ++ dq ++ "chapter" ++ dq ++ ">" ++ trim (chapterTitleText html)
           ++ "</h1>" ++ nl in
  let s := s ++ orEmpty (chapterInnerHtml html) in
  match authorNotesHtml html with
  | [a] =>
      s ++ "<h3 class=" ++ dq ++ "author_note" ++ dq ++ "> Author note </h3>" ++ nl
        ++ orEmpty a
  | [a; b] =>
      s ++ "<h3 class=" ++ dq ++ "author_note" ++ dq ++ "> Author note top page </h3>" ++ nl
        ++ orEmpty a
        ++ "<h3 class=" ++ dq ++ "author_note" ++ dq ++ "> Author note bottom page </h3>"
        ++ nl ++ orEmpty b
  | _ => s
  end.

(** Lines 50-69: ask until the status is not 429.  [n] is the number of
    calls of [fetch] made so far; the result is the response and the
    number of calls made then. *)
Fixpoint request (fuel n : nat) (url : string) : option (Response * nat) :=
  match fuel with
  | O => None
  | S fuel' =>
      let res := fetch n url in
      if (status res =? 429)%Z then request fuel' (S n) url else Some (res, S n)
  end.

(** The loop of lines 49-108 and the [return] of line 110. *)
Fixpoint loop (fuel n : nat) (nextUrl : string) (nbChapters startChapter : Z)
    (book lastS : string) (chapterCount : Z) : Outcome :=
  match fuel with
  | O => Running
  | S fuel' =>
      if (chapterCount <=? nbChapters)%Z then
        match request fuel' n nextUrl with
        | None => Running
        | Some (res, n') =>
            if negb (ok res) then
              Thrown ("HTTP " ++ showStatus (status res) ++ " on " ++ nextUrl)
            else
              let html := responseText res in
              let s := chapterHtml html in
              let book' := if (startChapter <=? chapterCount)%Z then book ++ s else book in
              let lastS' := if (startChapter <=? chapterCount)%Z then s else lastS in
              match nextHref html with
              | Some (String c r) =>
                  loop fuel' n' (resolve (String c r)) nbChapters startChapter
                       book' lastS' (chapterCount + 1)%Z
              | _ => Returned (mkFetched book' lastS' (chapterCount - 1)%Z)
              end
        end
      else Returned (mkFetched book lastS (chapterCount - 1)%Z)
  end.

Definition fetchBook (fuel : nat) (nextUrl : string) (nbChapters startChapter : Z)
  : Outcome :=
  loop fuel 0 nextUrl nbChapters startChapter CSS EmptyString 1%Z.

(** ** The pages of a run without retry

    When no request is answered 429, the [k]-th request is for the
    [k]-th page. *)

Definition hasNext (html : string) : bool :=
  match nextHref html with Some (String _ _) => true | _ => false end.

Fixpoint urlAt (start : string) (k : nat) : string :=
  match k with
  | O => start
  | S k' => resolve (orEmpty (nextHref (responseText (fetch k' (urlAt start k')))))
  end.

Definition pageAt (start : string) (k : nat) : Response := fetch k (urlAt start k).

(** The markup of the pages [k], ..., [k + d - 1] that are included: those
    whose number, counted from 1, is at least [startChapter]. *)
Definition included (start : string) (startChapter : Z) (k d : nat) : list string :=
  map (fun i => chapterHtml (responseText (pageAt start i)))
      (filter (fun i => (startChapter <=? Z.of_nat i + 1)%Z) (seq k d)).

End FetchBook.

Fixpoint joinAll (l : list string) : string :=
  match l with
  | [] => EmptyString
  | s :: r => s ++ joinAll r
  end.

(** ** A sample site: two pages, the second without a link to a next one *)

Definition sampleFetch (n : nat) (url : string) : Response :=
  mkResponse true 200%Z ("page " ++ showNat (n + 1)).

Definition sampleTitle (html : string) : string := " Chapter of " ++ html ++ " ".

Definition sampleInner (html : string) : option string := Some "<p>text</p>".

Definition sampleNotes (html : string) : list (option string) :=
  if String.eqb html "page 2" then [Some "<p>thanks</p>"] else [].

Definition sampleNext (html : string) : option string :=
  if String.eqb html "page 2" then None else Some "/fiction/1/chapter/2".

(** A site that is down. *)
Definition downFetch (n : nat) (url : string) : Response :=
  mkResponse false 503%Z EmptyString.

(** A site that answers 429 twice, then 404. *)
Definition busyFetch (n : nat) (url : string) : Response :=
  if (n <? 2)%nat then mkResponse false 429%Z EmptyString
  else mkResponse false 404%Z EmptyString.

(** A site that only answers 429. *)
Definition limitedFetch (n : nat) (url : string) : Response :=
  mkResponse false 429%Z EmptyString.

(** A site that answers 429 twice, then delivers its last page. *)
Definition retryFetch (n : nat) (url : string) : Response :=
  if (n <? 2)%nat then mkResponse false 429%Z EmptyString
  else mkResponse true 200%Z "page 2".

End RoyalRoad.

(** The characters of a chapter's file name: [a-z0-9-] and the dot. *)
Definition isFileNameChar (c : ascii) : bool := isSlugChar c || Ascii.eqb c ".".

(** ** The size of an archive *)

(** The bytes one call of [addFile] adds to the archive that is built:
    30 for the local header, 46 for the central header, the name twice and
    the payload as stored. *)
Definition memberSize (deflateRawSync : Buffer -> Buffer) (c : Call) : Z :=
  76 + 2 * len (utf8 (callName c))
  + len (if callCompress c then deflateRawSync (callBuffer c) else callBuffer c).

Fixpoint totalSize (deflateRawSync : Buffer -> Buffer) (calls : list Call) : Z :=
  match calls with
  | [] => 22
  | c :: r => memberSize deflateRawSync c + totalSize deflateRawSync r
  end.

(* ================================================================== *)
Local Open Scope string_scope.

(** ** The document, as the specification reads it

    Not part of the program: the notions the properties of the splitter are
    stated with. *)










(** ** Reading the generated files

    Not part of the program: what a reader of the package and navigation
    files looks for. *)





Local Close Scope string_scope.

(** ** The links the specification calls absolute

    Not part of the program: the regular expression of line 106 read
    character by character.  [h], [t], [t], [p] in either letter case, an
    optional [s] in either case, then [://]. *)

Definition isEither (lower upper c : ascii) : bool := Ascii.eqb c lower || Ascii.eqb c upper.

Definition hasHttpScheme (s : string) : bool :=
  match s with
  | String c1 (String c2 (String c3 (String c4 rest))) =>
      isEither "h" "H" c1 && isEither "t" "T" c2 && isEither "t" "T" c3
      && isEither "p" "P" c4
      && (startsWith "://" rest
          || match rest with
             | String c5 rest' => isEither "s" "S" c5 && startsWith "://" rest'
             | EmptyString => false
             end)
  | _ => false
  end.

(** * Part II: properties *)
(* ================================================================== *)

(** ** 32-bit conversions *)

Lemma ToInt32_shift (x : Z) : exists q, JS.ToInt32 x = x + 2 ^ 32 * q.
Proof.
  unfold JS.ToInt32.
  exists (- ((x + 2 ^ 31) / 2 ^ 32)).
  pose proof (Z.div_mod (x + 2 ^ 31) (2 ^ 32)) as H.
  lia.
Qed.

Lemma ToUint32_range (x : Z) : 0 <= JS.ToUint32 x < 2 ^ 32.
Proof. unfold JS.ToUint32. apply Z.mod_pos_bound. lia. Qed.

Lemma ToUint32_small (x : Z) : 0 <= x < 2 ^ 32 -> JS.ToUint32 x = x.
Proof. intros H. unfold JS.ToUint32. now apply Z.mod_small. Qed.

Lemma ToUint32_ToInt32 (x : Z) : JS.ToUint32 (JS.ToInt32 x) = JS.ToUint32 x.
Proof.
  destruct (ToInt32_shift x) as [q ->]. unfold JS.ToUint32.
  rewrite (Z.mul_comm (2 ^ 32) q). apply Z_mod_plus_full.
Qed.

Lemma ToUint32_land_ones (x : Z) : JS.ToUint32 x = Z.land x (Z.ones 32).
Proof. unfold JS.ToUint32. rewrite Z.land_ones by lia. reflexivity. Qed.

Lemma ToUint32_lxor (a b : Z) :
  JS.ToUint32 (Z.lxor a b) = Z.lxor (JS.ToUint32 a) (JS.ToUint32 b).
Proof.
  rewrite !ToUint32_land_ones.
  apply Z.bits_inj'. intros n Hn.
  rewrite Z.lxor_spec, !Z.land_spec, Z.lxor_spec.
  destruct (Z.testbit a n), (Z.testbit b n), (Z.testbit (Z.ones 32) n); reflexivity.
Qed.

Lemma ToUint32_xor (a b : Z) :
  JS.ToUint32 (JS.xor a b) = Z.lxor (JS.ToUint32 a) (JS.ToUint32 b).
Proof.
  unfold JS.xor. now rewrite ToUint32_ToInt32, ToUint32_lxor, !ToUint32_ToInt32.
Qed.

Lemma ushr_0 (x : Z) : JS.ushr x 0 = JS.ToUint32 x.
Proof. unfold JS.ushr. change (JS.ToUint32 0 mod 32) with 0. apply Z.shiftr_0_r. Qed.

Lemma ushr_ToUint32 (x n : Z) : JS.ushr x n = Z.shiftr (JS.ToUint32 x) (JS.ToUint32 n mod 32).
Proof. reflexivity. Qed.

Lemma ToInt32_small (x : Z) : - 2 ^ 31 <= x < 2 ^ 31 -> JS.ToInt32 x = x.
Proof. intros H. unfold JS.ToInt32. rewrite Z.mod_small; lia. Qed.

Lemma mod256_ToInt32 (x : Z) : JS.ToInt32 x mod 256 = x mod 256.
Proof.
  destruct (ToInt32_shift x) as [q ->].
  replace (x + 2 ^ 32 * q) with (x + (2 ^ 24 * q) * 256) by lia.
  apply Z_mod_plus_full.
Qed.

Lemma mod256_ToUint32 (x : Z) : JS.ToUint32 x mod 256 = x mod 256.
Proof.
  unfold JS.ToUint32.
  pose proof (Z.div_mod x (2 ^ 32)) as H.
  replace (x mod 2 ^ 32) with (x + (- (2 ^ 24) * (x / 2 ^ 32)) * 256) by lia.
  apply Z_mod_plus_full.
Qed.

(** ** Bitwise reasoning *)

Ltac bitwise :=
  apply Z.bits_inj'; intros ?n ?Hn;
  repeat first [ rewrite Z.lxor_spec | rewrite Z.land_spec | rewrite Z.ldiff_spec ];
  repeat match goal with
         | |- context [Z.testbit ?a ?n] => destruct (Z.testbit a n)
         end;
  reflexivity.

Lemma mod256_lxor (a b : Z) : Z.lxor a b mod 256 = Z.lxor (a mod 256) (b mod 256).
Proof.
  change 256 with (2 ^ 8). rewrite <- !Z.land_ones by lia. bitwise.
Qed.

Lemma and_0xff (y : Z) : JS.and y 0xff = y mod 256.
Proof.
  unfold JS.and. change (JS.ToInt32 255) with (Z.ones 8).
  rewrite Z.land_ones by lia. change (2 ^ 8) with 256.
  rewrite mod256_ToInt32. apply ToInt32_small.
  pose proof (Z.mod_pos_bound y 256). lia.
Qed.

(** ** CRC-32: the table-driven loop computes the bitwise algorithm *)

Lemma crcBit_lxor (a b : Z) : crcBit (Z.lxor a b) = Z.lxor (crcBit a) (crcBit b).
Proof.
  unfold crcBit. rewrite Z.lxor_spec, Z.shiftr_lxor.
  destruct (Z.testbit a 0), (Z.testbit b 0); cbn [xorb]; bitwise.
Qed.

Lemma crcBit_iter_lxor (k : nat) (a b : Z) :
  Nat.iter k crcBit (Z.lxor a b) = Z.lxor (Nat.iter k crcBit a) (Nat.iter k crcBit b).
Proof.
  induction k as [|k IH]; [reflexivity|].
  rewrite !Nat.iter_succ, IH. apply crcBit_lxor.
Qed.

(** On a value whose [k] low bits are clear, [k] rounds only shift. *)
Lemma crcBit_iter_high (k : nat) (h : Z) :
  (forall j, 0 <= j < Z.of_nat k -> Z.testbit h j = false) ->
  Nat.iter k crcBit h = Z.shiftr h (Z.of_nat k).
Proof.
  induction k as [|k IH]; intros Hlow.
  - change (Nat.iter 0 crcBit h) with h. change (Z.of_nat 0) with 0.
    now rewrite Z.shiftr_0_r.
  - rewrite Nat.iter_succ, IH by (intros j Hj; apply Hlow; lia).
    unfold crcBit.
    rewrite Z.shiftr_spec by lia.
    rewrite Hlow by lia.
    rewrite Z.shiftr_shiftr by lia.
    f_equal. lia.
Qed.

Lemma split_low8 (x : Z) : x = Z.lxor (Z.land x (Z.ones 8)) (Z.ldiff x (Z.ones 8)).
Proof. bitwise. Qed.

Lemma ldiff_ones_low (x j : Z) : 0 <= j < 8 -> Z.testbit (Z.ldiff x (Z.ones 8)) j = false.
Proof.
  intros Hj. rewrite Z.ldiff_spec, Z.ones_spec_low by lia.
  apply andb_false_r.
Qed.

Lemma shiftr_ldiff_ones (x : Z) : Z.shiftr (Z.ldiff x (Z.ones 8)) 8 = Z.shiftr x 8.
Proof.
  apply Z.bits_inj'. intros n Hn.
  rewrite !Z.shiftr_spec, Z.ldiff_spec by lia.
  rewrite Z.ones_spec_high by lia. apply andb_true_r.
Qed.

(** The classical table identity: eight rounds on [x] are the table entry of
    the low byte of [x], xored with [x] shifted by eight. *)
Lemma crcBit_iter8 (x : Z) :
  Nat.iter 8 crcBit x = Z.lxor (Nat.iter 8 crcBit (x mod 256)) (Z.shiftr x 8).
Proof.
  rewrite (split_low8 x) at 1.
  rewrite crcBit_iter_lxor.
  rewrite (crcBit_iter_high 8 (Z.ldiff x (Z.ones 8))).
  - change (Z.of_nat 8) with 8. rewrite shiftr_ldiff_ones.
    rewrite Z.land_ones by lia. reflexivity.
  - intros j Hj. apply ldiff_ones_low. lia.
Qed.

Lemma CRC_TABLE_bitwise :
  CRC_TABLE = map (fun n => Nat.iter 8 crcBit (Z.of_nat n)) (seq 0 256).
Proof. vm_compute. reflexivity. Qed.

Lemma tableAt_bitwise (i : Z) : 0 <= i < 256 -> tableAt i = Nat.iter 8 crcBit i.
Proof.
  intros Hi. unfold tableAt. rewrite CRC_TABLE_bitwise.
  set (f := fun n : nat => Nat.iter 8 crcBit (Z.of_nat n)).
  rewrite (nth_indep _ 0 (f 0%nat)) by (rewrite length_map, length_seq; lia).
  rewrite map_nth, seq_nth by lia.
  unfold f. cbn [Nat.add]. now rewrite Z2Nat.id by lia.
Qed.

Lemma CRC_TABLE_uint32 : forallb (fun t => (0 <=? t) && (t <? 2 ^ 32)) CRC_TABLE = true.
Proof. vm_compute. reflexivity. Qed.

Lemma tableAt_range (i : Z) : 0 <= tableAt i < 2 ^ 32.
Proof.
  unfold tableAt.
  destruct (Nat.lt_ge_cases (Z.to_nat i) (List.length CRC_TABLE)) as [Hlt|Hge].
  - pose proof CRC_TABLE_uint32 as H. rewrite forallb_forall in H.
    specialize (H _ (nth_In CRC_TABLE 0 Hlt)). lia.
  - rewrite nth_overflow by exact Hge. lia.
Qed.

Lemma byteVal_range (b : ascii) : 0 <= byteVal b < 256.
Proof.
  unfold byteVal. pose proof (N_ascii_bounded b). lia.
Qed.

(** One loop iteration of the source, read as an unsigned value, is one
    byte step of the reference. *)
Lemma crcFold_step (c : Z) (b : ascii) :
  JS.ToUint32 (crcFold c b) = crcByte (JS.ToUint32 c) b.
Proof.
  unfold crcFold, crcByte.
  pose proof (byteVal_range b) as Hb.
  rewrite ToUint32_xor.
  rewrite (ToUint32_small (tableAt _)) by apply tableAt_range.
  rewrite and_0xff.
  assert (Hidx : JS.xor c (byteVal b) mod 256 = Z.lxor (JS.ToUint32 c) (byteVal b) mod 256).
  { unfold JS.xor. rewrite mod256_ToInt32, !mod256_lxor, !mod256_ToInt32, mod256_ToUint32.
    reflexivity. }
  rewrite Hidx.
  rewrite tableAt_bitwise by (apply Z.mod_pos_bound; lia).
  rewrite (crcBit_iter8 (Z.lxor _ _)).
  rewrite Z.shiftr_lxor.
  assert (Hhi : Z.shiftr (byteVal b) 8 = 0).
  { rewrite Z.shiftr_div_pow2 by lia. apply Z.div_small. change (2 ^ 8) with 256. lia. }
  rewrite Hhi, Z.lxor_0_r.
  unfold JS.ushr. change (JS.ToUint32 8 mod 32) with 8.
  pose proof (ToUint32_range c) as Hc.
  rewrite ToUint32_small.
  - apply Z.lxor_comm.
  - rewrite Z.shiftr_div_pow2 by lia. split.
    + apply Z.div_pos; lia.
    + apply Z.div_lt_upper_bound; lia.
Qed.

Lemma crcFold_loop (buf : Buffer) (c : Z) :
  JS.ToUint32 (fold_left crcFold buf c) = fold_left crcByte buf (JS.ToUint32 c).
Proof.
  revert c. induction buf as [|b buf IH]; intros c; cbn [fold_left].
  - reflexivity.
  - now rewrite IH, crcFold_step.
Qed.

Lemma crc32_is_reference (buf : Buffer) : crc32 buf = crc32_reference buf.
Proof.
  unfold crc32, crc32_reference.
  rewrite ushr_0, ToUint32_xor, crcFold_loop. reflexivity.
Qed.

Lemma crc32_range (buf : Buffer) : 0 <= crc32 buf < 2 ^ 32.
Proof. unfold crc32. rewrite ushr_0. apply ToUint32_range. Qed.

(** C4.  [crc32] is a function of the bytes alone and equals the standard
    reflected CRC-32 (polynomial 0xEDB88320, accumulator all ones, final
    complement), computed bit by bit, on every buffer; the checksum of the
    empty buffer is 0x00000000 and the checksum of the nine ASCII bytes
    123456789 is 0xCBF43926. *)
Theorem crc32_standard :
  (forall buf : Buffer, crc32 buf = crc32_reference buf) /\
  crc32 [] = 0x00000000 /\
  crc32 (utf8 "123456789") = 0xCBF43926.
Proof.
  split; [exact crc32_is_reference|].
  split; vm_compute; reflexivity.
Qed.

(** ** [escapeXml] *)

Lemma escapeXml_cons (c : ascii) (t : string) :
  escapeXml (String c t) = (escChar c ++ escapeXml t)%string.
Proof.
  destruct c as [[] [] [] [] [] [] [] []]; reflexivity.
Qed.

Lemma unescapeXml_escChar (c : ascii) (rest : string) :
  unescapeXml (escChar c ++ rest) = String c (unescapeXml rest).
Proof.
  destruct c as [[] [] [] [] [] [] [] []]; reflexivity.
Qed.

Lemma noRawMarkup_escChar (c : ascii) (rest : string) :
  noRawMarkup (escChar c ++ rest) = noRawMarkup rest.
Proof.
  destruct c as [[] [] [] [] [] [] [] []]; reflexivity.
Qed.

Lemma ampersands_escChar (c : ascii) (rest : string) :
  ampersandsStartEntities (escChar c ++ rest) = ampersandsStartEntities rest.
Proof.
  destruct c as [[] [] [] [] [] [] [] []]; reflexivity.
Qed.

Lemma unescapeXml_escapeXml (s : string) : unescapeXml (escapeXml s) = s.
Proof.
  induction s as [|c t IH]; [reflexivity|].
  now rewrite escapeXml_cons, unescapeXml_escChar, IH.
Qed.

Lemma escapeXml_noRawMarkup (s : string) : noRawMarkup (escapeXml s) = true.
Proof.
  induction s as [|c t IH]; [reflexivity|].
  now rewrite escapeXml_cons, noRawMarkup_escChar.
Qed.

Lemma escapeXml_ampersands (s : string) : ampersandsStartEntities (escapeXml s) = true.
Proof.
  induction s as [|c t IH]; [reflexivity|].
  now rewrite escapeXml_cons, ampersands_escChar.
Qed.

(** C10.  The output of [escapeXml] holds no raw [<], [>], double quote or
    apostrophe; every [&] in it begins one of the five entities; decoding the
    entities (with [&amp;] decoded last) gives the input back; hence
    [escapeXml] is injective. *)
Theorem escapeXml_roundtrip :
  forall s : string,
    noRawMarkup (escapeXml s) = true /\
    ampersandsStartEntities (escapeXml s) = true /\
    unescapeXml (escapeXml s) = s /\
    (forall s' : string, escapeXml s = escapeXml s' -> s = s').
Proof.
  intros s.
  split; [apply escapeXml_noRawMarkup|].
  split; [apply escapeXml_ampersands|].
  split; [apply unescapeXml_escapeXml|].
  intros s' H.
  rewrite <- (unescapeXml_escapeXml s), <- (unescapeXml_escapeXml s').
  now rewrite H.
Qed.

(** ** [slugify] *)

Lemma alnum_not_hyphen (c : ascii) : isLowerAlnum c = true -> Ascii.eqb c hyphen = false.
Proof.
  destruct c as [[] [] [] [] [] [] [] []]; cbv; congruence.
Qed.

Lemma dropLeading_runs_true (s : string) :
  dropLeadingHyphens (replaceNonAlnumRuns true s) = replaceNonAlnumRuns true s.
Proof.
  induction s as [|c t IH]; [reflexivity|].
  cbn [replaceNonAlnumRuns]. destruct (isLowerAlnum c) eqn:E; [|exact IH].
  cbn [dropLeadingHyphens]. now rewrite (alnum_not_hyphen c E).
Qed.

(** After the first replacement, stripping the leading hyphens amounts to
    never having emitted the hyphen of a leading run. *)
Lemma dropLeading_runs (s : string) :
  dropLeadingHyphens (replaceNonAlnumRuns false s) = replaceNonAlnumRuns true s.
Proof.
  destruct s as [|c t]; [reflexivity|].
  cbn [replaceNonAlnumRuns]. destruct (isLowerAlnum c) eqn:E.
  - cbn [dropLeadingHyphens]. now rewrite (alnum_not_hyphen c E).
  - cbn [dropLeadingHyphens]. change (Ascii.eqb hyphen hyphen) with true. cbv iota.
    apply dropLeading_runs_true.
Qed.

Lemma allHyphens_runs_true (s : string) :
  allHyphens (replaceNonAlnumRuns true s) =
  match alnumWords s with [] => true | _ :: _ => false end.
Proof.
  induction s as [|c t IH]; [reflexivity|].
  cbn [replaceNonAlnumRuns alnumWords]. destruct (isLowerAlnum c) eqn:E; [|exact IH].
  cbn [allHyphens]. rewrite (alnum_not_hyphen c E). cbn [andb].
  destruct (startsAlnum t); [|reflexivity].
  destruct (alnumWords t); reflexivity.
Qed.

Lemma concat_consToFirst (c : ascii) (w : string) (ws : list string) :
  String.concat "-" (consToFirst c (w :: ws)) = String c (String.concat "-" (w :: ws)).
Proof. destruct ws; reflexivity. Qed.

Lemma alnumWords_startsAlnum (s : string) :
  startsAlnum s = true -> exists w ws, alnumWords s = w :: ws.
Proof.
  destruct s as [|d u]; cbn [startsAlnum alnumWords]; [discriminate|].
  intros ->. destruct (startsAlnum u).
  - destruct (alnumWords u) as [|w ws]; cbn [consToFirst]; eauto.
  - eauto.
Qed.

(** Stripping the output of the first replacement leaves the words of the
    input joined by single hyphens. *)
Lemma dropTrailing_runs (s : string) :
  dropTrailingHyphens (replaceNonAlnumRuns true s) = String.concat "-" (alnumWords s).
Proof.
  induction s as [|c t IH]; [reflexivity|].
  cbn [replaceNonAlnumRuns alnumWords]. destruct (isLowerAlnum c) eqn:E; [|exact IH].
  cbn [dropTrailingHyphens allHyphens]. rewrite (alnum_not_hyphen c E). cbn [andb].
  destruct t as [|d u]; [reflexivity|].
  cbn [startsAlnum]. destruct (isLowerAlnum d) eqn:Ed.
  - assert (Hrun : replaceNonAlnumRuns false (String d u) = replaceNonAlnumRuns true (String d u))
      by (cbn [replaceNonAlnumRuns]; now rewrite Ed).
    rewrite Hrun, IH.
    destruct (alnumWords_startsAlnum (String d u)) as (w & ws & Hw); [exact Ed|].
    rewrite Hw. now rewrite concat_consToFirst.
  - assert (Hrun : replaceNonAlnumRuns false (String d u) = String hyphen (replaceNonAlnumRuns true u))
      by (cbn [replaceNonAlnumRuns]; now rewrite Ed).
    assert (Hrun' : replaceNonAlnumRuns true (String d u) = replaceNonAlnumRuns true u)
      by (cbn [replaceNonAlnumRuns]; now rewrite Ed).
    assert (Hw : alnumWords (String d u) = alnumWords u)
      by (cbn [alnumWords]; now rewrite Ed).
    rewrite Hrun', Hw in IH. rewrite Hrun, Hw.
    cbn [dropTrailingHyphens allHyphens]. change (Ascii.eqb hyphen hyphen) with true.
    cbn [andb]. rewrite allHyphens_runs_true, IH.
    destruct (alnumWords u) as [|w ws]; reflexivity.
Qed.

Lemma stripHyphens_runs (s : string) :
  stripHyphens (replaceNonAlnumRuns false s) = String.concat "-" (alnumWords s).
Proof. unfold stripHyphens. now rewrite dropLeading_runs, dropTrailing_runs. Qed.

Lemma alnumWords_valid (s : string) : forallb isAlnumWord (alnumWords s) = true.
Proof.
  induction s as [|c t IH]; [reflexivity|].
  cbn [alnumWords]. destruct (isLowerAlnum c) eqn:E; [|exact IH].
  destruct (startsAlnum t).
  - destruct (alnumWords t) as [|w ws]; cbn [consToFirst forallb] in *.
    + unfold isAlnumWord. cbn. now rewrite E.
    + apply andb_true_iff in IH. destruct IH as [Hw Hws]. rewrite Hws.
      unfold isAlnumWord in *. apply andb_true_iff in Hw. destruct Hw as [_ Hw].
      cbn. now rewrite E, Hw.
  - cbn [forallb]. rewrite IH. unfold isAlnumWord. cbn. now rewrite E.
Qed.

Lemma allChars_app (p : ascii -> bool) (a b : string) :
  allChars p (a ++ b) = allChars p a && allChars p b.
Proof.
  induction a as [|c a IH]; [reflexivity|].
  cbn [append allChars]. now rewrite IH, andb_assoc.
Qed.

Lemma allChars_weaken (p q : ascii -> bool) (s : string) :
  (forall c, p c = true -> q c = true) -> allChars p s = true -> allChars q s = true.
Proof.
  intros Hpq. induction s as [|c t IH]; [reflexivity|].
  cbn [allChars]. rewrite !andb_true_iff. intros [Hc Ht]. auto.
Qed.

Lemma concat_words_slugChars (ws : list string) :
  forallb isAlnumWord ws = true -> allChars isSlugChar (String.concat "-" ws) = true.
Proof.
  assert (Hword : forall w, isAlnumWord w = true -> allChars isSlugChar w = true).
  { intros w Hw. unfold isAlnumWord in Hw. apply andb_true_iff in Hw.
    apply (allChars_weaken isLowerAlnum); [|tauto].
    intros c Hc. unfold isSlugChar. now rewrite Hc. }
  induction ws as [|w ws IH]; [reflexivity|].
  cbn [forallb]. rewrite andb_true_iff. intros [Hw Hws].
  destruct ws as [|w' ws']; [now apply Hword|].
  change (String.concat "-" (w :: w' :: ws'))
    with (w ++ ("-" ++ String.concat "-" (w' :: ws')))%string.
  rewrite !allChars_app, (Hword w Hw), (IH Hws). reflexivity.
Qed.

Lemma substring0_allChars (p : ascii -> bool) (n : nat) (s : string) :
  allChars p s = true -> allChars p (substring0 n s) = true.
Proof.
  revert s. induction n as [|n IH]; intros [|c t]; try reflexivity.
  cbn [substring0 allChars]. rewrite !andb_true_iff. intros [Hc Ht]. auto.
Qed.

Lemma substring0_length (n : nat) (s : string) : (String.length (substring0 n s) <= n)%nat.
Proof.
  revert s. induction n as [|n IH]; intros [|c t]; cbn [substring0 String.length]; try lia.
  specialize (IH t). lia.
Qed.

Lemma slugify_words (toLowerCase : string -> string) (str : string) :
  slugify toLowerCase str =
  orElse (substring0 60 (String.concat "-" (alnumWords (toLowerCase str)))) "chapter".
Proof. unfold slugify. now rewrite stripHyphens_runs. Qed.


Example slugify_hello :
  slugify asciiLower "  Hello, World! (Part 2)  " = "hello-world-part-2"%string.
Proof. reflexivity. Qed.

Example slugify_symbols : slugify asciiLower "?!" = "chapter"%string.
Proof. reflexivity. Qed.

(** ** Bytes and little-endian fields *)

Lemma byteVal_byteOf (z : Z) : byteVal (byteOf z) = z mod 256.
Proof.
  unfold byteVal, byteOf.
  pose proof (Z.mod_pos_bound z 256) as H.
  rewrite N_ascii_embedding by lia.
  apply Z2N.id. lia.
Qed.

Lemma le16_value (v : Z) :
  byteVal (byteOf v) + 256 * byteVal (byteOf (v / 256)) = v mod 65536.
Proof.
  rewrite !byteVal_byteOf.
  change 65536 with (256 * 256).
  rewrite Z.rem_mul_r by lia. reflexivity.
Qed.

Lemma le32_value (v : Z) :
  byteVal (byteOf v) + 256 * byteVal (byteOf (v / 256))
  + 65536 * byteVal (byteOf (v / 65536)) + 16777216 * byteVal (byteOf (v / 16777216))
  = v mod 2 ^ 32.
Proof.
  rewrite !byteVal_byteOf.
  change (2 ^ 32) with (256 * (256 * (256 * 256))).
  rewrite !Z.rem_mul_r by lia.
  replace (v / 65536) with (v / 256 / 256) by (rewrite Z.div_div by lia; reflexivity).
  replace (v / 16777216) with (v / 256 / 256 / 256)
    by (rewrite !Z.div_div by lia; reflexivity).
  pose proof (Z.mod_pos_bound (v / 256 / 256 / 256) 256).
  lia.
Qed.

Lemma u16_range (v : Z) : u16 v = true <-> 0 <= v <= 65535.
Proof. unfold u16. rewrite andb_true_iff, Z.leb_le, Z.leb_le. tauto. Qed.

Lemma ushr0_mod (x : Z) : JS.ushr x 0 = x mod 2 ^ 32.
Proof. apply ushr_0. Qed.

Lemma fieldOk_ushr0 (x : Z) : fieldOk (U32 (JS.ushr x 0)) = true.
Proof.
  cbn [fieldOk]. rewrite ushr0_mod.
  pose proof (Z.mod_pos_bound x (2 ^ 32)).
  apply andb_true_iff. rewrite !Z.leb_le. lia.
Qed.

Lemma writeFields_spec (fs : list Field) :
  writeFields fs = if forallb fieldOk fs then Some (flat_map fieldBytes fs) else None.
Proof.
  induction fs as [|f r IH]; [reflexivity|].
  cbn [writeFields forallb flat_map]. rewrite IH.
  assert (Hf : writeField f = if fieldOk f then Some (fieldBytes f) else None)
    by (destruct f; reflexivity).
  rewrite Hf. destruct (fieldOk f), (forallb fieldOk r); reflexivity.
Qed.

(** ** Reading behind a prefix *)

Lemma skipn_prefix {A : Type} (pre rest : list A) (k : nat) :
  skipn (List.length pre + k) (pre ++ rest) = skipn k rest.
Proof.
  induction pre as [|a pre IH]; [reflexivity|]. exact IH.
Qed.

Lemma readUInt32LE_prefix (pre rest : Buffer) (k : nat) :
  readUInt32LE (pre ++ rest) (List.length pre + k) = readUInt32LE rest k.
Proof. unfold readUInt32LE. now rewrite skipn_prefix. Qed.

Lemma readUInt16LE_prefix (pre rest : Buffer) (k : nat) :
  readUInt16LE (pre ++ rest) (List.length pre + k) = readUInt16LE rest k.
Proof. unfold readUInt16LE. now rewrite skipn_prefix. Qed.

Lemma slice_prefix (pre rest : Buffer) (k n : nat) :
  slice (pre ++ rest) (List.length pre + k) n = slice rest k n.
Proof. unfold slice. now rewrite skipn_prefix. Qed.

Lemma slice_exact (a rest : Buffer) : slice (a ++ rest) 0 (List.length a) = Some a.
Proof.
  unfold slice. cbn [skipn].
  rewrite firstn_app, Nat.sub_diag, firstn_all. cbn [firstn]. rewrite app_nil_r.
  now rewrite Nat.eqb_refl.
Qed.

(** One more read of a header, behind the prefix and without it. *)
Ltac step_prefix :=
  rewrite ?readUInt32LE_prefix, ?readUInt16LE_prefix, ?slice_prefix;
  match goal with
  | |- bind ?m _ = bind ?m _ => destruct m; cbn [bind]
  end.

Lemma parseLocalHeader_prefix (pre rest : Buffer) :
  parseLocalHeader (pre ++ rest) (List.length pre) = parseLocalHeader rest 0.
Proof.
  unfold parseLocalHeader. rewrite !Nat.add_0_l.
  rewrite <- (Nat.add_0_r (List.length pre)) at 1.
  rewrite readUInt32LE_prefix.
  destruct (readUInt32LE rest 0) as [sig|]; [cbn [bind]|reflexivity].
  destruct (sig =? 67324752); [|reflexivity].
  repeat (step_prefix; [|reflexivity]).
  reflexivity.
Qed.

Lemma parseCentralHeader_prefix (pre rest : Buffer) :
  parseCentralHeader (pre ++ rest) (List.length pre) = parseCentralHeader rest 0.
Proof.
  unfold parseCentralHeader. rewrite !Nat.add_0_l.
  rewrite <- (Nat.add_0_r (List.length pre)) at 1.
  rewrite readUInt32LE_prefix.
  destruct (readUInt32LE rest 0) as [sig|]; [cbn [bind]|reflexivity].
  destruct (sig =? 33639248); [|reflexivity].
  repeat (step_prefix; [|reflexivity]).
  reflexivity.
Qed.

Lemma name_length (f : Entry.t) :
  validEntry f = true ->
  Z.to_nat (len (utf8 (Entry.name f)) mod 65536) = List.length (utf8 (Entry.name f)).
Proof.
  unfold validEntry. rewrite !andb_true_iff. intros [_ H]. apply u16_range in H.
  rewrite Z.mod_small by lia. unfold len. apply Nat2Z.id.
Qed.

(** The reader finds in a local header what [addFile] put there. *)
Lemma parseLocalHeader_localHeaderOf (f : Entry.t) (rest : Buffer) :
  validEntry f = true ->
  parseLocalHeader (localHeaderOf f ++ rest) 0 = Some (localOf f).
Proof.
  intros Hv. unfold parseLocalHeader, localHeaderOf.
  cbn [flat_map fieldBytes u16le u32le app].
  unfold readUInt32LE, readUInt16LE.
  cbn [Nat.add skipn le32 le16 bind].
  rewrite !le32_value, !le16_value.
  change (67324752 mod 2 ^ 32 =? 67324752) with true. cbv iota.
  unfold slice. cbn [Nat.add skipn].
  rewrite (name_length f Hv).
  rewrite <- ?app_assoc.
  rewrite firstn_app, Nat.sub_diag, firstn_all. cbn [firstn]. rewrite app_nil_r.
  rewrite Nat.eqb_refl. cbn [bind].
  rewrite !ushr0_mod, !Z.mod_mod by lia.
  reflexivity.
Qed.
Lemma parseCentralHeader_centralHeaderOf (f : Entry.t) (rest : Buffer) :
  validEntry f = true ->
  parseCentralHeader (centralHeaderOf f ++ rest) 0 = Some (centralOf f).
Proof.
  intros Hv. unfold parseCentralHeader, centralHeaderOf.
  cbn [flat_map fieldBytes u16le u32le app].
  unfold readUInt32LE, readUInt16LE.
  cbn [Nat.add skipn le32 le16 bind].
  rewrite !le32_value, !le16_value.
  change (33639248 mod 2 ^ 32 =? 33639248) with true. cbv iota.
  unfold slice. cbn [Nat.add skipn].
  rewrite (name_length f Hv).
  rewrite <- ?app_assoc.
  rewrite firstn_app, Nat.sub_diag, firstn_all. cbn [firstn]. rewrite app_nil_r.
  rewrite Nat.eqb_refl. cbn [bind].
  rewrite !ushr0_mod, !Z.mod_mod by lia.
  change (Z.to_nat (0 mod 65536)) with 0%nat. rewrite !Nat.add_0_r.
  reflexivity.
Qed.

Lemma len_app (a b : Buffer) : len (a ++ b) = len a + len b.
Proof. unfold len. rewrite length_app. lia. Qed.

Lemma len_nonneg (a : Buffer) : 0 <= len a.
Proof. unfold len. lia. Qed.

Lemma localHeaderOf_length (f : Entry.t) :
  List.length (localHeaderOf f) = (30 + List.length (utf8 (Entry.name f)))%nat.
Proof. unfold localHeaderOf. rewrite length_app. reflexivity. Qed.

Lemma centralHeaderOf_length (f : Entry.t) :
  List.length (centralHeaderOf f) = (46 + List.length (utf8 (Entry.name f)))%nat.
Proof. unfold centralHeaderOf. rewrite length_app. reflexivity. Qed.

Lemma localRecordOf_len (f : Entry.t) : 30 <= len (localRecordOf f).
Proof.
  unfold localRecordOf. rewrite len_app. unfold len at 1.
  rewrite localHeaderOf_length. pose proof (len_nonneg (Entry.comp f)). lia.
Qed.

(** ** [addFile] *)

Lemma localHeader_spec (method time date crc : Z) (comp buf nameBuf : Buffer) :
  ZipBuilder.localHeader method time date crc comp buf nameBuf =
  if u16 method && u16 time && u16 date && u16 (len nameBuf)
  then Some (flat_map fieldBytes
               [ U32 0x04034b50; U16 20; U16 0x0800; U16 method; U16 time; U16 date;
                 U32 (JS.ushr crc 0); U32 (JS.ushr (len comp) 0);
                 U32 (JS.ushr (len buf) 0); U16 (len nameBuf); U16 0 ] ++ nameBuf)
  else None.
Proof.
  unfold ZipBuilder.localHeader. rewrite writeFields_spec.
  cbn [forallb]. rewrite !fieldOk_ushr0. cbn [fieldOk].
  change (u16 20) with true. change (u16 ZipBuilder.UTF8_FLAG) with true.
  change (u16 0) with true.
  change ((0 <=? 67324752) && (67324752 <=? 4294967295)) with true.
  destruct (u16 method), (u16 time), (u16 date), (u16 (len nameBuf)); reflexivity.
Qed.

Lemma addFile_spec (deflate : Buffer -> Buffer) (now : Date) (this : ZipBuilder.t)
    (name : string) (data : Data) (opts : option AddOpts) :
  ZipBuilder.addFile deflate now this name data opts =
  if addFileOk now name opts then
    let e := entryOf deflate now (ZipBuilder.offset this) name data opts in
    Some (ZipBuilder.mk (ZipBuilder.files this ++ [e])
                        (ZipBuilder.chunks this ++ [localHeaderOf e; Entry.comp e])
                        (ZipBuilder.offset this + len (localHeaderOf e) + len (Entry.comp e)))
  else None.
Proof.
  unfold ZipBuilder.addFile, addFileOk, entryOf.
  destruct (msDosDateTime _) as [time date].
  rewrite localHeader_spec. cbn [fst snd].
  assert (Hm : forall b : bool, u16 (if b then 8 else 0) = true) by (intros []; reflexivity).
  rewrite Hm. cbn [andb].
  destruct (u16 time && u16 date && u16 (len (utf8 name))); reflexivity.
Qed.

Lemma entryOf_valid (deflate : Buffer -> Buffer) (now : Date) (o : Z)
    (name : string) (data : Data) (opts : option AddOpts) :
  addFileOk now name opts = true ->
  validEntry (entryOf deflate now o name data opts) = true.
Proof.
  unfold addFileOk, validEntry, entryOf. cbn [Entry.method Entry.time Entry.date Entry.name].
  intros H. rewrite !andb_true_iff in H. destruct H as [[-> ->] ->].
  destruct (match bind opts compress with Some false => false | _ => true end); reflexivity.
Qed.

Lemma offsetsFrom_snoc (fs : list Entry.t) (o o1 : Z) (f : Entry.t) :
  offsetsFrom o fs o1 -> Entry.offset f = o1 ->
  offsetsFrom o (fs ++ [f]) (o1 + len (localRecordOf f)).
Proof.
  revert o. induction fs as [|g fs IH]; intros o; cbn [offsetsFrom app].
  - intros -> ->. split; reflexivity.
  - intros [Hg Hfs] Hf. split; [exact Hg|]. now apply IH.
Qed.

Lemma addFile_inv (deflate : Buffer -> Buffer) (now : Date) (this this' : ZipBuilder.t)
    (name : string) (data : Data) (opts : option AddOpts) :
  BuilderInv this ->
  ZipBuilder.addFile deflate now this name data opts = Some this' ->
  BuilderInv this' /\
  ZipBuilder.files this' =
    ZipBuilder.files this ++ [entryOf deflate now (ZipBuilder.offset this) name data opts].
Proof.
  intros [Hc Ho Hv]. rewrite addFile_spec.
  destruct (addFileOk now name opts) eqn:Hok; [|discriminate].
  cbv zeta. intros [= <-]. split; [|reflexivity].
  constructor; cbn [ZipBuilder.files ZipBuilder.chunks ZipBuilder.offset].
  - rewrite flat_map_app, Hc. cbn [flat_map]. now rewrite app_nil_r.
  - rewrite <- Z.add_assoc, <- len_app. now apply offsetsFrom_snoc.
  - rewrite forallb_app, Hv. cbn [forallb]. now rewrite entryOf_valid.
Qed.

Lemma new_inv : BuilderInv ZipBuilder.new.
Proof. constructor; reflexivity. Qed.

Lemma addFiles_inv (deflate : Buffer -> Buffer) (calls : list Call) (zb zb' : ZipBuilder.t) :
  BuilderInv zb ->
  addFiles deflate calls zb = Some zb' ->
  BuilderInv zb' /\
  map Entry.name (ZipBuilder.files zb') =
    map Entry.name (ZipBuilder.files zb) ++ map callName calls.
Proof.
  revert zb. induction calls as [|c calls IH]; intros zb Hinv; cbn [addFiles map].
  - intros [= <-]. now rewrite app_nil_r.
  - destruct (ZipBuilder.addFile _ _ zb _ _ _) as [zb1|] eqn:Hadd; [cbn [bind]|discriminate].
    intros Hrest.
    destruct (addFile_inv _ _ _ _ _ _ _ Hinv Hadd) as [Hinv1 Hfiles].
    destruct (IH _ Hinv1 Hrest) as [Hinv' Hnames].
    split; [exact Hinv'|].
    rewrite Hnames, Hfiles, map_app. cbn [map]. now rewrite <- app_assoc.
Qed.

(** ** [build] *)

Lemma centralHeader_spec (f : Entry.t) :
  validEntry f = true -> ZipBuilder.centralHeader f = Some (centralHeaderOf f).
Proof.
  unfold validEntry. rewrite !andb_true_iff. intros [[[Hm Ht] Hd] Hn].
  unfold ZipBuilder.centralHeader. rewrite writeFields_spec.
  cbn [forallb]. rewrite !fieldOk_ushr0. cbn [fieldOk].
  rewrite Hm, Ht, Hd, Hn. reflexivity.
Qed.

Lemma centralHeaders_spec (fs : list Entry.t) :
  forallb validEntry fs = true ->
  ZipBuilder.centralHeaders fs = Some (map centralHeaderOf fs).
Proof.
  induction fs as [|f fs IH]; [reflexivity|].
  cbn [forallb]. rewrite andb_true_iff. intros [Hf Hfs].
  cbn [ZipBuilder.centralHeaders map]. now rewrite centralHeader_spec, IH.
Qed.

Lemma endRecord_spec (count centralSize centralStart : Z) :
  ZipBuilder.endRecord count centralSize centralStart =
  if u16 count
  then Some (flat_map fieldBytes
               [ U32 0x06054b50; U16 0; U16 0; U16 count; U16 count;
                 U32 (JS.ushr centralSize 0); U32 (JS.ushr centralStart 0); U16 0 ])
  else None.
Proof.
  unfold ZipBuilder.endRecord. rewrite writeFields_spec.
  cbn [forallb]. rewrite !fieldOk_ushr0. cbn [fieldOk].
  change (u16 0) with true.
  change ((0 <=? 101010256) && (101010256 <=? 4294967295)) with true.
  destruct (u16 count); reflexivity.
Qed.

Lemma concat_chunks (fs : list Entry.t) :
  List.concat (flat_map (fun f => [localHeaderOf f; Entry.comp f]) fs)
  = List.concat (map localRecordOf fs).
Proof.
  induction fs as [|f fs IH]; [reflexivity|].
  cbn [flat_map map List.concat app]. rewrite IH. unfold localRecordOf.
  now rewrite <- app_assoc.
Qed.

(** The buffer [build] returns: the local records, the central headers,
    the end record. *)
Lemma build_spec (zb zb' : ZipBuilder.t) (buf : Buffer) :
  BuilderInv zb ->
  ZipBuilder.build zb = (zb', Some buf) ->
  exists eocd,
    buf = List.concat (map localRecordOf (ZipBuilder.files zb))
          ++ List.concat (map centralHeaderOf (ZipBuilder.files zb)) ++ eocd
    /\ ZipBuilder.files zb' = ZipBuilder.files zb
    /\ ZipBuilder.offset zb = len (List.concat (map localRecordOf (ZipBuilder.files zb))).
Proof.
  intros [Hc Ho Hv]. unfold ZipBuilder.build.
  rewrite (centralHeaders_spec _ Hv).
  destruct (ZipBuilder.endRecord _ _ _) as [eocd|]; [|discriminate].
  cbn [ZipBuilder.files ZipBuilder.chunks ZipBuilder.offset].
  intros [= <- <-]. exists eocd.
  split; [|split].
  - rewrite !concat_app, Hc, concat_chunks. cbn [List.concat].
    now rewrite app_nil_r, <- app_assoc.
  - reflexivity.
  - clear Hc Hv.
    assert (H : forall fs o o', offsetsFrom o fs o' ->
              o' = o + len (List.concat (map localRecordOf fs))).
    { induction fs as [|f fs IH]; intros o o'; cbn [offsetsFrom map List.concat].
      - intros ->. cbn. lia.
      - intros [_ Hfs]. rewrite (IH _ _ Hfs), len_app. lia. }
    now rewrite (H _ _ _ Ho).
Qed.
(** ** The reader's view of a built archive *)

Lemma readCentralDirectory_spec (fs : list Entry.t) (pre post : Buffer) :
  forallb validEntry fs = true ->
  readCentralDirectory (pre ++ List.concat (map centralHeaderOf fs) ++ post)
                       (List.length pre) (List.length fs)
  = Some (map centralOf fs).
Proof.
  revert pre. induction fs as [|f fs IH]; intros pre; [reflexivity|].
  cbn [forallb]. rewrite andb_true_iff. intros [Hf Hfs].
  cbn [map List.concat List.length readCentralDirectory].
  rewrite parseCentralHeader_prefix, <- !app_assoc.
  rewrite (parseCentralHeader_centralHeaderOf f _ Hf). cbn [bind].
  assert (Hlen : (List.length pre + ch_length (centralOf f))%nat
                 = List.length (pre ++ centralHeaderOf f))
    by (rewrite length_app, centralHeaderOf_length; reflexivity).
  rewrite Hlen, (app_assoc pre), (IH _ Hfs). reflexivity.
Qed.

Lemma offsetsFrom_le (fs : list Entry.t) (o o' : Z) : offsetsFrom o fs o' -> o <= o'.
Proof.
  revert o. induction fs as [|f fs IH]; intros o; cbn [offsetsFrom].
  - intros ->. lia.
  - intros [_ H]. specialize (IH _ H). pose proof (localRecordOf_len f). lia.
Qed.

Lemma offsetsFrom_split (pre post : list Entry.t) (f : Entry.t) (o o' : Z) :
  offsetsFrom o (pre ++ f :: post) o' ->
  Entry.offset f = o + len (List.concat (map localRecordOf pre))
  /\ Entry.offset f + len (localRecordOf f) <= o'.
Proof.
  revert o. induction pre as [|g pre IH]; intros o; cbn [app offsetsFrom map List.concat].
  - intros [Hf Hpost]. apply offsetsFrom_le in Hpost. change (len []) with 0. lia.
  - intros [_ H]. destruct (IH _ H) as [Hoff Hle]. rewrite len_app. lia.
Qed.

Lemma bufferEqb_refl (b : Buffer) : bufferEqb b b = true.
Proof. unfold bufferEqb. apply String.eqb_refl. Qed.

(** In a built archive, the local header of an entry is found at the
    entry's true offset. *)
Lemma parseLocalHeader_entry (pre post : list Entry.t) (f : Entry.t) (rest : Buffer) :
  validEntry f = true ->
  parseLocalHeader (List.concat (map localRecordOf (pre ++ f :: post)) ++ rest)
                   (List.length (List.concat (map localRecordOf pre)))
  = Some (localOf f).
Proof.
  intros Hv. rewrite map_app, concat_app. cbn [map List.concat].
  rewrite <- !app_assoc, parseLocalHeader_prefix.
  unfold localRecordOf at 1. rewrite <- !app_assoc.
  now apply parseLocalHeader_localHeaderOf.
Qed.

Lemma headersAgree_entry (pre post : list Entry.t) (f : Entry.t) (rest : Buffer) (o' : Z) :
  validEntry f = true ->
  offsetsFrom 0 (pre ++ f :: post) o' ->
  o' <= 2 ^ 32 ->
  headersAgree (List.concat (map localRecordOf (pre ++ f :: post)) ++ rest) (centralOf f) = true.
Proof.
  intros Hv Ho Hmax. destruct (offsetsFrom_split _ _ _ _ _ Ho) as [Hoff Hle].
  pose proof (localRecordOf_len f) as H30.
  pose proof (len_nonneg (List.concat (map localRecordOf pre))) as Hpos.
  unfold headersAgree. cbn [ch_offset centralOf].
  rewrite Z.mod_small by lia.
  rewrite Hoff, Z.add_0_l. unfold len. rewrite Nat2Z.id.
  rewrite (parseLocalHeader_entry _ _ _ _ Hv).
  cbn [lh_name lh_crc lh_compSize lh_uncompSize localOf
       ch_name ch_crc ch_compSize ch_uncompSize centralOf].
  now rewrite bufferEqb_refl, !Z.eqb_refl.
Qed.

Lemma increasing_offsets (fs : list Entry.t) (o o' : Z) :
  0 <= o -> offsetsFrom o fs o' -> o' <= 2 ^ 32 ->
  increasing (map ch_offset (map centralOf fs)) = true.
Proof.
  revert o. induction fs as [|f fs IH]; intros o Ho; [reflexivity|].
  destruct fs as [|g fs]; [reflexivity|].
  intros Hfs Hmax.
  change (increasing (map ch_offset (map centralOf (f :: g :: fs))))
    with ((ch_offset (centralOf f) <? ch_offset (centralOf g))
          && increasing (map ch_offset (map centralOf (g :: fs)))).
  destruct Hfs as [Hf Hgs].
  pose proof (localRecordOf_len f) as Hf30.
  rewrite (IH (o + len (localRecordOf f))) by (try assumption; lia).
  destruct Hgs as [Hg Hrest]. apply offsetsFrom_le in Hrest.
  pose proof (localRecordOf_len g) as Hg30.
  cbn [ch_offset centralOf]. rewrite !Z.mod_small by lia.
  rewrite andb_true_r. apply Z.ltb_lt. lia.
Qed.

(** C1.  For every archive whose local-entry region is at most 2^32 bytes
    long: the central directory, read where [build] starts it, lists the
    names of the [addFile] calls in their order; the local-header offsets it
    records grow strictly in that order; and at the offset each central
    header records stands a local file header with the same name, crc,
    compressed size and uncompressed size. *)
Theorem zip_headers_consistent :
  forall (deflate : Buffer -> Buffer) (calls : list Call)
         (zb zb' : ZipBuilder.t) (buf : Buffer),
    addFiles deflate calls ZipBuilder.new = Some zb ->
    ZipBuilder.build zb = (zb', Some buf) ->
    ZipBuilder.offset zb <= 2 ^ 32 ->
    exists centrals : list CentralHeader,
      readCentralDirectory buf (Z.to_nat (ZipBuilder.offset zb)) (List.length calls)
        = Some centrals /\
      map ch_name centrals = map (fun c => utf8 (callName c)) calls /\
      increasing (map ch_offset centrals) = true /\
      forallb (headersAgree buf) centrals = true.
Proof.
  intros deflate calls zb zb' buf Hadd Hbuild Hmax.
  destruct (addFiles_inv _ _ _ _ new_inv Hadd) as [Hinv Hnames].
  cbn [ZipBuilder.files ZipBuilder.new map app] in Hnames.
  destruct (build_spec _ _ _ Hinv Hbuild) as (eocd & -> & _ & Hoff).
  destruct Hinv as [_ Ho Hv].
  exists (map centralOf (ZipBuilder.files zb)).
  assert (Hlen : List.length calls = List.length (ZipBuilder.files zb)).
  { rewrite <- (length_map callName), <- Hnames. now rewrite length_map. }
  split; [|split; [|split]].
  - rewrite Hoff, Hlen. unfold len. rewrite Nat2Z.id.
    now apply readCentralDirectory_spec.
  - rewrite <- (map_map callName utf8), <- Hnames, !map_map. reflexivity.
  - apply (increasing_offsets _ 0 (ZipBuilder.offset zb)); [lia|assumption|assumption].
  - apply forallb_forall. intros ch Hch.
    apply in_map_iff in Hch. destruct Hch as (f & <- & Hf).
    destruct (in_split _ _ Hf) as (pre & post & Hsplit).
    rewrite Hsplit in Ho, Hv |- *.
    apply (headersAgree_entry pre post f _ (ZipBuilder.offset zb)); try assumption.
    rewrite forallb_app in Hv. apply andb_true_iff in Hv. destruct Hv as [_ Hv].
    cbn [forallb] in Hv. apply andb_true_iff in Hv. tauto.
Qed.

(** C1, witness: the archive of [sampleCalls]. *)
Lemma zip_headers_consistent_witness :
  exists (zb zb' : ZipBuilder.t) (buf : Buffer),
    addFiles deflateStored sampleCalls ZipBuilder.new = Some zb /\
    ZipBuilder.build zb = (zb', Some buf) /\
    ZipBuilder.offset zb <= 2 ^ 32 /\
    exists centrals : list CentralHeader,
      readCentralDirectory buf (Z.to_nat (ZipBuilder.offset zb)) (List.length sampleCalls)
        = Some centrals /\
      map ch_name centrals = map (fun c => utf8 (callName c)) sampleCalls /\
      increasing (map ch_offset centrals) = true /\
      forallb (headersAgree buf) centrals = true.
Proof.
  destruct (addFiles deflateStored sampleCalls ZipBuilder.new) as [zb|] eqn:Hadd;
    [|vm_compute in Hadd; discriminate].
  destruct (ZipBuilder.build zb) as [zb' [buf|]] eqn:Hbuild.
  - assert (Hmax : ZipBuilder.offset zb <= 2 ^ 32).
    { vm_compute in Hadd. injection Hadd as <-. vm_compute. discriminate. }
    exists zb, zb', buf.
    split; [reflexivity|]. split; [exact Hbuild|]. split; [exact Hmax|].
    exact (zip_headers_consistent deflateStored sampleCalls zb zb' buf Hadd Hbuild Hmax).
  - exfalso. vm_compute in Hadd. injection Hadd as <-. vm_compute in Hbuild. discriminate.
Defined.

(** ** No size is ever checked *)

Lemma localRecordOf_len_eq (f : Entry.t) :
  len (localRecordOf f) = 30 + len (utf8 (Entry.name f)) + len (Entry.comp f).
Proof.
  unfold localRecordOf. rewrite len_app. unfold len at 1.
  rewrite localHeaderOf_length, Nat2Z.inj_add. reflexivity.
Qed.

(** A sequence of calls succeeds exactly when every call passes the 16-bit
    checks, and then records the entries of [entriesFrom]. *)
Lemma addFiles_spec (deflate : Buffer -> Buffer) (calls : list Call) (zb : ZipBuilder.t) :
  addFiles deflate calls zb =
  if forallb callOk calls then
    let es := entriesFrom deflate (ZipBuilder.offset zb) calls in
    Some (ZipBuilder.mk
            (ZipBuilder.files zb ++ es)
            (ZipBuilder.chunks zb ++ flat_map (fun f => [localHeaderOf f; Entry.comp f]) es)
            (ZipBuilder.offset zb + len (List.concat (map localRecordOf es))))
  else None.
Proof.
  revert zb. induction calls as [|c calls IH]; intros zb.
  - cbn [addFiles forallb entriesFrom flat_map map List.concat]. cbv zeta.
    change (len []) with 0.
    rewrite !app_nil_r, Z.add_0_r. now destruct zb.
  - cbn [addFiles forallb entriesFrom]. rewrite addFile_spec.
    unfold callOk at 1.
    destruct (addFileOk (callNow c) (callName c) (callOpts c)); [|reflexivity].
    cbv zeta. cbn [bind andb]. rewrite IH.
    destruct (forallb callOk calls); [|reflexivity].
    cbv zeta. cbn [ZipBuilder.files ZipBuilder.chunks ZipBuilder.offset].
    cbn [flat_map map List.concat].
    rewrite <- !app_assoc. cbn [app].
    set (e := entryOf deflate (callNow c) (ZipBuilder.offset zb)
                      (callName c) (callData c) (callOpts c)).
    assert (Hrec : len (localRecordOf e) = len (localHeaderOf e) + len (Entry.comp e))
      by (unfold localRecordOf; apply len_app).
    rewrite len_app, !Hrec, !Z.add_assoc. reflexivity.
Qed.

Lemma build_result (zb : ZipBuilder.t) :
  BuilderInv zb ->
  isSome (snd (ZipBuilder.build zb)) = (len_files zb <=? 65535).
Proof.
  intros [_ _ Hv]. unfold ZipBuilder.build, len_files.
  rewrite (centralHeaders_spec _ Hv), endRecord_spec.
  assert (Hu : u16 (Z.of_nat (List.length (ZipBuilder.files zb)))
               = (Z.of_nat (List.length (ZipBuilder.files zb)) <=? 65535)).
  { unfold u16. replace (0 <=? Z.of_nat _) with true; [reflexivity|].
    symmetry. apply Z.leb_le. lia. }
  rewrite Hu. destruct (_ <=? _); reflexivity.
Qed.

Lemma build_ok (zb : ZipBuilder.t) :
  BuilderInv zb ->
  len_files zb <= 65535 ->
  exists zb' buf, ZipBuilder.build zb = (zb', Some buf).
Proof.
  intros Hinv Hn. pose proof (build_result zb Hinv) as H.
  apply Z.leb_le in Hn. rewrite Hn in H.
  destruct (ZipBuilder.build zb) as [zb' [buf|]]; [eauto|discriminate].
Qed.
(** The run on [bigCalls n], for any [n]: nothing throws, whatever the
    size. *)
Lemma bigCalls_run (deflate : Buffer -> Buffer) (n : nat) :
  exists zb zb' buf eocd,
    addFiles deflate (bigCalls n) ZipBuilder.new = Some zb /\
    ZipBuilder.build zb = (zb', Some buf) /\
    ZipBuilder.files zb = bigEntries deflate n /\
    ZipBuilder.offset zb = 93 + Z.of_nat n /\
    ZipBuilder.offset zb = len (List.concat (map localRecordOf (bigEntries deflate n))) /\
    forallb validEntry (bigEntries deflate n) = true /\
    buf = List.concat (map localRecordOf (bigEntries deflate n))
          ++ List.concat (map centralHeaderOf (bigEntries deflate n)) ++ eocd.
Proof.
  assert (Hok : forallb callOk (bigCalls n) = true) by reflexivity.
  pose (es := entriesFrom deflate 0 (bigCalls n)).
  pose (zb := ZipBuilder.mk
                es
                (flat_map (fun f => [localHeaderOf f; Entry.comp f]) es)
                (0 + len (List.concat (map localRecordOf es)))).
  assert (Hadd : addFiles deflate (bigCalls n) ZipBuilder.new = Some zb).
  { rewrite addFiles_spec, Hok. reflexivity. }
  destruct (addFiles_inv _ _ _ _ new_inv Hadd) as [Hinv _].
  assert (Hlen : forall o name b,
             len (localRecordOf (entryOf deflate sampleDate o name (DataBuffer b) storedOpts))
             = 30 + len (utf8 name) + len b).
  { intros o name b. rewrite localRecordOf_len_eq. reflexivity. }
  assert (Hes : es = bigEntries deflate n).
  { unfold es, bigCalls, bigEntries.
    cbn [entriesFrom callName callData callOpts callNow].
    rewrite !Hlen.
    change (len (utf8 "a")) with 1. change (len (utf8 "b")) with 1.
    change (len []) with 0. unfold len. rewrite repeat_length.
    replace (0 + (30 + 1 + 0)) with 31 by lia.
    replace (31 + (30 + 1 + Z.of_nat n)) with (62 + Z.of_nat n) by lia.
    reflexivity. }
  assert (Hoff : len (List.concat (map localRecordOf (bigEntries deflate n))) = 93 + Z.of_nat n).
  { unfold bigEntries. cbn [map List.concat].
    rewrite !len_app, !Hlen.
    change (len (utf8 "a")) with 1. change (len (utf8 "b")) with 1.
    change (len (utf8 "c")) with 1.
    change (len []) with 0. unfold len. rewrite repeat_length. lia. }
  destruct (build_ok zb Hinv) as (zb' & buf & Hbuild).
  { unfold len_files. cbn [ZipBuilder.files zb]. rewrite Hes.
    unfold bigEntries. cbn [List.length]. lia. }
  destruct (build_spec _ _ _ Hinv Hbuild) as (eocd & Hbuf & _ & Hcur).
  destruct Hinv as [_ _ Hv].
  cbn [ZipBuilder.files zb] in Hbuf, Hcur, Hv. rewrite Hes in Hbuf, Hcur, Hv.
  exists zb, zb', buf, eocd.
  split; [exact Hadd|]. split; [exact Hbuild|]. split; [exact Hes|].
  split; [now rewrite Hcur|]. split; [exact Hcur|]. split; [exact Hv|exact Hbuf].
Qed.

(** When [b] carries 2^32 - 62 bytes, the entry [c] starts at 2^32; its
    central header records offset 0, where the local header of [a] stands. *)
Lemma bigCalls_wrap (deflate : Buffer -> Buffer) (n : nat) :
  Z.of_nat n = 4294967234 ->
  exists zb zb' buf ca cb cc lh,
    addFiles deflate (bigCalls n) ZipBuilder.new = Some zb /\
    ZipBuilder.build zb = (zb', Some buf) /\
    ZipBuilder.offset zb = 4294967327 /\
    map Entry.offset (ZipBuilder.files zb) = [0; 31; 4294967296] /\
    readCentralDirectory buf (Z.to_nat (ZipBuilder.offset zb)) 3 = Some [ca; cb; cc] /\
    ch_name cc = utf8 "c" /\
    ch_offset cc = 0 /\
    parseLocalHeader buf (Z.to_nat (ch_offset cc)) = Some lh /\
    lh_name lh = utf8 "a" /\
    headersAgree buf cc = false.
Proof.
  intros Hn.
  destruct (bigCalls_run deflate n)
    as (zb & zb' & buf & eocd & Hadd & Hbuild & Hfiles & Hoff & Hcur & Hv & Hbuf).
  set (es := bigEntries deflate n) in *.
  set (ec := entryOf deflate sampleDate (62 + Z.of_nat n) "c" (DataBuffer []) storedOpts).
  assert (Hcoff : ch_offset (centralOf ec) = 0).
  { cbn [ch_offset centralOf]. unfold ec. cbn [Entry.offset entryOf].
    rewrite Hn. reflexivity. }
  assert (Hparse : parseLocalHeader buf 0
                   = Some (localOf (entryOf deflate sampleDate 0 "a" (DataBuffer []) storedOpts))).
  { rewrite Hbuf. unfold es, bigEntries.
    apply (parseLocalHeader_entry [] _ _ _). reflexivity. }
  exists zb, zb', buf.
  exists (centralOf (entryOf deflate sampleDate 0 "a" (DataBuffer []) storedOpts)).
  exists (centralOf (entryOf deflate sampleDate 31 "b" (DataBuffer (repeat zero n)) storedOpts)).
  exists (centralOf ec).
  exists (localOf (entryOf deflate sampleDate 0 "a" (DataBuffer []) storedOpts)).
  split; [exact Hadd|]. split; [exact Hbuild|].
  split; [rewrite Hoff, Hn; reflexivity|].
  split; [rewrite Hfiles; unfold es, bigEntries; cbn [map Entry.offset entryOf];
          rewrite Hn; reflexivity|].
  split.
  { rewrite Hcur. unfold len. rewrite Nat2Z.id. rewrite Hbuf.
    apply (readCentralDirectory_spec es _ eocd Hv). }
  split; [reflexivity|]. split; [exact Hcoff|].
  rewrite Hcoff. change (Z.to_nat 0) with 0%nat.
  split; [exact Hparse|]. split; [reflexivity|].
  unfold headersAgree. rewrite Hcoff. change (Z.to_nat 0) with 0%nat.
  rewrite Hparse. reflexivity.
Qed.

(** C1, counterexample.  Three stored entries, the second of 2^32 - 62
    bytes: the central header of the third records offset 0, and the local
    header found there is the one of the first entry, with another name. *)
Lemma zip_offset_wraps :
  exists (zb zb' : ZipBuilder.t) (buf : Buffer) (ca cb cc : CentralHeader)
         (lh : LocalHeader),
    addFiles deflateStored (bigCalls (Z.to_nat 4294967234)) ZipBuilder.new = Some zb /\
    ZipBuilder.build zb = (zb', Some buf) /\
    readCentralDirectory buf (Z.to_nat (ZipBuilder.offset zb)) 3 = Some [ca; cb; cc] /\
    ch_name cc = utf8 "c" /\
    ch_offset cc = 0 /\
    parseLocalHeader buf (Z.to_nat (ch_offset cc)) = Some lh /\
    lh_name lh = utf8 "a" /\
    headersAgree buf cc = false.
Proof.
  assert (Hn : Z.of_nat (Z.to_nat 4294967234) = 4294967234)
    by (apply Z2Nat.id; discriminate).
  destruct (bigCalls_wrap deflateStored _ Hn)
    as (zb & zb' & buf & ca & cb & cc & lh & H1 & H2 & _ & _ & H3 & H4 & H5 & H6 & H7 & H8).
  exists zb, zb', buf, ca, cb, cc, lh.
  exact (conj H1 (conj H2 (conj H3 (conj H4 (conj H5 (conj H6 (conj H7 H8))))))).
Qed.

(** C2, counterexample.  The same three calls pass [addFile] and [build]
    without an exception, although the cursor goes beyond 2^32 - 1 and the
    third entry starts at 2^32. *)
Lemma zip_accepts_overflow :
  exists (zb zb' : ZipBuilder.t) (buf : Buffer),
    addFiles deflateStored (bigCalls (Z.to_nat 4294967234)) ZipBuilder.new = Some zb /\
    ZipBuilder.offset zb = 4294967327 /\
    map Entry.offset (ZipBuilder.files zb) = [0; 31; 4294967296] /\
    ZipBuilder.build zb = (zb', Some buf).
Proof.
  assert (Hn : Z.of_nat (Z.to_nat 4294967234) = 4294967234)
    by (apply Z2Nat.id; discriminate).
  destruct (bigCalls_wrap deflateStored _ Hn)
    as (zb & zb' & buf & _ & _ & _ & _ & H1 & H2 & H3 & H4 & _).
  exists zb, zb', buf.
  exact (conj H1 (conj H3 (conj H4 H2))).
Qed.
Lemma addFiles_length (deflate : Buffer -> Buffer) (calls : list Call) (zb : ZipBuilder.t) :
  addFiles deflate calls ZipBuilder.new = Some zb ->
  List.length (ZipBuilder.files zb) = List.length calls.
Proof.
  intros Hadd. destruct (addFiles_inv _ _ _ _ new_inv Hadd) as [_ Hnames].
  cbn [ZipBuilder.files ZipBuilder.new map app] in Hnames.
  rewrite <- (length_map Entry.name), Hnames. apply length_map.
Qed.

(** C2.  The builder checks no size.  [addFile] throws exactly when the DOS
    time or date does not fit 16 bits or the UTF-8 name is longer than 65535
    bytes; [build] throws exactly when there are more than 65535 entries.
    Whatever the sizes, each central header holds the entry's crc, sizes and
    offset modulo 2^32, and the local header written at the entry's true
    offset holds its crc and sizes modulo 2^32. *)
Theorem zip_no_size_check :
  (forall (deflate : Buffer -> Buffer) (now : Date) (zb : ZipBuilder.t)
          (name : string) (data : Data) (opts : option AddOpts),
      isSome (ZipBuilder.addFile deflate now zb name data opts) = addFileOk now name opts) /\
  (forall (deflate : Buffer -> Buffer) (calls : list Call) (zb : ZipBuilder.t),
      addFiles deflate calls ZipBuilder.new = Some zb ->
      isSome (snd (ZipBuilder.build zb)) = (Z.of_nat (List.length calls) <=? 65535)) /\
  (forall (deflate : Buffer -> Buffer) (calls : list Call)
          (zb zb' : ZipBuilder.t) (buf : Buffer),
      addFiles deflate calls ZipBuilder.new = Some zb ->
      ZipBuilder.build zb = (zb', Some buf) ->
      readCentralDirectory buf (Z.to_nat (ZipBuilder.offset zb)) (List.length calls)
        = Some (map centralOf (ZipBuilder.files zb)) /\
      forall f : Entry.t,
        In f (ZipBuilder.files zb) ->
        parseLocalHeader buf (Z.to_nat (Entry.offset f)) = Some (localOf f)).
Proof.
  split; [|split].
  - intros deflate now zb name data opts. rewrite addFile_spec.
    destruct (addFileOk now name opts); cbv zeta; cbn [isSome]; reflexivity.
  - intros deflate calls zb Hadd.
    destruct (addFiles_inv _ _ _ _ new_inv Hadd) as [Hinv _].
    rewrite (build_result zb Hinv). unfold len_files.
    now rewrite (addFiles_length _ _ _ Hadd).
  - intros deflate calls zb zb' buf Hadd Hbuild.
    destruct (addFiles_inv _ _ _ _ new_inv Hadd) as [Hinv _].
    destruct (build_spec _ _ _ Hinv Hbuild) as (eocd & -> & _ & Hoff).
    destruct Hinv as [_ Ho Hv].
    split.
    + rewrite Hoff, <- (addFiles_length _ _ _ Hadd). unfold len. rewrite Nat2Z.id.
      now apply readCentralDirectory_spec.
    + intros f Hf. destruct (in_split _ _ Hf) as (pre & post & Hsplit).
      rewrite Hsplit in Ho, Hv |- *.
      destruct (offsetsFrom_split _ _ _ _ _ Ho) as [Hfo _].
      rewrite Hfo, Z.add_0_l. unfold len. rewrite Nat2Z.id.
      apply parseLocalHeader_entry.
      rewrite forallb_app in Hv. apply andb_true_iff in Hv. destruct Hv as [_ Hv].
      cbn [forallb] in Hv. apply andb_true_iff in Hv. tauto.
Qed.

(** ** [build] does not seal the builder *)

Lemma build_files (zb : ZipBuilder.t) :
  ZipBuilder.files (fst (ZipBuilder.build zb)) = ZipBuilder.files zb.
Proof.
  unfold ZipBuilder.build.
  destruct (ZipBuilder.centralHeaders _); [|reflexivity].
  destruct (ZipBuilder.endRecord _ _ _); reflexivity.
Qed.

Lemma build_offset (zb : ZipBuilder.t) :
  ZipBuilder.offset zb <= ZipBuilder.offset (fst (ZipBuilder.build zb)).
Proof.
  unfold ZipBuilder.build.
  destruct (ZipBuilder.centralHeaders _) as [central|]; [|cbn; lia].
  pose proof (len_nonneg (List.concat central)).
  destruct (ZipBuilder.endRecord _ _ _) as [eocd|];
    cbn [fst ZipBuilder.offset]; [pose proof (len_nonneg eocd)|]; lia.
Qed.

(** C3.  [build] leaves the builder usable: it keeps [files], only moves
    the cursor forward, and a later [addFile] succeeds under the same
    condition as before [build], appending its entry to [files] at the new
    cursor and its header and payload behind everything [build] pushed. *)
Theorem build_not_terminal :
  forall (deflate : Buffer -> Buffer) (now : Date) (zb : ZipBuilder.t)
         (name : string) (data : Data) (opts : option AddOpts),
    let zb' := fst (ZipBuilder.build zb) in
    ZipBuilder.files zb' = ZipBuilder.files zb /\
    ZipBuilder.offset zb <= ZipBuilder.offset zb' /\
    isSome (ZipBuilder.addFile deflate now zb' name data opts)
      = isSome (ZipBuilder.addFile deflate now zb name data opts) /\
    ZipBuilder.addFile deflate now zb' name data opts =
      (if addFileOk now name opts then
         let e := entryOf deflate now (ZipBuilder.offset zb') name data opts in
         Some (ZipBuilder.mk
                 (ZipBuilder.files zb ++ [e])
                 (ZipBuilder.chunks zb' ++ [localHeaderOf e; Entry.comp e])
                 (ZipBuilder.offset zb' + len (localHeaderOf e) + len (Entry.comp e)))
       else None).
Proof.
  intros deflate now zb name data opts zb'.
  split; [apply build_files|]. split; [apply build_offset|].
  rewrite !addFile_spec. unfold zb'. rewrite build_files.
  split; [destruct (addFileOk now name opts); cbv zeta; cbn [isSome]; reflexivity|reflexivity].
Qed.

(** C3, counterexample.  After [build] has returned the archive of
    [sampleCalls], a third [addFile] on the same builder is accepted. *)
Lemma addFile_after_build :
  exists (zb zb' zb2 : ZipBuilder.t) (buf : Buffer),
    addFiles deflateStored sampleCalls ZipBuilder.new = Some zb /\
    ZipBuilder.build zb = (zb', Some buf) /\
    ZipBuilder.addFile deflateStored sampleDate zb' "late.txt" (DataString "x") None
      = Some zb2 /\
    map Entry.name (ZipBuilder.files zb2) = ["mimetype"; "OEBPS/a.txt"; "late.txt"]%string.
Proof.
  eexists. eexists. eexists. eexists.
  split; [vm_compute; reflexivity|].
  split; [vm_compute; reflexivity|].
  split; [vm_compute; reflexivity|].
  vm_compute. reflexivity.
Qed.

(** ** The chapter splitter *)

Lemma nth_error_mapiFrom {A B : Type} (f : nat -> A -> B) (l : list A) (i k : nat) :
  nth_error (mapiFrom i f l) k = option_map (f (i + k)%nat) (nth_error l k).
Proof.
  revert i k. induction l as [|a l IH]; intros i k.
  - destruct k; reflexivity.
  - destruct k as [|k]; cbn [mapiFrom nth_error option_map].
    + now rewrite Nat.add_0_r.
    + rewrite IH. now rewrite Nat.add_succ_comm.
Qed.

Lemma length_mapiFrom {A B : Type} (f : nat -> A -> B) (l : list A) (i : nat) :
  List.length (mapiFrom i f l) = List.length l.
Proof.
  revert i. induction l as [|a l IH]; intros i; cbn [mapiFrom List.length]; [reflexivity|].
  now rewrite IH.
Qed.

(** The loop that pushes one chapter per heading builds the list of
    [chapterOf], in the order of the selection. *)
Lemma eachFrom_pushChapter (outerHtml : Node -> string)
    (sel : list (Node * list Node)) (i : nat) (acc : list Chapter) :
  eachFrom (pushChapter outerHtml) i sel acc = acc ++ mapiFrom i (chapterOf outerHtml) sel.
Proof.
  revert i acc. induction sel as [|[el next] sel IH]; intros i acc; cbn [eachFrom mapiFrom].
  - now rewrite app_nil_r.
  - rewrite IH. unfold pushChapter, chapterOf. cbn [fst snd].
    now rewrite <- app_assoc.
Qed.

Lemma extract_chapters (loadHtml : string -> list Node) (outerHtml innerHtml : Node -> string)
    (html : string) :
  fst (extractChaptersAndCss loadHtml outerHtml innerHtml html) =
  match select isChapterHeading (loadHtml (wrapRoot html)) with
  | [] => [mkChapter "Chapter 1" html]
  | sel => mapi (chapterOf outerHtml) sel
  end.
Proof.
  unfold extractChaptersAndCss. cbn [fst].
  rewrite eachFrom_pushChapter. cbn [app].
  destruct (select isChapterHeading (loadHtml (wrapRoot html))) as [|s sel]; reflexivity.
Qed.

(** The selection only holds elements the predicate accepts. *)
Lemma selectNode_sound (p : Node -> bool) (n : Node) :
  forall next, Forall (fun s => p (fst s) = true) (selectNode p n next).
Proof.
  induction n as [tag attribs cs IH|d|d] using Node_induction; intros next;
    cbn [selectNode]; try constructor.
  apply Forall_app. split.
  - destruct (p (Element tag attribs cs)) eqn:Hp; constructor; [exact Hp|constructor].
  - induction IH as [|c r Hc _ IHr]; [constructor|].
    apply Forall_app. split; [apply Hc|exact IHr].
Qed.

Lemma select_sound (p : Node -> bool) (nodes : list Node) :
  Forall (fun s => p (fst s) = true) (select p nodes).
Proof.
  induction nodes as [|n r IH]; cbn [select]; [constructor|].
  apply Forall_app. split; [apply selectNode_sound|exact IH].
Qed.

Lemma takeWhile_all {A : Type} (p : A -> bool) (l : list A) :
  Forall (fun a => p a = true) (takeWhile p l).
Proof.
  induction l as [|a l IH]; cbn [takeWhile]; [constructor|].
  destruct (p a) eqn:Hp; constructor; assumption.
Qed.

Lemma takeWhile_incl {A : Type} (p : A -> bool) (l : list A) (a : A) :
  In a (takeWhile p l) -> In a l.
Proof.
  induction l as [|b l IH]; cbn [takeWhile]; [tauto|].
  destruct (p b); cbn [In]; tauto.
Qed.

(** The body of a chapter is made of elements, none of them a chapter
    heading. *)
Lemma nextUntilChapter_body (next : list Node) :
  Forall (fun s => isElement s = true /\ isChapterHeading s = false) (nextUntilChapter next).
Proof.
  unfold nextUntilChapter. apply Forall_forall. intros s Hs. split.
  - apply takeWhile_incl in Hs. apply filter_In in Hs. tauto.
  - pose proof (takeWhile_all (fun n => negb (isChapterHeading n)) (filter isElement next)) as H.
    rewrite Forall_forall in H. specialize (H s Hs). now apply negb_true_iff in H.
Qed.







(** C6.  When the document of the wrapped input has no element matching
    [h1.chapter], the splitter returns the single chapter [Chapter 1] whose
    content is the input itself, unchanged; no exception is involved. *)
Theorem no_boundary_fallback :
  forall (loadHtml : string -> list Node) (outerHtml innerHtml : Node -> string)
         (html : string),
    select isChapterHeading (loadHtml (wrapRoot html)) = [] ->
    fst (extractChaptersAndCss loadHtml outerHtml innerHtml html)
      = [mkChapter "Chapter 1" html].
Proof.
  intros loadHtml outerHtml innerHtml html Hsel.
  now rewrite extract_chapters, Hsel.
Qed.

(** C6, witness: a paragraph without heading. *)
Lemma no_boundary_fallback_witness :
  select isChapterHeading (sampleLoadHtml (wrapRoot plainHtml)) = [] /\
  fst (extractChaptersAndCss sampleLoadHtml sampleOuterHtml sampleInnerHtml plainHtml)
    = [mkChapter "Chapter 1" plainHtml].
Proof.
  assert (Hsel : select isChapterHeading (sampleLoadHtml (wrapRoot plainHtml)) = [])
    by (vm_compute; reflexivity).
  split; [exact Hsel|].
  exact (no_boundary_fallback sampleLoadHtml sampleOuterHtml sampleInnerHtml plainHtml Hsel).
Defined.

(** ** The stylesheet *)

Lemma trim_DEFAULT_CSS : trim DEFAULT_CSS = trimmedDefaultCss.
Proof. vm_compute. reflexivity. Qed.

(** C7.  When the document of the input has no [style] element, the
    stylesheet the splitter returns, which [writeEpubBufferFromParts] passes
    to [addFile] as the content of [OEBPS/style.css], is the default
    stylesheet trimmed: [DEFAULT_CSS] without the line break it starts with
    and the line break it ends with. *)
Theorem default_css_trimmed :
  forall (loadHtml : string -> list Node) (outerHtml innerHtml : Node -> string)
         (html : string),
    select isStyle (loadHtml html) = [] ->
    let css := snd (extractChaptersAndCss loadHtml outerHtml innerHtml html) in
    css = trimmedDefaultCss /\
    DEFAULT_CSS = (nl ++ css ++ nl)%string /\
    forall (toLowerCase : string -> string) (uuid : string)
           (chapters : list Chapter) (opts : EpubOpts),
      nth_error (epubFiles toLowerCase uuid chapters css opts) 2
        = Some ("OEBPS/style.css"%string, DataString trimmedDefaultCss, None).
Proof.
  intros loadHtml outerHtml innerHtml html Hsel css.
  assert (Hcss : css = trimmedDefaultCss).
  { unfold css, extractChaptersAndCss. cbn [snd]. rewrite Hsel.
    cbn [eachFrom orElse]. apply trim_DEFAULT_CSS. }
  split; [exact Hcss|]. rewrite Hcss.
  split; [vm_compute; reflexivity|].
  intros. reflexivity.
Qed.

(** C7, witness: a paragraph without stylesheet. *)
Lemma default_css_trimmed_witness :
  select isStyle (sampleLoadHtml plainHtml) = [] /\
  snd (extractChaptersAndCss sampleLoadHtml sampleOuterHtml sampleInnerHtml plainHtml)
    = trimmedDefaultCss.
Proof.
  assert (Hsel : select isStyle (sampleLoadHtml plainHtml) = []) by (vm_compute; reflexivity).
  split; [exact Hsel|].
  exact (proj1 (default_css_trimmed sampleLoadHtml sampleOuterHtml sampleInnerHtml
                  plainHtml Hsel)).
Defined.

(** C7, counterexample.  For a paragraph without stylesheet the splitter
    returns a stylesheet of 240 bytes, while [DEFAULT_CSS] has 242: the two
    are not equal byte for byte. *)
Lemma default_css_not_verbatim :
  select isStyle (sampleLoadHtml plainHtml) = [] /\
  String.length (snd (extractChaptersAndCss sampleLoadHtml sampleOuterHtml sampleInnerHtml
                        plainHtml)) = 240%nat /\
  String.length DEFAULT_CSS = 242%nat /\
  String.eqb (snd (extractChaptersAndCss sampleLoadHtml sampleOuterHtml sampleInnerHtml
                     plainHtml)) DEFAULT_CSS = false.
Proof.
  split; [vm_compute; reflexivity|].
  split; [vm_compute; reflexivity|].
  split; vm_compute; reflexivity.
Qed.

(** ** Two builds of the same book *)

Lemma mapiFrom_proj {A B C : Type} (proj : A -> C) (h : nat -> C -> B)
    (l1 l2 : list A) (i : nat) :
  map proj l1 = map proj l2 ->
  mapiFrom i (fun k a => h k (proj a)) l1 = mapiFrom i (fun k a => h k (proj a)) l2.
Proof.
  revert l2 i. induction l1 as [|a l1 IH]; intros [|b l2] i; cbn [map mapiFrom];
    try discriminate; [reflexivity|].
  intros [= Hab Hl]. rewrite Hab. f_equal. now apply IH.
Qed.

Lemma map_mapiFrom {A B C : Type} (g : B -> C) (f : nat -> A -> B) (l : list A) (i : nat) :
  map g (mapiFrom i f l) = mapiFrom i (fun k a => g (f k a)) l.
Proof.
  revert i. induction l as [|a l IH]; intros i; cbn [map mapiFrom]; [reflexivity|].
  now rewrite IH.
Qed.

(** The names and options of the calls do not depend on the identifier. *)
Lemma epubFiles_guard (toLowerCase : string -> string) (u1 u2 : string)
    (chapters : list Chapter) (css : string) (opts : EpubOpts) :
  map (fun f => (fst (fst f), snd f)) (epubFiles toLowerCase u1 chapters css opts)
  = map (fun f => (fst (fst f), snd f)) (epubFiles toLowerCase u2 chapters css opts).
Proof. reflexivity. Qed.

Lemma epubCalls_guard (toLowerCase : string -> string) (clock : nat -> Date) (u1 u2 : string)
    (chapters : list Chapter) (css : string) (opts : EpubOpts) :
  map callGuard (epubCalls clock (epubFiles toLowerCase u1 chapters css opts))
  = map callGuard (epubCalls clock (epubFiles toLowerCase u2 chapters css opts)).
Proof.
  unfold epubCalls, mapi. rewrite !map_mapiFrom.
  apply (mapiFrom_proj (fun f : string * Data * option AddOpts => (fst (fst f), snd f))
                       (fun k p => (fst p, snd p, clock k))).
  apply epubFiles_guard.
Qed.

Lemma forallb_callOk (calls : list Call) :
  forallb callOk calls
  = forallb (fun g => addFileOk (snd g) (fst (fst g)) (snd (fst g))) (map callGuard calls).
Proof.
  induction calls as [|c calls IH]; [reflexivity|].
  cbn [forallb map]. now rewrite IH.
Qed.

Lemma epubFiles_nth (toLowerCase : string -> string) (u1 u2 : string)
    (chapters : list Chapter) (css : string) (opts : EpubOpts) (i : nat) :
  i <> 3%nat -> i <> 4%nat ->
  nth_error (epubFiles toLowerCase u1 chapters css opts) i
  = nth_error (epubFiles toLowerCase u2 chapters css opts) i.
Proof.
  intros H3 H4. unfold epubFiles.
  destruct i as [|[|[|[|[|i]]]]]; try reflexivity; contradiction.
Qed.

Lemma entriesFrom_eraseOffset (deflate : Buffer -> Buffer) (calls : list Call) (o : Z) :
  map eraseOffset (entriesFrom deflate o calls)
  = map (fun c => entryOf deflate (callNow c) 0 (callName c) (callData c) (callOpts c)) calls.
Proof.
  revert o. induction calls as [|c calls IH]; intros o; [reflexivity|].
  cbn [entriesFrom map]. now rewrite IH.
Qed.

Lemma addFiles_files (deflate : Buffer -> Buffer) (calls : list Call) (zb : ZipBuilder.t) :
  addFiles deflate calls ZipBuilder.new = Some zb ->
  ZipBuilder.files zb = entriesFrom deflate 0 calls.
Proof.
  rewrite addFiles_spec. destruct (forallb callOk calls); [|discriminate].
  cbv zeta. intros H.
  apply (f_equal (option_map ZipBuilder.files)) in H. cbn [option_map ZipBuilder.files] in H.
  now injection H as <-.
Qed.

Lemma writeEpub_isSome (toLowerCase : string -> string) (deflate : Buffer -> Buffer)
    (draws : list Z) (clock : nat -> Date)
    (chapters : list Chapter) (css : string) (opts : EpubOpts) :
  let calls := epubCalls clock (epubFiles toLowerCase (uuidv4 draws) chapters css opts) in
  isSome (writeEpubBufferFromParts toLowerCase deflate draws clock chapters css opts)
  = forallb callOk calls && (Z.of_nat (List.length calls) <=? 65535).
Proof.
  intros calls. unfold writeEpubBufferFromParts. cbv zeta. fold calls.
  destruct (addFiles deflate calls ZipBuilder.new) as [zb|] eqn:Hadd.
  - destruct (addFiles_inv _ _ _ _ new_inv Hadd) as [Hinv _].
    pose proof (build_result zb Hinv) as Hb.
    unfold len_files in Hb. rewrite (addFiles_length _ _ _ Hadd) in Hb.
    rewrite addFiles_spec in Hadd.
    destruct (forallb callOk calls); [|discriminate].
    cbn [bind andb]. rewrite <- Hb.
    destruct (snd (ZipBuilder.build zb)); reflexivity.
  - rewrite addFiles_spec in Hadd.
    destruct (forallb callOk calls); [discriminate|reflexivity].
Qed.

(** C9.  Two builds from the same chapters, stylesheet, metadata and
    clock readings differ only through the identifier they draw.  With
    equal identifiers the results are equal.  With any identifiers, one
    build throws exactly when the other does; the two pass the same
    arguments to [addFile] except for the contents of [OEBPS/content.opf]
    and [OEBPS/toc.ncx] (the fourth and fifth call); and the builders record
    the same names, and for every other entry the same crc, payload, sizes,
    method, time and date. *)
Theorem epub_identifier_dependence :
  forall (toLowerCase : string -> string) (deflate : Buffer -> Buffer)
         (clock : nat -> Date) (chapters : list Chapter) (css : string) (opts : EpubOpts)
         (d1 d2 : list Z),
    let files1 := epubFiles toLowerCase (uuidv4 d1) chapters css opts in
    let files2 := epubFiles toLowerCase (uuidv4 d2) chapters css opts in
    let w1 := writeEpubBufferFromParts toLowerCase deflate d1 clock chapters css opts in
    let w2 := writeEpubBufferFromParts toLowerCase deflate d2 clock chapters css opts in
    (uuidv4 d1 = uuidv4 d2 -> w1 = w2) /\
    isSome w1 = isSome w2 /\
    (forall i : nat, i <> 3%nat -> i <> 4%nat -> nth_error files1 i = nth_error files2 i) /\
    (forall zb1 zb2 : ZipBuilder.t,
        addFiles deflate (epubCalls clock files1) ZipBuilder.new = Some zb1 ->
        addFiles deflate (epubCalls clock files2) ZipBuilder.new = Some zb2 ->
        map Entry.name (ZipBuilder.files zb1) = map Entry.name (ZipBuilder.files zb2) /\
        forall i : nat, i <> 3%nat -> i <> 4%nat ->
          nth_error (map eraseOffset (ZipBuilder.files zb1)) i
          = nth_error (map eraseOffset (ZipBuilder.files zb2)) i).
Proof.
  intros toLowerCase deflate clock chapters css opts d1 d2 files1 files2 w1 w2.
  pose proof (epubCalls_guard toLowerCase clock (uuidv4 d1) (uuidv4 d2) chapters css opts)
    as Hguard.
  fold files1 files2 in Hguard.
  split; [|split; [|split]].
  - intros Hu. unfold w1, w2, writeEpubBufferFromParts. cbv zeta. now rewrite Hu.
  - unfold w1, w2. rewrite !writeEpub_isSome. cbv zeta. fold files1 files2.
    rewrite !forallb_callOk, Hguard.
    rewrite <- (length_map callGuard (epubCalls clock files1)), Hguard, length_map.
    reflexivity.
  - intros i H3 H4. now apply epubFiles_nth.
  - intros zb1 zb2 Hadd1 Hadd2.
    destruct (addFiles_inv _ _ _ _ new_inv Hadd1) as [_ Hn1].
    destruct (addFiles_inv _ _ _ _ new_inv Hadd2) as [_ Hn2].
    cbn [ZipBuilder.files ZipBuilder.new map app] in Hn1, Hn2.
    split.
    + rewrite Hn1, Hn2.
      apply (f_equal (map (fun g : string * option AddOpts * Date => fst (fst g)))) in Hguard.
      rewrite !map_map in Hguard. exact Hguard.
    + intros i H3 H4.
      rewrite (addFiles_files _ _ _ Hadd1), (addFiles_files _ _ _ Hadd2).
      rewrite !entriesFrom_eraseOffset, !nth_error_map.
      unfold epubCalls, mapi. rewrite !nth_error_mapiFrom.
      unfold files1, files2. now rewrite (epubFiles_nth _ _ (uuidv4 d2) _ _ _ i H3 H4).
Qed.

(** C9, counterexample.  Two builds of the example chapters with the same
    clock and different random numbers: the buffers have the same length,
    and the local header of [OEBPS/content.opf] stands at offset 639 in
    both, yet its crc field (the four bytes from offset 653) differs: the
    buffers differ outside any identifier. *)
Lemma epub_crc_differs :
  exists (r1 r2 : EpubResult) (lh1 lh2 : LocalHeader),
    writeEpubBufferFromParts asciiLower deflateStored draws1 (fun _ => sampleDate)
      exampleChapters trimmedDefaultCss noOpts = Some r1 /\
    writeEpubBufferFromParts asciiLower deflateStored draws2 (fun _ => sampleDate)
      exampleChapters trimmedDefaultCss noOpts = Some r2 /\
    List.length (resBuffer r1) = List.length (resBuffer r2) /\
    parseLocalHeader (resBuffer r1) 639 = Some lh1 /\
    parseLocalHeader (resBuffer r2) 639 = Some lh2 /\
    lh_name lh1 = utf8 "OEBPS/content.opf" /\
    lh_name lh2 = utf8 "OEBPS/content.opf" /\
    (lh_crc lh1 =? lh_crc lh2) = false /\
    bufferEqb (firstn 4 (skipn 653 (resBuffer r1))) (firstn 4 (skipn 653 (resBuffer r2)))
      = false.
Proof.
  eexists. eexists. eexists. eexists.
  split; [vm_compute; reflexivity|].
  split; [vm_compute; reflexivity|].
  split; [vm_compute; reflexivity|].
  split; [vm_compute; reflexivity|].
  split; [vm_compute; reflexivity|].
  split; [vm_compute; reflexivity|].
  split; [vm_compute; reflexivity|].
  split; vm_compute; reflexivity.
Qed.

(** ** The whole archive *)

(** The buffer and the builder that [build] returns. *)
Lemma build_full (zb zb' : ZipBuilder.t) (buf : Buffer) :
  BuilderInv zb ->
  ZipBuilder.build zb = (zb', Some buf) ->
  buf = List.concat (map localRecordOf (ZipBuilder.files zb))
        ++ List.concat (map centralHeaderOf (ZipBuilder.files zb))
        ++ endRecordOf zb
  /\ ZipBuilder.offset zb = len (List.concat (map localRecordOf (ZipBuilder.files zb)))
  /\ ZipBuilder.offset zb' = len buf
  /\ len_files zb <= 65535.
Proof.
  intros Hinv Hbuild.
  destruct (build_spec _ _ _ Hinv Hbuild) as (eocd & Hbuf & _ & Hoff).
  pose proof (build_result zb Hinv) as Hres. rewrite Hbuild in Hres. cbn [snd isSome] in Hres.
  symmetry in Hres. apply Z.leb_le in Hres.
  destruct Hinv as [Hc Ho Hv].
  unfold ZipBuilder.build in Hbuild.
  rewrite (centralHeaders_spec _ Hv), endRecord_spec in Hbuild.
  fold (len_files zb) in Hbuild.
  assert (Hu : u16 (len_files zb) = true).
  { apply u16_range. unfold len_files in *. lia. }
  rewrite Hu in Hbuild.
  cbn [ZipBuilder.files ZipBuilder.chunks ZipBuilder.offset] in Hbuild.
  apply (f_equal fst) in Hbuild as Hzb'. cbn [fst] in Hzb'.
  apply (f_equal snd) in Hbuild as Hb. cbn [snd] in Hb.
  assert (Heocd : eocd = endRecordOf zb).
  { rewrite Hbuf in Hb. injection Hb as Hb.
    rewrite !concat_app, Hc, concat_chunks in Hb. cbn [List.concat] in Hb.
    rewrite app_nil_r, <- app_assoc in Hb.
    apply app_inv_head in Hb. apply app_inv_head in Hb. now rewrite <- Hb. }
  split; [now rewrite Hbuf, Heocd|].
  split; [exact Hoff|].
  split; [|exact Hres].
  rewrite <- Hzb'. cbn [ZipBuilder.offset].
  rewrite Hbuf, Heocd, !len_app, <- Hoff.
  change (len (endRecordOf zb)) with 22.
  match goal with
  | |- context [len (flat_map ?f ?l)] => change (len (flat_map f l)) with 22
  end.
  lia.
Qed.

Lemma parseEndRecord_prefix (pre rest : Buffer) :
  parseEndRecord (pre ++ rest) (List.length pre) = parseEndRecord rest 0.
Proof.
  unfold parseEndRecord. rewrite !Nat.add_0_l.
  rewrite <- (Nat.add_0_r (List.length pre)) at 1.
  rewrite readUInt32LE_prefix.
  destruct (readUInt32LE rest 0) as [sig|]; [cbn [bind]|reflexivity].
  destruct (sig =? 101010256); [|reflexivity].
  repeat (step_prefix; [|reflexivity]).
  reflexivity.
Qed.

Lemma parseEndRecord_endRecordOf (zb : ZipBuilder.t) :
  0 <= len_files zb <= 65535 ->
  parseEndRecord (endRecordOf zb) 0
  = Some (mkEnd 0 0 (len_files zb) (len_files zb)
                (len (List.concat (map centralHeaderOf (ZipBuilder.files zb))) mod 2 ^ 32)
                (ZipBuilder.offset zb mod 2 ^ 32) 0).
Proof.
  intros Hn. unfold parseEndRecord, endRecordOf.
  cbn [flat_map fieldBytes u16le u32le app].
  unfold readUInt32LE, readUInt16LE.
  cbn [Nat.add skipn le32 le16 bind].
  rewrite !le32_value, !le16_value.
  change (101010256 mod 2 ^ 32 =? 101010256) with true. cbv iota.
  rewrite !ushr0_mod, !Z.mod_mod by lia.
  rewrite (Z.mod_small (len_files zb)) by lia.
  reflexivity.
Qed.
Lemma entriesFrom_nth (deflate : Buffer -> Buffer) (calls : list Call) (o : Z)
    (i : nat) (c : Call) :
  nth_error calls i = Some c ->
  exists o', nth_error (entriesFrom deflate o calls) i
             = Some (entryOf deflate (callNow c) o' (callName c) (callData c) (callOpts c)).
Proof.
  revert o i. induction calls as [|a calls IH]; intros o [|i]; cbn [nth_error entriesFrom];
    try discriminate.
  - intros [= ->]. eauto.
  - intros H. exact (IH _ _ H).
Qed.

Lemma parseMeta_prefix (pre rest : Buffer) (k : nat) :
  parseMeta (pre ++ rest) (List.length pre + k) = parseMeta rest k.
Proof.
  unfold parseMeta. rewrite <- !Nat.add_assoc, !readUInt16LE_prefix. reflexivity.
Qed.

Lemma validEntry_fields (f : Entry.t) :
  validEntry f = true ->
  Entry.method f mod 65536 = Entry.method f /\
  Entry.time f mod 65536 = Entry.time f /\
  Entry.date f mod 65536 = Entry.date f.
Proof.
  unfold validEntry. rewrite !andb_true_iff, !u16_range.
  intros [[[Hm Ht] Hd] _]. repeat split; apply Z.mod_small; lia.
Qed.

Lemma parseMeta_local (f : Entry.t) (rest : Buffer) :
  validEntry f = true -> parseMeta (localHeaderOf f ++ rest) 4 = Some (metaOf f).
Proof.
  intros Hv. destruct (validEntry_fields f Hv) as (Hm & Ht & Hd).
  unfold parseMeta, localHeaderOf.
  cbn [flat_map fieldBytes u16le u32le app].
  unfold readUInt16LE. cbn [Nat.add skipn le16 bind].
  rewrite !le16_value, Hm, Ht, Hd. reflexivity.
Qed.

Lemma parseMeta_central (f : Entry.t) (rest : Buffer) :
  validEntry f = true -> parseMeta (centralHeaderOf f ++ rest) 6 = Some (metaOf f).
Proof.
  intros Hv. destruct (validEntry_fields f Hv) as (Hm & Ht & Hd).
  unfold parseMeta, centralHeaderOf.
  cbn [flat_map fieldBytes u16le u32le app].
  unfold readUInt16LE. cbn [Nat.add skipn le16 bind].
  rewrite !le16_value, Hm, Ht, Hd. reflexivity.
Qed.

Lemma forallb_nth_error {A : Type} (p : A -> bool) (l : list A) (i : nat) (a : A) :
  forallb p l = true -> nth_error l i = Some a -> p a = true.
Proof.
  intros Hall Hi. rewrite forallb_forall in Hall. apply Hall.
  exact (nth_error_In _ _ Hi).
Qed.

(** Everything about the [i]-th entry of a built archive, in one place. *)
Lemma entry_layout (zb zb' : ZipBuilder.t) (buf : Buffer) (i : nat) (e : Entry.t) :
  BuilderInv zb ->
  ZipBuilder.build zb = (zb', Some buf) ->
  nth_error (ZipBuilder.files zb) i = Some e ->
  validEntry e = true /\
  0 <= Entry.offset e /\
  parseLocalHeader buf (Z.to_nat (Entry.offset e)) = Some (localOf e) /\
  parseMeta buf (Z.to_nat (Entry.offset e) + 4) = Some (metaOf e) /\
  slice buf (Z.to_nat (Entry.offset e) + (30 + List.length (utf8 (Entry.name e))))
        (List.length (Entry.comp e)) = Some (Entry.comp e) /\
  parseCentralHeader buf (centralPosition zb i) = Some (centralOf e) /\
  parseMeta buf (centralPosition zb i + 6) = Some (metaOf e).
Proof.
  intros Hinv Hbuild Hi.
  destruct (build_full _ _ _ Hinv Hbuild) as (Hbuf & Hoff & _ & _).
  destruct Hinv as [_ Ho Hv].
  pose proof (forallb_nth_error _ _ _ _ Hv Hi) as He.
  destruct (nth_error_split _ _ Hi) as (pre & post & Hsplit & Hlen).
  unfold centralPosition. rewrite Hoff. clear Hoff.
  set (eocd := endRecordOf zb) in *.
  revert Ho Hbuf. generalize (ZipBuilder.offset zb) as cur.
  rewrite Hsplit, <- Hlen. intros cur Ho Hbuf.
  rewrite firstn_app, Nat.sub_diag, firstn_all. cbn [firstn]. rewrite app_nil_r.
  destruct (offsetsFrom_split _ _ _ _ _ Ho) as [Heo _].
  rewrite Z.add_0_l in Heo. rewrite Heo. unfold len. rewrite !Nat2Z.id.
  set (A := List.concat (map localRecordOf pre)) in *.
  set (D := List.concat (map centralHeaderOf pre)) in *.
  assert (Hb1 : buf = A ++ localHeaderOf e ++ Entry.comp e
                        ++ (List.concat (map localRecordOf post)
                            ++ List.concat (map centralHeaderOf (pre ++ e :: post)) ++ eocd)).
  { rewrite Hbuf, map_app, concat_app. cbn [map List.concat].
    unfold localRecordOf at 2. fold A. now rewrite <- !app_assoc. }
  assert (Hb2 : buf = (List.concat (map localRecordOf (pre ++ e :: post)) ++ D)
                      ++ centralHeaderOf e
                      ++ (List.concat (map centralHeaderOf post) ++ eocd)).
  { rewrite Hbuf, (map_app centralHeaderOf), concat_app. cbn [map List.concat].
    fold D. now rewrite <- !app_assoc. }
  split; [exact He|]. split; [lia|].
  split; [rewrite Hb1, parseLocalHeader_prefix; now apply parseLocalHeader_localHeaderOf|].
  split; [rewrite Hb1, parseMeta_prefix; now apply parseMeta_local|].
  split.
  { rewrite Hb1, slice_prefix.
    rewrite <- (localHeaderOf_length e), <- (Nat.add_0_r (List.length (localHeaderOf e))).
    rewrite slice_prefix. apply slice_exact. }
  rewrite <- length_app.
  split; [rewrite Hb2, parseCentralHeader_prefix; now apply parseCentralHeader_centralHeaderOf|].
  rewrite Hb2, parseMeta_prefix. now apply parseMeta_central.
Qed.
Lemma addFiles_entry (deflate : Buffer -> Buffer) (calls : list Call) (zb : ZipBuilder.t)
    (i : nat) (c : Call) :
  addFiles deflate calls ZipBuilder.new = Some zb ->
  nth_error calls i = Some c ->
  exists o, nth_error (ZipBuilder.files zb) i
            = Some (entryOf deflate (callNow c) o (callName c) (callData c) (callOpts c)).
Proof.
  intros Hadd Hi. rewrite (addFiles_files _ _ _ Hadd).
  now apply entriesFrom_nth.
Qed.

(** X1.  For the [i]-th call of [addFile] in a built archive: the local
    header at the recorded offset carries the name, the crc of the
    uncompressed payload and both sizes (modulo 2^32); the bytes right
    behind the header and the name are the payload, as given when
    [compress] is false and deflated otherwise. *)
Theorem zip_entry_payload :
  forall (deflate : Buffer -> Buffer) (calls : list Call)
         (zb zb' : ZipBuilder.t) (buf : Buffer) (i : nat) (c : Call),
    addFiles deflate calls ZipBuilder.new = Some zb ->
    ZipBuilder.build zb = (zb', Some buf) ->
    nth_error calls i = Some c ->
    let payload := if callCompress c then deflate (callBuffer c) else callBuffer c in
    exists e : Entry.t,
      nth_error (ZipBuilder.files zb) i = Some e /\
      0 <= Entry.offset e /\
      parseLocalHeader buf (Z.to_nat (Entry.offset e))
        = Some (mkLocal (utf8 (callName c)) (crc32 (callBuffer c))
                        (len payload mod 2 ^ 32) (len (callBuffer c) mod 2 ^ 32)) /\
      slice buf (Z.to_nat (Entry.offset e) + (30 + List.length (utf8 (callName c))))
            (List.length payload) = Some payload.
Proof.
  intros deflate calls zb zb' buf i c Hadd Hbuild Hi payload.
  destruct (addFiles_inv _ _ _ _ new_inv Hadd) as [Hinv _].
  destruct (addFiles_entry _ _ _ _ _ Hadd Hi) as [o He].
  destruct (entry_layout _ _ _ _ _ Hinv Hbuild He) as (_ & Hpos & Hlocal & _ & Hslice & _).
  eexists. split; [exact He|]. split; [exact Hpos|].
  split.
  - rewrite Hlocal. unfold localOf, entryOf.
    cbn [Entry.name Entry.crc Entry.comp Entry.uncomp].
    rewrite (Z.mod_small (crc32 _)) by apply crc32_range. reflexivity.
  - exact Hslice.
Qed.

(** X1, witness: the second entry of the sample archive. *)
Lemma zip_entry_payload_witness :
  exists (zb zb' : ZipBuilder.t) (buf : Buffer) (c : Call) (e : Entry.t),
    addFiles deflateStored sampleCalls ZipBuilder.new = Some zb /\
    ZipBuilder.build zb = (zb', Some buf) /\
    nth_error sampleCalls 1 = Some c /\
    nth_error (ZipBuilder.files zb) 1 = Some e /\
    slice buf (Z.to_nat (Entry.offset e) + (30 + List.length (utf8 (callName c))))
          (List.length (deflateStored (callBuffer c)))
      = Some (deflateStored (callBuffer c)).
Proof.
  destruct (addFiles deflateStored sampleCalls ZipBuilder.new) as [zb|] eqn:Hadd;
    [|vm_compute in Hadd; discriminate].
  destruct (ZipBuilder.build zb) as [zb' [buf|]] eqn:Hbuild;
    [|exfalso; vm_compute in Hadd; injection Hadd as <-; vm_compute in Hbuild; discriminate].
  destruct (nth_error sampleCalls 1) as [c|] eqn:Hc; [|discriminate].
  destruct (zip_entry_payload deflateStored sampleCalls zb zb' buf 1 c Hadd Hbuild Hc)
    as (e & He & _ & _ & Hslice).
  exists zb, zb', buf, c, e.
  split; [reflexivity|]. split; [exact Hbuild|]. split; [reflexivity|].
  split; [exact He|].
  assert (Hcomp : callCompress c = true) by (injection Hc as <-; reflexivity).
  rewrite Hcomp in Hslice. exact Hslice.
Defined.

(** X2.  In the local header and in the central header of every entry the
    version needed is 20, the flags are 0x0800 (UTF-8 names), the method is
    0 for [compress: false] and 8 otherwise, and time and date are the DOS
    packing of the date the call saw. *)
Theorem zip_entry_meta :
  forall (deflate : Buffer -> Buffer) (calls : list Call)
         (zb zb' : ZipBuilder.t) (buf : Buffer) (i : nat) (c : Call),
    addFiles deflate calls ZipBuilder.new = Some zb ->
    ZipBuilder.build zb = (zb', Some buf) ->
    nth_error calls i = Some c ->
    let m := mkMeta 20 0x0800 (if callCompress c then 8 else 0)
                    (fst (msDosDateTime (callDate c))) (snd (msDosDateTime (callDate c))) in
    exists e : Entry.t,
      nth_error (ZipBuilder.files zb) i = Some e /\
      parseMeta buf (Z.to_nat (Entry.offset e) + 4) = Some m /\
      parseMeta buf (centralPosition zb i + 6) = Some m /\
      parseCentralHeader buf (centralPosition zb i) = Some (centralOf e).
Proof.
  intros deflate calls zb zb' buf i c Hadd Hbuild Hi m.
  destruct (addFiles_inv _ _ _ _ new_inv Hadd) as [Hinv _].
  destruct (addFiles_entry _ _ _ _ _ Hadd Hi) as [o He].
  destruct (entry_layout _ _ _ _ _ Hinv Hbuild He) as (_ & _ & _ & Hl & _ & Hc & Hcm).
  assert (Hm : metaOf (entryOf deflate (callNow c) o (callName c) (callData c) (callOpts c)) = m).
  { unfold metaOf, entryOf, m, callCompress, callDate.
    cbn [Entry.method Entry.time Entry.date].
    destruct (match bind (callOpts c) compress with Some false => false | _ => true end);
      reflexivity. }
  rewrite Hm in Hl, Hcm.
  eexists. split; [exact He|].
  split; [exact Hl|]. split; [exact Hcm|exact Hc].
Qed.

(** X2, witness: the first entry of the sample archive. *)
Lemma zip_entry_meta_witness :
  exists (zb zb' : ZipBuilder.t) (buf : Buffer) (e : Entry.t),
    addFiles deflateStored sampleCalls ZipBuilder.new = Some zb /\
    ZipBuilder.build zb = (zb', Some buf) /\
    nth_error (ZipBuilder.files zb) 0 = Some e /\
    parseMeta buf (Z.to_nat (Entry.offset e) + 4) = Some (mkMeta 20 0x0800 0 21462 22639) /\
    parseMeta buf (centralPosition zb 0 + 6) = Some (mkMeta 20 0x0800 0 21462 22639).
Proof.
  destruct (addFiles deflateStored sampleCalls ZipBuilder.new) as [zb|] eqn:Hadd;
    [|vm_compute in Hadd; discriminate].
  destruct (ZipBuilder.build zb) as [zb' [buf|]] eqn:Hbuild;
    [|exfalso; vm_compute in Hadd; injection Hadd as <-; vm_compute in Hbuild; discriminate].
  destruct (zip_entry_meta deflateStored sampleCalls zb zb' buf 0 _ Hadd Hbuild eq_refl)
    as (e & He & Hl & Hc & _).
  exists zb, zb', buf, e.
  split; [reflexivity|]. split; [exact Hbuild|]. split; [exact He|].
  split; [exact Hl|exact Hc].
Defined.

(** The central directory of an archive whose local-entry region is at most
    2^32 bytes long, read where [build] starts it. *)
Lemma central_directory_agrees :
  forall (deflate : Buffer -> Buffer) (calls : list Call)
         (zb zb' : ZipBuilder.t) (buf : Buffer),
    addFiles deflate calls ZipBuilder.new = Some zb ->
    ZipBuilder.build zb = (zb', Some buf) ->
    ZipBuilder.offset zb <= 2 ^ 32 ->
    exists centrals : list CentralHeader,
      readCentralDirectory buf (Z.to_nat (ZipBuilder.offset zb)) (List.length calls)
        = Some centrals /\
      map ch_name centrals = map (fun c => utf8 (callName c)) calls /\
      increasing (map ch_offset centrals) = true /\
      forallb (headersAgree buf) centrals = true.
Proof.
  intros deflate calls zb zb' buf Hadd Hbuild Hmax.
  destruct (addFiles_inv _ _ _ _ new_inv Hadd) as [Hinv Hnames].
  cbn [ZipBuilder.files ZipBuilder.new map app] in Hnames.
  destruct (build_spec _ _ _ Hinv Hbuild) as (eocd & -> & _ & Hoff).
  destruct Hinv as [_ Ho Hv].
  exists (map centralOf (ZipBuilder.files zb)).
  assert (Hlen : List.length calls = List.length (ZipBuilder.files zb)).
  { rewrite <- (length_map callName), <- Hnames. now rewrite length_map. }
  split; [|split; [|split]].
  - rewrite Hoff, Hlen. unfold len. rewrite Nat2Z.id.
    now apply readCentralDirectory_spec.
  - rewrite <- (map_map callName utf8), <- Hnames, !map_map. reflexivity.
  - apply (increasing_offsets _ 0 (ZipBuilder.offset zb)); [lia|assumption|assumption].
  - apply forallb_forall. intros ch Hch.
    apply in_map_iff in Hch. destruct Hch as (f & <- & Hf).
    destruct (in_split _ _ Hf) as (pre & post & Hsplit).
    rewrite Hsplit in Ho, Hv |- *.
    apply (headersAgree_entry pre post f _ (ZipBuilder.offset zb)); try assumption.
    rewrite forallb_app in Hv. apply andb_true_iff in Hv. destruct Hv as [_ Hv].
    cbn [forallb] in Hv. apply andb_true_iff in Hv. tauto.
Qed.

(** The end record of a built archive, and the directory read from it. *)
Lemma end_record_located :
  forall (deflate : Buffer -> Buffer) (calls : list Call)
         (zb zb' : ZipBuilder.t) (buf : Buffer),
    addFiles deflate calls ZipBuilder.new = Some zb ->
    ZipBuilder.build zb = (zb', Some buf) ->
    ZipBuilder.offset zb' = len buf /\
    exists er : EndRecord,
      parseEndRecord buf (List.length buf - 22) = Some er /\
      er_disk er = 0 /\ er_diskStart er = 0 /\ er_commentLen er = 0 /\
      er_countDisk er = Z.of_nat (List.length calls) /\
      er_count er = Z.of_nat (List.length calls) /\
      er_size er = (len buf - 22 - ZipBuilder.offset zb) mod 2 ^ 32 /\
      er_offset er = ZipBuilder.offset zb mod 2 ^ 32 /\
      (len buf < 2 ^ 32 ->
       exists centrals : list CentralHeader,
         readCentralDirectory buf (Z.to_nat (er_offset er)) (Z.to_nat (er_count er))
           = Some centrals /\
         Z.of_nat (List.length (List.concat (map centralHeaderOf (ZipBuilder.files zb))))
           = er_size er /\
         map ch_name centrals = map (fun c => utf8 (callName c)) calls /\
         forallb (headersAgree buf) centrals = true).
Proof.
  intros deflate calls zb zb' buf Hadd Hbuild.
  destruct (addFiles_inv _ _ _ _ new_inv Hadd) as [Hinv _].
  destruct (build_full _ _ _ Hinv Hbuild) as (Hbuf & Hoff & Hcur & Hn).
  pose proof (addFiles_length _ _ _ Hadd) as Hlen.
  split; [exact Hcur|].
  set (L := List.concat (map localRecordOf (ZipBuilder.files zb))) in *.
  set (C := List.concat (map centralHeaderOf (ZipBuilder.files zb))) in *.
  assert (Hfiles : len_files zb = Z.of_nat (List.length calls))
    by (unfold len_files; now rewrite Hlen).
  assert (Hpos : (List.length buf - 22)%nat = List.length (L ++ C)).
  { rewrite Hbuf, !length_app. change (List.length (endRecordOf zb)) with 22%nat. lia. }
  assert (Hsize : len buf - 22 - ZipBuilder.offset zb = len C).
  { rewrite Hbuf, Hoff, !len_app. change (len (endRecordOf zb)) with 22. lia. }
  eexists. split.
  { rewrite Hpos, Hbuf, app_assoc, parseEndRecord_prefix.
    rewrite <- (app_nil_r (endRecordOf zb)) at 1.
    apply parseEndRecord_endRecordOf. unfold len_files in *. lia. }
  cbn [er_disk er_diskStart er_commentLen er_countDisk er_count er_size er_offset].
  split; [reflexivity|]. split; [reflexivity|]. split; [reflexivity|].
  split; [exact Hfiles|]. split; [exact Hfiles|].
  split; [now rewrite Hsize|]. split; [reflexivity|].
  intros Hsmall.
  assert (Hbounds : 0 <= len C < 2 ^ 32 /\ 0 <= ZipBuilder.offset zb < 2 ^ 32).
  { pose proof (len_nonneg C). pose proof (len_nonneg L).
    fold L in Hoff. lia. }
  destruct Hbounds as [HC HO].
  assert (Hmax : ZipBuilder.offset zb <= 2 ^ 32) by lia.
  destruct (central_directory_agrees deflate calls zb zb' buf Hadd Hbuild Hmax)
    as (centrals & Hread & Hnames & _ & Hagree).
  exists centrals.
  rewrite !Z.mod_small by assumption. rewrite Hfiles, Nat2Z.id.
  split; [exact Hread|]. split; [reflexivity|].
  split; [exact Hnames|exact Hagree].
Qed.

(** X3.  The last 22 bytes of a built archive are the end of central
    directory record: single disk, the number of entries twice, the size of
    the central directory and the offset where it starts (both modulo 2^32),
    no comment; the builder's cursor ends at the length of the buffer.  When
    the archive is shorter than 2^32 bytes, a reader that starts from this
    record finds the central directory: as many headers as calls, with the
    names of the calls in order, each agreeing with the local header it
    points to. *)
Theorem zip_end_record :
  forall (deflate : Buffer -> Buffer) (calls : list Call)
         (zb zb' : ZipBuilder.t) (buf : Buffer),
    addFiles deflate calls ZipBuilder.new = Some zb ->
    ZipBuilder.build zb = (zb', Some buf) ->
    ZipBuilder.offset zb' = len buf /\
    exists er : EndRecord,
      parseEndRecord buf (List.length buf - 22) = Some er /\
      er_disk er = 0 /\ er_diskStart er = 0 /\ er_commentLen er = 0 /\
      er_countDisk er = Z.of_nat (List.length calls) /\
      er_count er = Z.of_nat (List.length calls) /\
      er_size er = (len buf - 22 - ZipBuilder.offset zb) mod 2 ^ 32 /\
      er_offset er = ZipBuilder.offset zb mod 2 ^ 32 /\
      (len buf < 2 ^ 32 ->
       exists centrals : list CentralHeader,
         readCentralDirectory buf (Z.to_nat (er_offset er)) (Z.to_nat (er_count er))
           = Some centrals /\
         Z.of_nat (List.length (List.concat (map centralHeaderOf (ZipBuilder.files zb))))
           = er_size er /\
         map ch_name centrals = map (fun c => utf8 (callName c)) calls /\
         forallb (headersAgree buf) centrals = true).
Proof.
  intros deflate calls zb zb' buf Hadd Hbuild.
  destruct (addFiles_inv _ _ _ _ new_inv Hadd) as [Hinv _].
  destruct (build_full _ _ _ Hinv Hbuild) as (Hbuf & Hoff & Hcur & Hn).
  pose proof (addFiles_length _ _ _ Hadd) as Hlen.
  split; [exact Hcur|].
  set (L := List.concat (map localRecordOf (ZipBuilder.files zb))) in *.
  set (C := List.concat (map centralHeaderOf (ZipBuilder.files zb))) in *.
  assert (Hfiles : len_files zb = Z.of_nat (List.length calls))
    by (unfold len_files; now rewrite Hlen).
  assert (Hpos : (List.length buf - 22)%nat = List.length (L ++ C)).
  { rewrite Hbuf, !length_app. change (List.length (endRecordOf zb)) with 22%nat. lia. }
  assert (Hsize : len buf - 22 - ZipBuilder.offset zb = len C).
  { rewrite Hbuf, Hoff, !len_app. change (len (endRecordOf zb)) with 22. lia. }
  eexists. split.
  { rewrite Hpos, Hbuf, app_assoc, parseEndRecord_prefix.
    rewrite <- (app_nil_r (endRecordOf zb)) at 1.
    apply parseEndRecord_endRecordOf. unfold len_files in *. lia. }
  cbn [er_disk er_diskStart er_commentLen er_countDisk er_count er_size er_offset].
  split; [reflexivity|]. split; [reflexivity|]. split; [reflexivity|].
  split; [exact Hfiles|]. split; [exact Hfiles|].
  split; [now rewrite Hsize|]. split; [reflexivity|].
  intros Hsmall.
  assert (Hbounds : 0 <= len C < 2 ^ 32 /\ 0 <= ZipBuilder.offset zb < 2 ^ 32).
  { pose proof (len_nonneg C). pose proof (len_nonneg L).
    fold L in Hoff. lia. }
  destruct Hbounds as [HC HO].
  assert (Hmax : ZipBuilder.offset zb <= 2 ^ 32) by lia.
  destruct (central_directory_agrees deflate calls zb zb' buf Hadd Hbuild Hmax)
    as (centrals & Hread & Hnames & _ & Hagree).
  exists centrals.
  rewrite !Z.mod_small by assumption. rewrite Hfiles, Nat2Z.id.
  split; [exact Hread|]. split; [reflexivity|].
  split; [exact Hnames|exact Hagree].
Qed.

(** X3, witness: the sample archive, 256 bytes long. *)
Lemma zip_end_record_witness :
  exists (zb zb' : ZipBuilder.t) (buf : Buffer) (er : EndRecord),
    addFiles deflateStored sampleCalls ZipBuilder.new = Some zb /\
    ZipBuilder.build zb = (zb', Some buf) /\
    ZipBuilder.offset zb' = len buf /\
    parseEndRecord buf (List.length buf - 22) = Some er /\
    er_count er = 2 /\
    er_offset er = ZipBuilder.offset zb mod 2 ^ 32.
Proof.
  destruct (addFiles deflateStored sampleCalls ZipBuilder.new) as [zb|] eqn:Hadd;
    [|vm_compute in Hadd; discriminate].
  destruct (ZipBuilder.build zb) as [zb' [buf|]] eqn:Hbuild;
    [|exfalso; vm_compute in Hadd; injection Hadd as <-; vm_compute in Hbuild; discriminate].
  destruct (zip_end_record deflateStored sampleCalls zb zb' buf Hadd Hbuild)
    as (Hcur & er & Hparse & _ & _ & _ & _ & Hcount & _ & Hoff & _).
  exists zb, zb', buf, er.
  split; [reflexivity|]. split; [exact Hbuild|]. split; [exact Hcur|].
  split; [exact Hparse|]. split; [exact Hcount|exact Hoff].
Defined.

(** ** DOS time and date *)

Lemma land_shifted (a b k : Z) :
  0 <= k -> 0 <= b < 2 ^ k -> Z.land (a * 2 ^ k) b = 0.
Proof.
  intros Hk Hb. apply Z.bits_inj'. intros n Hn.
  rewrite Z.land_spec, Z.bits_0.
  destruct (Z.lt_ge_cases n k) as [Hlt|Hge].
  - rewrite Z.mul_pow2_bits_low by lia. reflexivity.
  - destruct (Z.eq_dec b 0) as [->|Hb0].
    + rewrite Z.bits_0. apply andb_false_r.
    + rewrite (Z.bits_above_log2 b n); [apply andb_false_r|lia|].
      apply Z.log2_lt_pow2; [lia|].
      apply Z.lt_le_trans with (2 ^ k); [lia|].
      apply Z.pow_le_mono_r; lia.
Qed.

(** Packing a small field under a shifted one is an addition. *)
Lemma lor_shifted (a b k : Z) :
  0 <= k -> 0 <= b < 2 ^ k -> Z.lor (a * 2 ^ k) b = a * 2 ^ k + b.
Proof.
  intros Hk Hb. pose proof (land_shifted a b k Hk Hb) as H.
  rewrite (Z.add_nocarry_lxor _ _ H). symmetry. now apply Z.lxor_lor.
Qed.

Lemma shl_small (a k : Z) :
  0 <= k < 32 -> - 2 ^ 31 <= a * 2 ^ k < 2 ^ 31 -> - 2 ^ 31 <= a < 2 ^ 31 ->
  JS.shl a k = a * 2 ^ k.
Proof.
  intros Hk Hr Ha. unfold JS.shl.
  rewrite (ToInt32_small a Ha).
  unfold JS.ToUint32. rewrite (Z.mod_small k) by lia. rewrite (Z.mod_small k) by lia.
  rewrite Z.shiftl_mul_pow2 by lia. now apply ToInt32_small.
Qed.

Lemma or_shifted (a b k : Z) :
  0 <= k -> 0 <= b < 2 ^ k ->
  - 2 ^ 31 <= a * 2 ^ k -> a * 2 ^ k + b < 2 ^ 31 ->
  JS.or (a * 2 ^ k) b = a * 2 ^ k + b.
Proof.
  intros Hk Hb Hlo Hhi. unfold JS.or.
  rewrite (ToInt32_small (a * 2 ^ k)) by lia.
  rewrite (ToInt32_small b).
  - rewrite lor_shifted by assumption. apply ToInt32_small. lia.
  - assert (Hp : 0 < 2 ^ k) by (apply Z.pow_pos_nonneg; lia).
    change (2 ^ 31) with 2147483648 in *.
    generalize dependent (2 ^ k). intros p Hb Hlo Hhi Hp.
    assert (a = 0 \/ 1 <= a \/ a <= -1) as [->|[Ha|Ha]] by lia; [lia| |]; nia.
Qed.

(** The two values [msDosDateTime] returns, as arithmetic. *)
Lemma msDosDateTime_value (d : Date) :
  calendarDate d ->
  msDosDateTime d =
  (getUTCHours d * 2048 + getUTCMinutes d * 32 + getUTCSeconds d / 2,
   (getUTCFullYear d - 1980) * 512 + (getUTCMonth d + 1) * 32 + getUTCDate d).
Proof.
  intros (Hy & Hmo & Hd & Hh & Hmi & Hs).
  unfold msDosDateTime. cbv zeta.
  assert (Hs2 : 0 <= getUTCSeconds d / 2 <= 29).
  { Z.to_euclidean_division_equations; lia. }
  rewrite (shl_small (getUTCHours d) 11) by lia.
  rewrite (shl_small (getUTCMinutes d) 5) by lia.
  rewrite (shl_small (getUTCFullYear d - 1980) 9) by lia.
  rewrite (shl_small (getUTCMonth d + 1) 5) by lia.
  change (2 ^ 11) with 2048. change (2 ^ 5) with 32. change (2 ^ 9) with 512.
  f_equal.
  - replace (getUTCHours d * 2048) with (getUTCHours d * 2 ^ 11) by reflexivity.
    rewrite (or_shifted (getUTCHours d) (getUTCMinutes d * 32) 11) by lia.
    replace (getUTCHours d * 2 ^ 11 + getUTCMinutes d * 32)
      with ((getUTCHours d * 64 + getUTCMinutes d) * 2 ^ 5) by lia.
    rewrite or_shifted by lia. lia.
  - replace ((getUTCFullYear d - 1980) * 512)
      with ((getUTCFullYear d - 1980) * 2 ^ 9) by reflexivity.
    rewrite (or_shifted (getUTCFullYear d - 1980) ((getUTCMonth d + 1) * 32) 9) by lia.
    replace ((getUTCFullYear d - 1980) * 2 ^ 9 + (getUTCMonth d + 1) * 32)
      with (((getUTCFullYear d - 1980) * 16 + (getUTCMonth d + 1)) * 2 ^ 5) by lia.
    rewrite or_shifted by lia. lia.
Qed.

(** X4.  For a date from 1980 to 2107, the DOS time and date fit 16 bits
    and unpack to the hour, the minute, the second rounded down to an even
    number, the year, the month counted from 1 and the day. *)
Theorem msDosDateTime_roundtrip :
  forall d : Date,
    calendarDate d ->
    1980 <= getUTCFullYear d <= 2107 ->
    let time := fst (msDosDateTime d) in
    let date := snd (msDosDateTime d) in
    0 <= time <= 65535 /\
    0 <= date <= 65535 /\
    dosTimeFields time
      = (getUTCHours d, getUTCMinutes d, getUTCSeconds d - getUTCSeconds d mod 2) /\
    dosDateFields date = (getUTCFullYear d, getUTCMonth d + 1, getUTCDate d).
Proof.
  intros d Hcal Hyear time date. unfold time, date.
  rewrite (msDosDateTime_value d Hcal). cbn [fst snd].
  destruct Hcal as (Hy & Hmo & Hd & Hh & Hmi & Hs).
  unfold dosTimeFields, dosDateFields.
  change 63 with (Z.ones 6). change 31 with (Z.ones 5). change 15 with (Z.ones 4).
  rewrite !Z.land_ones, !Z.shiftr_div_pow2 by lia.
  change (2 ^ 11) with 2048. change (2 ^ 5) with 32. change (2 ^ 9) with 512.
  change (2 ^ 6) with 64. change (2 ^ 4) with 16.
  repeat split; try (Z.to_euclidean_division_equations; lia).
  - f_equal; [f_equal|]; Z.to_euclidean_division_equations; lia.
  - f_equal; [f_equal|]; Z.to_euclidean_division_equations; lia.
Qed.

(** X4, witness: 2024-03-15 10:30:44. *)
Lemma msDosDateTime_roundtrip_witness :
  calendarDate sampleDate /\
  1980 <= getUTCFullYear sampleDate <= 2107 /\
  dosTimeFields (fst (msDosDateTime sampleDate)) = (10, 30, 44) /\
  dosDateFields (snd (msDosDateTime sampleDate)) = (2024, 3, 15).
Proof.
  assert (Hcal : calendarDate sampleDate) by (unfold calendarDate; cbn; lia).
  assert (Hy : 1980 <= getUTCFullYear sampleDate <= 2107) by (cbn; lia).
  split; [exact Hcal|]. split; [exact Hy|].
  destruct (msDosDateTime_roundtrip sampleDate Hcal Hy) as (_ & _ & Ht & Hd).
  split; [exact Ht|exact Hd].
Defined.

(** X5.  [addFile] throws a [RangeError] exactly when the date it packs
    lies before 1980 or after 2107, or the UTF-8 name is longer than 65535
    bytes; the payload plays no part. *)
Theorem addFile_date_range :
  forall (deflate : Buffer -> Buffer) (now : Date) (zb : ZipBuilder.t)
         (name : string) (data : Data) (opts : option AddOpts),
    let d := match bind opts date with Some d => d | None => now end in
    calendarDate d ->
    isSome (ZipBuilder.addFile deflate now zb name data opts)
    = (1980 <=? getUTCFullYear d) && (getUTCFullYear d <=? 2107)
      && (len (utf8 name) <=? 65535).
Proof.
  intros deflate now zb name data opts d Hcal.
  rewrite addFile_spec.
  assert (Hok : addFileOk now name opts
                = (1980 <=? getUTCFullYear d) && (getUTCFullYear d <=? 2107)
                  && (len (utf8 name) <=? 65535)).
  { unfold addFileOk. fold d. rewrite (msDosDateTime_value d Hcal). cbn [fst snd].
    destruct Hcal as (Hy & Hmo & Hd & Hh & Hmi & Hs).
    assert (Hs2 : 0 <= getUTCSeconds d / 2 <= 29).
    { Z.to_euclidean_division_equations; lia. }
    assert (Ht : u16 (getUTCHours d * 2048 + getUTCMinutes d * 32 + getUTCSeconds d / 2) = true)
      by (apply u16_range; lia).
    rewrite Ht. cbn [andb].
    assert (Hn : u16 (len (utf8 name)) = (len (utf8 name) <=? 65535)).
    { unfold u16. pose proof (len_nonneg (utf8 name)).
      replace (0 <=? len (utf8 name)) with true by (symmetry; apply Z.leb_le; lia).
      reflexivity. }
    rewrite Hn. f_equal. unfold u16.
    destruct (Z.leb_spec 1980 (getUTCFullYear d)), (Z.leb_spec (getUTCFullYear d) 2107);
      cbn [andb];
      repeat match goal with
             | |- context [?a <=? ?b] => destruct (Z.leb_spec a b)
             end; cbn [andb]; try reflexivity; lia. }
  rewrite Hok.
  destruct ((1980 <=? getUTCFullYear d) && (getUTCFullYear d <=? 2107)
            && (len (utf8 name) <=? 65535)); cbv zeta; reflexivity.
Qed.

(** X5, witness: on the first day of 2108 [addFile] throws. *)
Lemma addFile_date_range_witness :
  calendarDate (mkDate 2108 0 1 0 0 0) /\
  ZipBuilder.addFile deflateStored (mkDate 2108 0 1 0 0 0) ZipBuilder.new
    "mimetype" (DataString "application/epub+zip") storedOpts = None.
Proof.
  assert (Hcal : calendarDate (mkDate 2108 0 1 0 0 0)) by (unfold calendarDate; cbn; lia).
  split; [exact Hcal|].
  pose proof (addFile_date_range deflateStored (mkDate 2108 0 1 0 0 0) ZipBuilder.new
                "mimetype" (DataString "application/epub+zip") storedOpts Hcal) as H.
  destruct (ZipBuilder.addFile _ _ _ _ _ _); [discriminate H|reflexivity].
Defined.

(** ** [uuidv4] *)

Lemma uuidChar_x (r : Z) :
  isDraw r -> exists h, uuidChar "x" r = String h EmptyString /\ isHexLower h = true.
Proof.
  unfold isDraw. intros Hr.
  assert (r = 0 \/ r = 1 \/ r = 2 \/ r = 3 \/ r = 4 \/ r = 5 \/ r = 6 \/ r = 7 \/
          r = 8 \/ r = 9 \/ r = 10 \/ r = 11 \/ r = 12 \/ r = 13 \/ r = 14 \/ r = 15)
    as H by lia.
  repeat (destruct H as [->|H]; [eexists; split; reflexivity|]).
  subst r. eexists; split; reflexivity.
Qed.

Lemma uuidChar_y (r : Z) :
  isDraw r -> exists h, uuidChar "y" r = String h EmptyString /\ isVariantDigit h = true.
Proof.
  unfold isDraw. intros Hr.
  assert (r = 0 \/ r = 1 \/ r = 2 \/ r = 3 \/ r = 4 \/ r = 5 \/ r = 6 \/ r = 7 \/
          r = 8 \/ r = 9 \/ r = 10 \/ r = 11 \/ r = 12 \/ r = 13 \/ r = 14 \/ r = 15)
    as H by lia.
  repeat (destruct H as [->|H]; [eexists; split; reflexivity|]).
  subst r. eexists; split; reflexivity.
Qed.

Lemma uuidFill_follows (pattern : string) (draws : list Z) :
  Forall isDraw draws -> followsPattern pattern (uuidFill pattern draws) = true.
Proof.
  revert draws. induction pattern as [|p pt IH]; intros draws Hd; [reflexivity|].
  cbn [uuidFill].
  assert (H0 : isDraw 0) by (unfold isDraw; lia).
  destruct (Ascii.eqb p "x") eqn:Hx.
  - apply Ascii.eqb_eq in Hx. subst p. cbn [orb].
    destruct Hd as [|r rest Hr Hrest].
    + destruct (uuidChar_x 0 H0) as (h & -> & Hh).
      cbn [append followsPattern]. change (Ascii.eqb "x" "x") with true. cbv iota.
      rewrite Hh. now apply IH.
    + destruct (uuidChar_x r Hr) as (h & -> & Hh).
      cbn [append followsPattern]. change (Ascii.eqb "x" "x") with true. cbv iota.
      rewrite Hh. now apply IH.
  - cbn [orb]. destruct (Ascii.eqb p "y") eqn:Hy.
    + apply Ascii.eqb_eq in Hy. subst p.
      destruct Hd as [|r rest Hr Hrest].
      * destruct (uuidChar_y 0 H0) as (h & -> & Hh).
        cbn [append followsPattern]. change (Ascii.eqb "y" "x") with false.
        change (Ascii.eqb "y" "y") with true. cbv iota.
        rewrite Hh. now apply IH.
      * destruct (uuidChar_y r Hr) as (h & -> & Hh).
        cbn [append followsPattern]. change (Ascii.eqb "y" "x") with false.
        change (Ascii.eqb "y" "y") with true. cbv iota.
        rewrite Hh. now apply IH.
    + cbn [followsPattern]. rewrite Hx, Hy, Ascii.eqb_refl. now apply IH.
Qed.

Lemma followsPattern_length (pattern s : string) :
  followsPattern pattern s = true -> String.length s = String.length pattern.
Proof.
  revert s. induction pattern as [|p pt IH]; intros [|c t]; cbn [followsPattern String.length];
    try discriminate; [reflexivity|].
  rewrite andb_true_iff. intros [_ H]. now rewrite (IH _ H).
Qed.

(** X6.  Whatever numbers from 0 to 15 the random source yields, the
    identifier has 36 characters: lowercase hexadecimal digits in the groups
    8-4-4-4-12 separated by hyphens, the version digit [4] at position 14
    and one of [8], [9], [a], [b] at position 19. *)
Theorem uuidv4_shape :
  forall draws : list Z,
    Forall isDraw draws ->
    followsPattern "xxxxxxxx-xxxx-4xxx-yxxx-xxxxxxxxxxxx" (uuidv4 draws) = true /\
    String.length (uuidv4 draws) = 36%nat /\
    String.get 14 (uuidv4 draws) = Some "4"%char.
Proof.
  intros draws Hd.
  pose proof (uuidFill_follows "xxxxxxxx-xxxx-4xxx-yxxx-xxxxxxxxxxxx" draws Hd) as H.
  split; [exact H|].
  split; [exact (followsPattern_length _ _ H)|].
  unfold uuidv4 in *.
  remember (uuidFill "xxxxxxxx-xxxx-4xxx-yxxx-xxxxxxxxxxxx" draws) as u eqn:Hu. clear Hu.
  do 15 (destruct u as [|? u]; [discriminate H|];
         cbn [followsPattern] in H; apply andb_true_iff in H; destruct H as [? H]).
  cbn [String.get].
  match goal with
  | Hc : (if Ascii.eqb "4" "x" then _ else _) = true |- _ =>
      change (Ascii.eqb "4" "x") with false in Hc;
      change (Ascii.eqb "4" "y") with false in Hc; cbv iota in Hc;
      apply Ascii.eqb_eq in Hc; now rewrite <- Hc
  end.
Qed.

(** X6, witness: the draws 0, 1, 2, ... *)
Lemma uuidv4_shape_witness :
  Forall isDraw draws1 /\
  uuidv4 draws1 = "01234567-89ab-4cde-b012-3456789abcde"%string /\
  followsPattern "xxxxxxxx-xxxx-4xxx-yxxx-xxxxxxxxxxxx" (uuidv4 draws1) = true.
Proof.
  assert (Hd : Forall isDraw draws1)
    by (unfold draws1, isDraw; repeat constructor; lia).
  split; [exact Hd|]. split; [reflexivity|].
  exact (proj1 (uuidv4_shape draws1 Hd)).
Defined.

(** ** The names of the archive members *)

Lemma digitsOnly_string_of_uint (u : Decimal.uint) :
  digitsOnly (NilEmpty.string_of_uint u) = true.
Proof. induction u; cbn [NilEmpty.string_of_uint digitsOnly]; try rewrite IHu; reflexivity. Qed.

Lemma leadingDigits_app (d r : string) :
  digitsOnly d = true -> leadingDigits (d ++ String "-" r) = d.
Proof.
  induction d as [|c t IH]; cbn [digitsOnly append leadingDigits]; [reflexivity|].
  rewrite andb_true_iff. intros [Hc Ht]. now rewrite Hc, IH.
Qed.

Lemma showNat_inj (a b : nat) : showNat a = showNat b -> a = b.
Proof.
  unfold showNat. intros H.
  apply (f_equal NilEmpty.uint_of_string) in H.
  rewrite !NilEmpty.usu in H.
  injection H as H. now apply DecimalNat.Unsigned.to_uint_inj.
Qed.

Lemma showNat_prefix_inj (a b : nat) (r1 r2 : string) :
  (showNat a ++ String "-" r1 = showNat b ++ String "-" r2)%string -> a = b.
Proof.
  intros H. apply (f_equal leadingDigits) in H.
  rewrite !leadingDigits_app in H by apply digitsOnly_string_of_uint.
  now apply showNat_inj.
Qed.

Lemma In_mapiFrom {A B : Type} (f : nat -> A -> B) (l : list A) (k : nat) (x : B) :
  In x (mapiFrom k f l) ->
  exists j a, (k <= j < k + List.length l)%nat /\ x = f j a.
Proof.
  revert k. induction l as [|a l IH]; intros k; cbn [mapiFrom In List.length]; [tauto|].
  intros [<-|H].
  - exists k, a. split; [lia|reflexivity].
  - destruct (IH _ H) as (j & b & Hj & ->). exists j, b. split; [lia|reflexivity].
Qed.

Lemma NoDup_mapiFrom {A B : Type} (f : nat -> A -> B) (l : list A) (k : nat) :
  (forall i j a b, f i a = f j b -> i = j) -> NoDup (mapiFrom k f l).
Proof.
  intros Hf. revert k. induction l as [|a l IH]; intros k; cbn [mapiFrom]; constructor.
  - intros H. destruct (In_mapiFrom _ _ _ _ H) as (j & b & Hj & E).
    apply Hf in E. lia.
  - apply IH.
Qed.

Lemma chapterName_inj (toLowerCase : string -> string) (i j : nat) (a b : Chapter) :
  ("OEBPS/" ++ cfFilename (chapterFile toLowerCase i a)
   = "OEBPS/" ++ cfFilename (chapterFile toLowerCase j b))%string -> i = j.
Proof.
  unfold chapterFile. cbn [cfFilename append]. intros H.
  injection H as H.
  apply showNat_prefix_inj in H. lia.
Qed.

(** X7.  No two members of an EPUB archive have the same name: the five
    fixed names are distinct, and the name of a chapter file starts with the
    chapter's number, so that chapters with the same title, or with titles
    of the same slug, still get different files. *)
Theorem epub_member_names_unique :
  forall (toLowerCase : string -> string) (uuid : string)
         (chapters : list Chapter) (css : string) (opts : EpubOpts),
    NoDup (memberNames (epubFiles toLowerCase uuid chapters css opts)) /\
    List.length (memberNames (epubFiles toLowerCase uuid chapters css opts))
    = (5 + List.length chapters)%nat.
Proof.
  intros lower uuid chapters css opts.
  unfold memberNames, epubFiles. cbv zeta.
  rewrite map_app, map_map. cbn [map fst snd]. unfold mapi.
  rewrite map_mapiFrom.
  split.
  2:{ rewrite length_app, length_mapiFrom. reflexivity. }
  assert (Hc : NoDup (mapiFrom 0
            (fun k a => ("OEBPS/" ++ cfFilename (chapterFile lower k a))%string) chapters)).
  { apply NoDup_mapiFrom. intros i j a b. apply chapterName_inj. }
  assert (Hn : forall x, In x (mapiFrom 0
            (fun k a => ("OEBPS/" ++ cfFilename (chapterFile lower k a))%string) chapters) ->
            exists r, x = ("OEBPS/chapter-" ++ r)%string).
  { intros x Hx. destruct (In_mapiFrom _ _ _ _ Hx) as (j & a & _ & ->).
    eexists. unfold chapterFile. cbn [cfFilename append]. reflexivity. }
  cbn [app].
  repeat (constructor;
          [ cbn [In]; intros H;
            repeat (destruct H as [H|H]; [discriminate H|]);
            destruct (Hn _ H) as (r & E); discriminate E | ]).
  exact Hc.
Qed.

(** ** Titles and stylesheet of the splitter *)

Lemma string_app_assoc (a b c : string) : ((a ++ b) ++ c = a ++ (b ++ c))%string.
Proof. induction a as [|x a IH]; cbn [append]; [reflexivity|now rewrite IH]. Qed.

Lemma string_app_nil_r (a : string) : (a ++ EmptyString = a)%string.
Proof. induction a as [|x a IH]; cbn [append]; [reflexivity|now rewrite IH]. Qed.





Lemma eachFrom_collectCss (innerHtml : Node -> string)
    (sel : list (Node * list Node)) (i : nat) (acc : string) :
  eachFrom (collectCss innerHtml) i sel acc
  = (acc ++ joinLines (filter nonEmpty (map (fun s => innerHtml (fst s)) sel)))%string.
Proof.
  revert i acc. induction sel as [|s sel IH]; intros i acc; cbn [eachFrom map filter].
  - cbn [joinLines]. now rewrite string_app_nil_r.
  - rewrite IH. unfold collectCss.
    destruct (innerHtml (fst s)) as [|x t]; cbn [nonEmpty]; [reflexivity|].
    cbn [joinLines]. now rewrite !string_app_assoc.
Qed.

(** X9.  The stylesheet of the splitter: the contents of the [style]
    elements of the input's document in document order, those that are empty
    left out, each followed by a line break, and the whole trimmed.  The
    default stylesheet is used exactly when no [style] element has content:
    one non-empty block is enough to drop it entirely. *)
Theorem splitter_css_collected :
  forall (loadHtml : string -> list Node) (outerHtml innerHtml : Node -> string)
         (html : string),
    let blocks := filter nonEmpty (styleBlocks innerHtml (loadHtml html)) in
    snd (extractChaptersAndCss loadHtml outerHtml innerHtml html)
    = match blocks with
      | [] => trim DEFAULT_CSS
      | _ => trim (joinLines blocks)
      end.
Proof.
  intros loadHtml outerHtml innerHtml html blocks.
  unfold extractChaptersAndCss. cbn [snd].
  rewrite eachFrom_collectCss. cbn [append].
  fold (styleBlocks innerHtml (loadHtml html)). fold blocks.
  destruct blocks as [|b r] eqn:E; [reflexivity|].
  assert (Hb : In b (filter nonEmpty (styleBlocks innerHtml (loadHtml html))))
    by (fold blocks; rewrite E; now left).
  apply filter_In in Hb. destruct Hb as [_ Hb].
  cbn [joinLines]. destruct b as [|x t]; [discriminate Hb|]. reflexivity.
Qed.

(** ** The archive of an EPUB *)

Lemma mapiFrom_map {A B : Type} (g : A -> B) (l : list A) (k : nat) :
  mapiFrom k (fun _ a => g a) l = map g l.
Proof.
  revert k. induction l as [|a l IH]; intros k; cbn [mapiFrom map]; [reflexivity|].
  now rewrite IH.
Qed.

Lemma epubCalls_names (clock : nat -> Date) (files : list (string * Data * option AddOpts)) :
  map (fun c => utf8 (callName c)) (epubCalls clock files) = map utf8 (memberNames files).
Proof.
  unfold epubCalls, mapi, memberNames. rewrite map_mapiFrom. cbn [callName].
  now rewrite mapiFrom_map, map_map.
Qed.

Lemma epubCalls_length (toLowerCase : string -> string) (clock : nat -> Date) (uuid : string)
    (chapters : list Chapter) (css : string) (opts : EpubOpts) :
  List.length (epubCalls clock (epubFiles toLowerCase uuid chapters css opts))
  = (5 + List.length chapters)%nat.
Proof.
  unfold epubCalls, mapi. rewrite length_mapiFrom.
  unfold epubFiles. cbv zeta. rewrite length_app, length_map.
  unfold mapi. now rewrite length_mapiFrom.
Qed.

(** What a successful [writeEpubBufferFromParts] went through. *)
Lemma writeEpub_run (toLowerCase : string -> string) (deflate : Buffer -> Buffer)
    (draws : list Z) (clock : nat -> Date)
    (chapters : list Chapter) (css : string) (opts : EpubOpts) (r : EpubResult) :
  writeEpubBufferFromParts toLowerCase deflate draws clock chapters css opts = Some r ->
  exists zb zb' : ZipBuilder.t,
    addFiles deflate
      (epubCalls clock (epubFiles toLowerCase (uuidv4 draws) chapters css opts))
      ZipBuilder.new = Some zb /\
    ZipBuilder.build zb = (zb', Some (resBuffer r)) /\
    resUuid r = uuidv4 draws /\
    resTitle r = inferredTitle chapters opts /\
    resChapterCount r = List.length chapters.
Proof.
  unfold writeEpubBufferFromParts. cbv zeta. intros H.
  destruct (addFiles deflate _ ZipBuilder.new) as [zb|] eqn:Hadd; [|discriminate H].
  cbn [bind] in H.
  destruct (ZipBuilder.build zb) as [zb' [buf|]] eqn:Hbuild; [|discriminate H].
  cbn [snd bind] in H.
  exists zb, zb'. split; [reflexivity|].
  assert (E : r = mkEpubResult buf (uuidv4 draws) (inferredTitle chapters opts)
                               (List.length chapters)) by congruence.
  rewrite E. cbn [resBuffer resUuid resTitle resChapterCount].
  now repeat split.
Qed.

(** X10.  An EPUB that is built starts with the entry [mimetype]: its
    local header is at offset 0 of the buffer, with method 0 (stored), both
    sizes 20 and the crc of the media type; the bytes 38 to 57 are
    [application/epub+zip], uncompressed whatever the deflate function
    does. *)
Theorem epub_mimetype_first :
  forall (toLowerCase : string -> string) (deflate : Buffer -> Buffer)
         (draws : list Z) (clock : nat -> Date)
         (chapters : list Chapter) (css : string) (opts : EpubOpts) (r : EpubResult),
    writeEpubBufferFromParts toLowerCase deflate draws clock chapters css opts = Some r ->
    parseLocalHeader (resBuffer r) 0
      = Some (mkLocal (utf8 "mimetype") 0x2CAB616F 20 20) /\
    parseMeta (resBuffer r) 4
      = Some (mkMeta 20 0x0800 0 (fst (msDosDateTime (clock 0%nat)))
                     (snd (msDosDateTime (clock 0%nat)))) /\
    slice (resBuffer r) 38 20 = Some (utf8 "application/epub+zip").
Proof.
  intros lower deflate draws clock chapters css opts r H.
  destruct (writeEpub_run _ _ _ _ _ _ _ _ H) as (zb & zb' & Hadd & Hbuild & _).
  destruct (addFiles_inv _ _ _ _ new_inv Hadd) as [Hinv _].
  pose (e := entryOf deflate (clock 0%nat) 0 "mimetype"
               (DataString "application/epub+zip") (Some (mkOpts (Some false) None))).
  assert (He : nth_error (ZipBuilder.files zb) 0 = Some e).
  { rewrite (addFiles_files _ _ _ Hadd). reflexivity. }
  destruct (entry_layout _ _ _ _ _ Hinv Hbuild He) as (_ & _ & Hlocal & Hmeta & Hslice & _).
  assert (E0 : Z.to_nat (Entry.offset e) = 0%nat) by reflexivity.
  assert (El : localOf e = mkLocal (utf8 "mimetype") 0x2CAB616F 20 20)
    by (vm_compute; reflexivity).
  assert (Em : metaOf e = mkMeta 20 0x0800 0 (fst (msDosDateTime (clock 0%nat)))
                                 (snd (msDosDateTime (clock 0%nat)))).
  { unfold metaOf, e, entryOf. cbn [Entry.method Entry.time Entry.date bind compress date].
    reflexivity. }
  assert (Ec : Entry.comp e = utf8 "application/epub+zip").
  { unfold e, entryOf. cbn [Entry.comp bind compress]. reflexivity. }
  assert (En : (30 + List.length (utf8 (Entry.name e)))%nat = 38%nat)
    by (vm_compute; reflexivity).
  assert (E20 : List.length (utf8 "application/epub+zip") = 20%nat)
    by (vm_compute; reflexivity).
  rewrite E0 in Hlocal, Hmeta, Hslice.
  rewrite El in Hlocal. rewrite Em in Hmeta.
  rewrite En, Ec, E20 in Hslice.
  split; [exact Hlocal|]. split; [exact Hmeta|exact Hslice].
Qed.

(** X10, witness: the example chapters. *)
Lemma epub_mimetype_first_witness :
  exists r : EpubResult,
    writeEpubBufferFromParts asciiLower deflateStored draws1 (fun _ => sampleDate)
      exampleChapters trimmedDefaultCss noOpts = Some r /\
    slice (resBuffer r) 38 20 = Some (utf8 "application/epub+zip").
Proof.
  assert (H : exists r : EpubResult,
             writeEpubBufferFromParts asciiLower deflateStored draws1
               (fun _ => sampleDate) exampleChapters trimmedDefaultCss noOpts = Some r)
    by (eexists; vm_compute; reflexivity).
  destruct H as [r H]. exists r. split; [exact H|].
  exact (proj2 (proj2 (epub_mimetype_first _ _ _ _ _ _ _ _ H))).
Defined.

(** X11.  The members of an EPUB that is built, for a buffer shorter than
    2^32 bytes: the end record counts five entries and one per chapter, and
    the central directory it points to lists [mimetype],
    [META-INF/container.xml], [OEBPS/style.css], [OEBPS/content.opf],
    [OEBPS/toc.ncx] and the chapter files, in this order, each header
    agreeing with the local header it points to.  The result reports the
    identifier drawn and the number of chapters given. *)
Theorem epub_central_directory :
  forall (toLowerCase : string -> string) (deflate : Buffer -> Buffer)
         (draws : list Z) (clock : nat -> Date)
         (chapters : list Chapter) (css : string) (opts : EpubOpts) (r : EpubResult),
    writeEpubBufferFromParts toLowerCase deflate draws clock chapters css opts = Some r ->
    len (resBuffer r) < 2 ^ 32 ->
    resUuid r = uuidv4 draws /\
    resChapterCount r = List.length chapters /\
    exists (er : EndRecord) (centrals : list CentralHeader),
      parseEndRecord (resBuffer r) (List.length (resBuffer r) - 22) = Some er /\
      er_count er = Z.of_nat (5 + List.length chapters) /\
      readCentralDirectory (resBuffer r) (Z.to_nat (er_offset er)) (Z.to_nat (er_count er))
        = Some centrals /\
      map ch_name centrals
        = map utf8 (["mimetype"; "META-INF/container.xml"; "OEBPS/style.css";
                     "OEBPS/content.opf"; "OEBPS/toc.ncx"]%string
                    ++ map (fun ch => ("OEBPS/" ++ cfFilename ch)%string)
                           (mapi (chapterFile toLowerCase) chapters)) /\
      forallb (headersAgree (resBuffer r)) centrals = true.
Proof.
  intros lower deflate draws clock chapters css opts r H Hsmall.
  destruct (writeEpub_run _ _ _ _ _ _ _ _ H) as (zb & zb' & Hadd & Hbuild & Hu & _ & Hn).
  split; [exact Hu|]. split; [exact Hn|].
  destruct (end_record_located _ _ _ _ _ Hadd Hbuild)
    as (_ & er & Hparse & _ & _ & _ & _ & Hcount & _ & _ & Hdir).
  destruct (Hdir Hsmall) as (centrals & Hread & _ & Hnames & Hagree).
  exists er, centrals.
  rewrite epubCalls_length in Hcount.
  rewrite epubCalls_names in Hnames.
  split; [exact Hparse|]. split; [exact Hcount|]. split; [exact Hread|].
  split; [|exact Hagree].
  rewrite Hnames. unfold memberNames, epubFiles. cbv zeta.
  rewrite map_app, map_map. reflexivity.
Qed.

(** X11, witness: the example chapters give seven members. *)
Lemma epub_central_directory_witness :
  exists (r : EpubResult) (er : EndRecord),
    writeEpubBufferFromParts asciiLower deflateStored draws1 (fun _ => sampleDate)
      exampleChapters trimmedDefaultCss noOpts = Some r /\
    len (resBuffer r) < 2 ^ 32 /\
    parseEndRecord (resBuffer r) (List.length (resBuffer r) - 22) = Some er /\
    er_count er = 7.
Proof.
  assert (H : exists r : EpubResult,
             writeEpubBufferFromParts asciiLower deflateStored draws1
               (fun _ => sampleDate) exampleChapters trimmedDefaultCss noOpts = Some r /\
             (len (resBuffer r) <? 2 ^ 32) = true)
    by (eexists; split; [vm_compute; reflexivity | vm_compute; reflexivity]).
  destruct H as (r & H & Hsmall). apply Z.ltb_lt in Hsmall.
  destruct (epub_central_directory _ _ _ _ _ _ _ _ H Hsmall)
    as (_ & _ & er & centrals & Hparse & Hcount & _).
  exists r, er.
  split; [exact H|]. split; [exact Hsmall|]. split; [exact Hparse|exact Hcount].
Defined.

(** ** When an EPUB can be built *)

Lemma string_length_app (a b : string) :
  String.length (a ++ b) = (String.length a + String.length b)%nat.
Proof. induction a as [|c a IH]; cbn [append String.length]; [reflexivity|now rewrite IH]. Qed.

Lemma utf8_length (s : string) : List.length (utf8 s) = String.length s.
Proof.
  unfold utf8. induction s as [|c s IH]; cbn [list_ascii_of_string List.length String.length];
    [reflexivity|now rewrite IH].
Qed.

Lemma string_of_uint_length (u : Decimal.uint) :
  String.length (NilEmpty.string_of_uint u) = Decimal.nb_digits u.
Proof.
  induction u; cbn [NilEmpty.string_of_uint String.length Decimal.nb_digits];
    try rewrite IHu; reflexivity.
Qed.

Lemma succ_digits (d : Decimal.uint) :
  (Decimal.nb_digits d <= Decimal.nb_digits (Decimal.Little.succ d))%nat.
Proof. induction d; cbn [Decimal.Little.succ Decimal.nb_digits]; lia. Qed.

Lemma to_lu_digits_mono (n m : nat) :
  (n <= m)%nat ->
  (Decimal.nb_digits (Unsigned.to_lu n) <= Decimal.nb_digits (Unsigned.to_lu m))%nat.
Proof.
  induction 1 as [|m Hle IH]; [lia|].
  cbn [Unsigned.to_lu]. pose proof (succ_digits (Unsigned.to_lu m)). lia.
Qed.

(** A number below 65536 has at most five digits. *)
Lemma showNat_short (n : nat) :
  Z.of_nat n <= 65535 -> (String.length (showNat n) <= 5)%nat.
Proof.
  intros Hn. unfold showNat.
  rewrite string_of_uint_length, Unsigned.to_uint_alt, DecimalFacts.nb_digits_rev.
  assert (H5 : Decimal.nb_digits (Unsigned.to_lu (Z.to_nat 65535)) = 5%nat)
    by (vm_compute; reflexivity).
  rewrite <- H5. apply to_lu_digits_mono. lia.
Qed.

Lemma slugify_length (toLowerCase : string -> string) (str : string) :
  (String.length (slugify toLowerCase str) <= 60)%nat.
Proof.
  rewrite slugify_words.
  pose proof (substring0_length 60
                (String.concat "-" (alnumWords (toLowerCase str)))) as Hlen.
  destruct (substring0 60 _) as [|c t]; cbn [orElse]; [cbn; lia|exact Hlen].
Qed.

(** The guard of [addFile] on a calendar date. *)
Lemma addFileOk_calendar (now : Date) (name : string) (opts : option AddOpts) :
  let d := match bind opts date with Some d => d | None => now end in
  calendarDate d ->
  addFileOk now name opts
  = (1980 <=? getUTCFullYear d) && (getUTCFullYear d <=? 2107)
    && (len (utf8 name) <=? 65535).
Proof.
  intros d Hcal.
  unfold addFileOk. fold d. rewrite (msDosDateTime_value d Hcal). cbn [fst snd].
  destruct Hcal as (Hy & Hmo & Hd & Hh & Hmi & Hs).
  assert (Hs2 : 0 <= getUTCSeconds d / 2 <= 29).
  { Z.to_euclidean_division_equations; lia. }
  assert (Ht : u16 (getUTCHours d * 2048 + getUTCMinutes d * 32 + getUTCSeconds d / 2) = true)
    by (apply u16_range; lia).
  rewrite Ht. cbn [andb].
  assert (Hn : u16 (len (utf8 name)) = (len (utf8 name) <=? 65535)).
  { unfold u16. pose proof (len_nonneg (utf8 name)).
    replace (0 <=? len (utf8 name)) with true by (symmetry; apply Z.leb_le; lia).
    reflexivity. }
  rewrite Hn. f_equal. unfold u16.
  destruct (Z.leb_spec 1980 (getUTCFullYear d)), (Z.leb_spec (getUTCFullYear d) 2107);
    cbn [andb];
    repeat match goal with
           | |- context [?a <=? ?b] => destruct (Z.leb_spec a b)
           end; cbn [andb]; try reflexivity; lia.
Qed.

(** No call of [writeEpubBufferFromParts] sets a date, and for up to 65530
    chapters no name is long. *)
Lemma epubFiles_short (toLowerCase : string -> string) (uuid : string)
    (chapters : list Chapter) (css : string) (opts : EpubOpts)
    (f : string * Data * option AddOpts) :
  Z.of_nat (List.length chapters) <= 65530 ->
  In f (epubFiles toLowerCase uuid chapters css opts) ->
  bind (snd f) date = None /\ len (utf8 (fst (fst f))) <= 65535.
Proof.
  intros Hn. unfold epubFiles. cbv zeta. rewrite in_app_iff. intros [H|H].
  - cbn [In] in H.
    repeat (destruct H as [<-|H];
            [split; [reflexivity|apply Z.leb_le; vm_compute; reflexivity]|]).
    destruct H.
  - apply in_map_iff in H. destruct H as (cf & <- & H). cbn [fst snd].
    split; [reflexivity|].
    unfold mapi in H. destruct (In_mapiFrom _ _ _ _ H) as (j & c & Hj & ->).
    unfold chapterFile. cbn [cfFilename]. unfold len.
    rewrite utf8_length, !string_length_app.
    pose proof (slugify_length toLowerCase (chTitle c)) as Hs.
    assert (Hd : (String.length (showNat (j + 1)) <= 5)%nat) by (apply showNat_short; lia).
    cbn [String.length]. lia.
Qed.

(** X12.  When every clock reading is a calendar date from 1980 to 2107,
    [writeEpubBufferFromParts] returns a result for up to 65530 chapters and
    throws for more: whatever the titles, the contents, the stylesheet and
    the metadata, the only thing that can go wrong is the 16-bit count of
    entries (five plus one per chapter) in [build]. *)
Theorem epub_success_condition :
  forall (toLowerCase : string -> string) (deflate : Buffer -> Buffer)
         (draws : list Z) (clock : nat -> Date)
         (chapters : list Chapter) (css : string) (opts : EpubOpts),
    (forall k : nat, calendarDate (clock k) /\ 1980 <= getUTCFullYear (clock k) <= 2107) ->
    isSome (writeEpubBufferFromParts toLowerCase deflate draws clock chapters css opts)
    = (Z.of_nat (List.length chapters) <=? 65530).
Proof.
  intros lower deflate draws clock chapters css opts Hclock.
  pose proof (writeEpub_isSome lower deflate draws clock chapters css opts) as H.
  cbv zeta in H. rewrite H. clear H.
  rewrite epubCalls_length.
  destruct (Z.leb_spec (Z.of_nat (List.length chapters)) 65530) as [Hn|Hn].
  - replace (Z.of_nat (5 + List.length chapters) <=? 65535) with true
      by (symmetry; apply Z.leb_le; lia).
    rewrite andb_true_r. apply forallb_forall. intros c Hc.
    unfold epubCalls, mapi in Hc.
    apply In_nth_error in Hc. destruct Hc as [j Hc].
    rewrite nth_error_mapiFrom in Hc. cbn [Nat.add] in Hc.
    destruct (nth_error (epubFiles lower (uuidv4 draws) chapters css opts) j)
      as [f|] eqn:Hf; [|discriminate Hc].
    cbn [option_map] in Hc. injection Hc as <-.
    destruct (epubFiles_short _ _ _ _ _ f Hn (nth_error_In _ _ Hf)) as [Hdate Hlen].
    destruct (Hclock j) as [Hcal Hyear].
    unfold callOk. cbn [callNow callName callOpts].
    pose proof (addFileOk_calendar (clock j) (fst (fst f)) (snd f)) as Hok.
    cbv zeta in Hok. rewrite Hdate in Hok. rewrite (Hok Hcal).
    apply andb_true_iff. split; [apply andb_true_iff; split|]; apply Z.leb_le; lia.
  - replace (Z.of_nat (5 + List.length chapters) <=? 65535) with false
      by (symmetry; apply Z.leb_gt; lia).
    apply andb_false_r.
Qed.

(** X12, witness: the example chapters on 2024-03-15. *)
Lemma epub_success_condition_witness :
  isSome (writeEpubBufferFromParts asciiLower deflateStored draws1 (fun _ => sampleDate)
            exampleChapters trimmedDefaultCss noOpts) = true.
Proof.
  assert (Hclock : forall k : nat,
             calendarDate ((fun _ : nat => sampleDate) k) /\
             1980 <= getUTCFullYear ((fun _ : nat => sampleDate) k) <= 2107).
  { intros k. unfold calendarDate. cbn. lia. }
  exact (epub_success_condition asciiLower deflateStored draws1 (fun _ => sampleDate)
           exampleChapters trimmedDefaultCss noOpts Hclock).
Defined.

(** ** [fetchBook] *)

Section FetchBookFacts.

Import RoyalRoad.

Variable fetch : nat -> string -> Response.
Variable chapterTitleText : string -> string.
Variable chapterInnerHtml : string -> option string.
Variable authorNotesHtml : string -> list (option string).
Variable nextHref : string -> option string.

Let chapterHtml' := chapterHtml chapterTitleText chapterInnerHtml authorNotesHtml.
Let loop' := loop fetch chapterTitleText chapterInnerHtml authorNotesHtml nextHref.
Let fetchBook' := fetchBook fetch chapterTitleText chapterInnerHtml authorNotesHtml nextHref.
Let pageAt' := pageAt fetch nextHref.
Let urlAt' := urlAt fetch nextHref.
Let included' :=
  included fetch chapterTitleText chapterInnerHtml authorNotesHtml nextHref.

Lemma request_retries (fuel n r : nat) (url : string) :
  (forall j, (j < r)%nat -> status (fetch (n + j) url) = 429) ->
  status (fetch (n + r) url) <> 429 ->
  (r < fuel)%nat ->
  request fetch fuel n url = Some (fetch (n + r) url, S (n + r)).
Proof.
  revert fuel n. induction r as [|r IH]; intros fuel n H429 Hlast Hfuel.
  - destruct fuel as [|fuel]; [lia|]. cbn [request]. rewrite Nat.add_0_r in Hlast |- *.
    apply Z.eqb_neq in Hlast. now rewrite Hlast.
  - destruct fuel as [|fuel]; [lia|]. cbn [request].
    pose proof (H429 0%nat ltac:(lia)) as H0. rewrite Nat.add_0_r in H0.
    rewrite H0. change (429 =? 429) with true. cbv iota.
    replace (n + S r)%nat with (S n + r)%nat in * by lia.
    apply IH; [|exact Hlast|lia].
    intros j Hj. replace (S n + j)%nat with (n + S j)%nat by lia. apply H429. lia.
Qed.

Lemma request_limited (fuel n : nat) (url : string) :
  (forall j, status (fetch j url) = 429) -> request fetch fuel n url = None.
Proof.
  intros H. revert n. induction fuel as [|fuel IH]; intros n; cbn [request]; [reflexivity|].
  rewrite H. change (429 =? 429) with true. cbv iota. apply IH.
Qed.

Lemma joinAll_app (a b : list string) : joinAll (a ++ b) = (joinAll a ++ joinAll b)%string.
Proof.
  induction a as [|x a IH]; cbn [app joinAll append]; [reflexivity|].
  now rewrite IH, string_app_assoc.
Qed.

Lemma last_cons_default {A : Type} (l : list A) (x d : A) : last (x :: l) d = last l x.
Proof.
  revert x d. induction l as [|y l IH]; intros x d; [reflexivity|].
  change (last (x :: y :: l) d) with (last (y :: l) d).
  now rewrite (IH y d), (IH y x).
Qed.

Lemma included_cons (start : string) (startChapter : Z) (k d : nat) :
  included' start startChapter k (S d)
  = (if startChapter <=? Z.of_nat k + 1
     then [chapterHtml' (responseText (pageAt' start k))] else [])
    ++ included' start startChapter (S k) d.
Proof.
  unfold included', included. cbn [seq filter].
  destruct (startChapter <=? Z.of_nat k + 1); reflexivity.
Qed.

(** The loop from the [k]-th page on, [d] pages before the end. *)
Lemma loop_pages (start : string) (nbChapters startChapter : Z) (m : nat) :
  Z.of_nat m <= nbChapters ->
  (forall k, (k < m)%nat ->
             status (pageAt' start k) <> 429 /\ ok (pageAt' start k) = true) ->
  (forall k, (S k < m)%nat -> hasNext nextHref (responseText (pageAt' start k)) = true) ->
  (hasNext nextHref (responseText (pageAt' start (m - 1))) = true ->
   Z.of_nat m = nbChapters) ->
  forall (d k fuel : nat) (book0 lastS0 : string),
    (k + S d = m)%nat ->
    (S (S d) < fuel)%nat ->
    loop' fuel k (urlAt' start k) nbChapters startChapter book0 lastS0 (Z.of_nat k + 1)
    = Returned (mkFetched
        (book0 ++ joinAll (included' start startChapter k (S d)))
        (last (included' start startChapter k (S d)) lastS0)
        (if hasNext nextHref (responseText (pageAt' start (m - 1)))
         then Z.of_nat m else Z.of_nat m - 1)).
Proof.
  intros Hm Hok Hnext Hend.
  induction d as [|d IH]; intros k fuel book0 lastS0 Hk Hfuel.
  - (* the last page *)
    destruct fuel as [|fuel]; [lia|]. unfold loop'. cbn [loop].
    replace (Z.of_nat k + 1 <=? nbChapters) with true by (symmetry; apply Z.leb_le; lia).
    destruct (Hok k ltac:(lia)) as [H429 Hres].
    rewrite (request_retries fuel k 0 (urlAt' start k));
      [|intros j Hj; lia| rewrite Nat.add_0_r; exact H429 | lia].
    rewrite Nat.add_0_r. change (fetch k (urlAt' start k)) with (pageAt' start k). rewrite Hres. cbn [negb]. cbv zeta.
    rewrite included_cons.
    replace (included' start startChapter (S k) 0) with (@nil string) by reflexivity.
    rewrite app_nil_r.
    replace (m - 1)%nat with k in * by lia.
    unfold hasNext in *.
    destruct (nextHref (responseText (pageAt' start k))) as [[|c r]|] eqn:Hn.
    + fold chapterHtml'.
      destruct (startChapter <=? Z.of_nat k + 1); cbn [joinAll last];
        rewrite ?string_app_nil_r; repeat f_equal; lia.
    + specialize (Hend eq_refl).
      destruct fuel as [|fuel]; [lia|]. cbn [loop].
      replace (Z.of_nat k + 1 + 1 <=? nbChapters) with false
        by (symmetry; apply Z.leb_gt; lia).
      fold chapterHtml'.
      destruct (startChapter <=? Z.of_nat k + 1); cbn [joinAll last];
        rewrite ?string_app_nil_r; repeat f_equal; lia.
    + fold chapterHtml'.
      destruct (startChapter <=? Z.of_nat k + 1); cbn [joinAll last];
        rewrite ?string_app_nil_r; repeat f_equal; lia.
  - (* a page with a next one *)
    destruct fuel as [|fuel]; [lia|]. unfold loop'. cbn [loop].
    replace (Z.of_nat k + 1 <=? nbChapters) with true by (symmetry; apply Z.leb_le; lia).
    destruct (Hok k ltac:(lia)) as [H429 Hres].
    rewrite (request_retries fuel k 0 (urlAt' start k));
      [|intros j Hj; lia| rewrite Nat.add_0_r; exact H429 | lia].
    rewrite Nat.add_0_r. change (fetch k (urlAt' start k)) with (pageAt' start k). rewrite Hres. cbn [negb]. cbv zeta.
    pose proof (Hnext k ltac:(lia)) as Hn. unfold hasNext in Hn.
    assert (Hurl : urlAt' start (S k)
                   = resolve (orEmpty (nextHref (responseText (pageAt' start k)))))
      by reflexivity.
    destruct (nextHref (responseText (pageAt' start k))) as [[|c r]|] eqn:En;
      try discriminate Hn.
    cbn [orEmpty] in Hurl. rewrite <- Hurl.
    replace (Z.of_nat k + 1 + 1) with (Z.of_nat (S k) + 1) by lia.
    fold loop'. rewrite IH by lia.
    rewrite (included_cons start startChapter k (S d)).
    fold chapterHtml'.
    f_equal. f_equal.
    + destruct (startChapter <=? Z.of_nat k + 1); cbn [app joinAll];
        [now rewrite string_app_assoc|reflexivity].
    + destruct (startChapter <=? Z.of_nat k + 1); cbn [app]; [|reflexivity].
      symmetry. apply last_cons_default.
Qed.

(** X13.  A run in which no request is answered 429 and the first [m]
    pages are delivered, each but the last with a link to a next page, the
    last being either the [nbChapters]-th page or a page without such a
    link.  The book is the style block followed by the markup of the pages
    numbered [startChapter] and up, in order, and [lastChapterHtml] is the
    last of them (empty when none is included).  [fetched] is [m] when the
    last page links to a next one and [m - 1] when it does not: a run that
    reaches the end of the story reports one chapter less than it read. *)
Theorem fetchBook_pages :
  forall (start : string) (nbChapters startChapter : Z) (m fuel : nat),
    (1 <= m)%nat ->
    Z.of_nat m <= nbChapters ->
    (forall k, (k < m)%nat ->
               status (pageAt' start k) <> 429 /\ ok (pageAt' start k) = true) ->
    (forall k, (S k < m)%nat -> hasNext nextHref (responseText (pageAt' start k)) = true) ->
    (hasNext nextHref (responseText (pageAt' start (m - 1))) = true ->
     Z.of_nat m = nbChapters) ->
    (m + 1 < fuel)%nat ->
    fetchBook' fuel start nbChapters startChapter
    = Returned (mkFetched
        (CSS ++ joinAll (included' start startChapter 0 m))
        (last (included' start startChapter 0 m) EmptyString)
        (if hasNext nextHref (responseText (pageAt' start (m - 1)))
         then Z.of_nat m else Z.of_nat m - 1)).
Proof.
  intros start nb sc m fuel Hm1 Hm Hok Hnext Hend Hfuel.
  destruct m as [|d]; [lia|].
  unfold fetchBook', fetchBook.
  exact (loop_pages start nb sc (S d) Hm Hok Hnext Hend d 0%nat fuel CSS EmptyString
           eq_refl ltac:(lia)).
Qed.

(** X14.  When the answer for a page is not [ok] (and not 429), the run
    throws [HTTP <status> on <url>] with the URL of that page: nothing of
    the pages read before is returned. *)
Theorem fetchBook_http_error :
  forall (start : string) (nbChapters startChapter : Z) (m fuel : nat),
    Z.of_nat m < nbChapters ->
    (forall k, (k < m)%nat ->
               status (pageAt' start k) <> 429 /\ ok (pageAt' start k) = true /\
               hasNext nextHref (responseText (pageAt' start k)) = true) ->
    status (pageAt' start m) <> 429 ->
    ok (pageAt' start m) = false ->
    (m + 1 < fuel)%nat ->
    fetchBook' fuel start nbChapters startChapter
    = Thrown ("HTTP " ++ showStatus (status (pageAt' start m)) ++ " on " ++ urlAt' start m).
Proof.
  intros start nb sc m fuel Hm Hpages H429 Hbad Hfuel.
  unfold fetchBook', fetchBook.
  assert (Hgen : forall (d k f : nat) (book0 lastS0 : string),
             (k + d = m)%nat -> (d + 1 < f)%nat ->
             loop' f k (urlAt' start k) nb sc book0 lastS0 (Z.of_nat k + 1)
             = Thrown ("HTTP " ++ showStatus (status (pageAt' start m)) ++ " on "
                       ++ urlAt' start m)).
  { induction d as [|d IH]; intros k f book0 lastS0 Hk Hf.
    - replace k with m in * by lia.
      destruct f as [|f]; [lia|]. unfold loop'. cbn [loop].
      replace (Z.of_nat m + 1 <=? nb) with true by (symmetry; apply Z.leb_le; lia).
      rewrite (request_retries f m 0 (urlAt' start m));
        [|intros j Hj; lia| rewrite Nat.add_0_r; exact H429 | lia].
      rewrite Nat.add_0_r. change (fetch m (urlAt' start m)) with (pageAt' start m). rewrite Hbad. reflexivity.
    - destruct f as [|f]; [lia|]. unfold loop'. cbn [loop].
      replace (Z.of_nat k + 1 <=? nb) with true by (symmetry; apply Z.leb_le; lia).
      destruct (Hpages k ltac:(lia)) as (Hk429 & Hres & Hn).
      rewrite (request_retries f k 0 (urlAt' start k));
        [|intros j Hj; lia| rewrite Nat.add_0_r; exact Hk429 | lia].
      rewrite Nat.add_0_r. change (fetch k (urlAt' start k)) with (pageAt' start k). rewrite Hres. cbn [negb]. cbv zeta.
      unfold hasNext in Hn.
      assert (Hurl : urlAt' start (S k)
                     = resolve (orEmpty (nextHref (responseText (pageAt' start k)))))
        by reflexivity.
      destruct (nextHref (responseText (pageAt' start k))) as [[|c r]|] eqn:En;
        try discriminate Hn.
      cbn [orEmpty] in Hurl. rewrite <- Hurl.
      replace (Z.of_nat k + 1 + 1) with (Z.of_nat (S k) + 1) by lia.
      fold loop'. apply IH; lia. }
  exact (Hgen m 0%nat fuel CSS EmptyString ltac:(lia) ltac:(lia)).
Qed.

(** The site as it looks once its first [r] answers are gone. *)
Let later (r : nat) : nat -> string -> Response := fun n url => fetch (n + r) url.

Lemma request_later (r fuel n : nat) (url : string) :
  request fetch fuel (n + r) url
  = match request (later r) fuel n url with
    | Some (res, k) => Some (res, (k + r)%nat)
    | None => None
    end.
Proof.
  revert n. induction fuel as [|fuel IH]; intros n; cbn [request]; [reflexivity|].
  unfold later at 1 2. destruct (status (fetch (n + r) url) =? 429); [|reflexivity].
  apply (IH (S n)).
Qed.

Lemma loop_later (r fuel n : nat) (url : string) (nbChapters startChapter : Z)
    (book0 lastS0 : string) (chapterCount : Z) :
  loop' fuel (n + r) url nbChapters startChapter book0 lastS0 chapterCount
  = loop (later r) chapterTitleText chapterInnerHtml authorNotesHtml nextHref
         fuel n url nbChapters startChapter book0 lastS0 chapterCount.
Proof.
  unfold loop'.
  revert n url book0 lastS0 chapterCount.
  induction fuel as [|fuel IH]; intros n url book0 lastS0 chapterCount; cbn [loop];
    [reflexivity|].
  destruct (chapterCount <=? nbChapters); [|reflexivity].
  rewrite request_later.
  destruct (request (later r) fuel n url) as [[res k]|]; [|reflexivity].
  destruct (negb (ok res)); [reflexivity|]. cbv zeta.
  destruct (nextHref (responseText res)) as [[|c t]|]; try reflexivity.
  apply IH.
Qed.

(** X15.  An answer 429 is asked again, for the same URL, until another
    status arrives, and the run then goes on with that answer as if the
    answers 429 had never been given: at any page of a run, the outcome is
    the outcome against the site without these answers, whatever the answer
    that follows them is.  In particular a page delivered after retries is
    in the book, and an answer that is not [ok] after retries throws.  There
    is no limit to the retries: against a site that answers 429 to every
    request for the first page, no amount of fuel lets the run return or
    throw. *)
Theorem fetchBook_retries :
  forall (start : string) (nbChapters startChapter : Z),
    1 <= nbChapters ->
    (forall (n : nat) (url book0 lastS0 : string) (chapterCount : Z) (r fuel : nat),
        (forall j, (j < r)%nat -> status (fetch (n + j) url) = 429) ->
        status (fetch (n + r) url) <> 429 ->
        (r < fuel)%nat ->
        loop' (S fuel) n url nbChapters startChapter book0 lastS0 chapterCount
        = loop (fun k u => fetch (k + r)%nat u)
               chapterTitleText chapterInnerHtml authorNotesHtml nextHref
               (S fuel) n url nbChapters startChapter book0 lastS0 chapterCount) /\
    (forall (r fuel : nat),
        (forall j, (j < r)%nat -> status (fetch j start) = 429) ->
        status (fetch r start) <> 429 ->
        (r < fuel)%nat ->
        fetchBook' (S fuel) start nbChapters startChapter
        = fetchBook (fun k u => fetch (k + r)%nat u)
                    chapterTitleText chapterInnerHtml authorNotesHtml nextHref
                    (S fuel) start nbChapters startChapter) /\
    (forall (r fuel : nat),
        (forall j, (j < r)%nat -> status (fetch j start) = 429) ->
        status (fetch r start) <> 429 ->
        ok (fetch r start) = true ->
        hasNext nextHref (responseText (fetch r start)) = false ->
        (r + 1 < fuel)%nat ->
        fetchBook' fuel start nbChapters startChapter
        = Returned (mkFetched
            (CSS ++ (if startChapter <=? 1
                     then chapterHtml' (responseText (fetch r start)) else EmptyString))
            (if startChapter <=? 1
             then chapterHtml' (responseText (fetch r start)) else EmptyString)
            0)) /\
    (forall (r fuel : nat),
        (forall j, (j < r)%nat -> status (fetch j start) = 429) ->
        status (fetch r start) <> 429 ->
        ok (fetch r start) = false ->
        (r + 1 < fuel)%nat ->
        fetchBook' fuel start nbChapters startChapter
        = Thrown ("HTTP " ++ showStatus (status (fetch r start)) ++ " on " ++ start)) /\
    ((forall j, status (fetch j start) = 429) ->
     forall fuel : nat, fetchBook' fuel start nbChapters startChapter = Running).
Proof.
  intros start nb sc Hnb.
  assert (Hstep : forall (n : nat) (url book0 lastS0 : string) (chapterCount : Z)
                         (r fuel : nat),
             (forall j, (j < r)%nat -> status (fetch (n + j) url) = 429) ->
             status (fetch (n + r) url) <> 429 ->
             (r < fuel)%nat ->
             loop' (S fuel) n url nb sc book0 lastS0 chapterCount
             = loop (later r) chapterTitleText chapterInnerHtml authorNotesHtml nextHref
                    (S fuel) n url nb sc book0 lastS0 chapterCount).
  { intros n url book0 lastS0 chapterCount r fuel H429 Hlast Hfuel.
    unfold loop'. cbn [loop].
    destruct (chapterCount <=? nb); [|reflexivity].
    rewrite (request_retries fuel n r url H429 Hlast Hfuel).
    destruct fuel as [|fuel]; [lia|]. cbn [request]. cbv zeta.
    change (later r n url) with (fetch (n + r)%nat url).
    apply Z.eqb_neq in Hlast. rewrite Hlast.
    destruct (negb (ok (fetch (n + r) url))); [reflexivity|]. cbv zeta.
    destruct (nextHref (responseText (fetch (n + r) url))) as [[|c t]|]; try reflexivity.
    apply (loop_later r (S fuel) (S n)). }
  split; [exact Hstep|]. split.
  { intros r fuel H429 Hlast Hfuel. unfold fetchBook', fetchBook.
    apply (Hstep 0%nat); assumption. }
  split.
  { intros r fuel H429 Hlast Hok Hnext Hfuel.
    unfold fetchBook', fetchBook. destruct fuel as [|fuel]; [lia|]. cbn [loop].
    replace (1 <=? nb) with true by (symmetry; apply Z.leb_le; lia).
    rewrite (request_retries fuel 0 r start); [|exact H429|exact Hlast|lia].
    cbn [Nat.add]. rewrite Hok. cbn [negb]. cbv zeta.
    unfold hasNext in Hnext. fold chapterHtml'.
    destruct (nextHref (responseText (fetch r start))) as [[|c t]|];
      try discriminate Hnext;
      destruct (sc <=? 1); rewrite ?string_app_nil_r; reflexivity. }
  split.
  - intros r fuel H429 Hlast Hbad Hfuel.
    unfold fetchBook', fetchBook. destruct fuel as [|fuel]; [lia|]. cbn [loop].
    replace (1 <=? nb) with true by (symmetry; apply Z.leb_le; lia).
    rewrite (request_retries fuel 0 r start); [|exact H429|exact Hlast|lia].
    cbn [Nat.add]. rewrite Hbad. reflexivity.
  - intros H429 fuel.
    unfold fetchBook', fetchBook. destruct fuel as [|fuel]; [reflexivity|]. cbn [loop].
    replace (1 <=? nb) with true by (symmetry; apply Z.leb_le; lia).
    now rewrite request_limited.
Qed.

End FetchBookFacts.

(** X13, witness: five chapters asked of the sample site, which has two.
    Both are in the book, and [fetched] is 1. *)
Lemma fetchBook_pages_witness :
  exists r : RoyalRoad.Fetched,
    RoyalRoad.fetchBook RoyalRoad.sampleFetch RoyalRoad.sampleTitle RoyalRoad.sampleInner
      RoyalRoad.sampleNotes RoyalRoad.sampleNext 10 "https://www.royalroad.com/fiction/1" 5 1
    = RoyalRoad.Returned r /\
    RoyalRoad.fetched r = 1 /\
    RoyalRoad.lastChapterHtml r
    = ("<h1 class=" ++ dq ++ "chapter" ++ dq ++ ">Chapter of page 2</h1>" ++ nl
       ++ "<p>text</p><h3 class=" ++ dq ++ "author_note" ++ dq ++ "> Author note </h3>"
       ++ nl ++ "<p>thanks</p>")%string.
Proof.
  pose proof (fetchBook_pages RoyalRoad.sampleFetch RoyalRoad.sampleTitle
                RoyalRoad.sampleInner RoyalRoad.sampleNotes RoyalRoad.sampleNext
                "https://www.royalroad.com/fiction/1" 5 1 2 10) as H.
  eexists. split; [|split].
  - apply H.
    + lia.
    + lia.
    + intros k Hk. destruct k as [|[|k]]; [| |lia]; (split; [discriminate|reflexivity]).
    + intros k Hk. destruct k as [|k]; [reflexivity|lia].
    + intros Hn. vm_compute in Hn. discriminate Hn.
    + lia.
  - vm_compute. reflexivity.
  - vm_compute. reflexivity.
Defined.

(** X14, witness: a site that is down. *)
Lemma fetchBook_http_error_witness :
  RoyalRoad.fetchBook RoyalRoad.downFetch RoyalRoad.sampleTitle RoyalRoad.sampleInner
    RoyalRoad.sampleNotes RoyalRoad.sampleNext 5 "https://www.royalroad.com/fiction/1" 3 1
  = RoyalRoad.Thrown "HTTP 503 on https://www.royalroad.com/fiction/1".
Proof.
  apply (fetchBook_http_error RoyalRoad.downFetch RoyalRoad.sampleTitle
           RoyalRoad.sampleInner RoyalRoad.sampleNotes RoyalRoad.sampleNext
           "https://www.royalroad.com/fiction/1" 3 1 0 5).
  - lia.
  - intros k Hk. lia.
  - discriminate.
  - reflexivity.
  - lia.
Defined.

(** X15, witness: two answers 429, then a page without a link to a next
    one.  The page is in the book. *)
Lemma fetchBook_retries_witness :
  1 <= 3 /\
  RoyalRoad.fetchBook RoyalRoad.retryFetch RoyalRoad.sampleTitle RoyalRoad.sampleInner
    RoyalRoad.sampleNotes RoyalRoad.sampleNext 5 "https://www.royalroad.com/fiction/1" 3 1
  = RoyalRoad.Returned
      (RoyalRoad.mkFetched
         (RoyalRoad.CSS ++ "<h1 class=" ++ dq ++ "chapter" ++ dq ++ ">Chapter of page 2</h1>"
          ++ nl ++ "<p>text</p><h3 class=" ++ dq ++ "author_note" ++ dq
          ++ "> Author note </h3>" ++ nl ++ "<p>thanks</p>")%string
         ("<h1 class=" ++ dq ++ "chapter" ++ dq ++ ">Chapter of page 2</h1>"
          ++ nl ++ "<p>text</p><h3 class=" ++ dq ++ "author_note" ++ dq
          ++ "> Author note </h3>" ++ nl ++ "<p>thanks</p>")%string
         0).
Proof.
  assert (H3 : 1 <= 3) by lia.
  split; [exact H3|].
  rewrite (proj1 (proj2 (proj2 (fetchBook_retries RoyalRoad.retryFetch
                  RoyalRoad.sampleTitle RoyalRoad.sampleInner RoyalRoad.sampleNotes
                  RoyalRoad.sampleNext "https://www.royalroad.com/fiction/1" 3 1 H3)))
             2%nat 5%nat).
  - vm_compute. reflexivity.
  - intros j Hj. destruct j as [|[|j]]; [reflexivity|reflexivity|lia].
  - discriminate.
  - reflexivity.
  - reflexivity.
  - lia.
Defined.

(** ** The file name of a chapter *)

Lemma slugify_allChars (toLowerCase : string -> string) (str : string) :
  allChars isSlugChar (slugify toLowerCase str) = true.
Proof.
  rewrite slugify_words.
  pose proof (substring0_allChars isSlugChar 60 _
                (concat_words_slugChars (alnumWords (toLowerCase str))
                   (alnumWords_valid _))) as H.
  destruct (substring0 60 _) as [|c t]; cbn [orElse]; [reflexivity|exact H].
Qed.

Lemma digitsOnly_allChars (s : string) :
  digitsOnly s = true -> allChars isFileNameChar s = true.
Proof.
  induction s as [|c t IH]; cbn [digitsOnly allChars]; [reflexivity|].
  rewrite andb_true_iff. intros [Hc Ht]. rewrite (IH Ht), andb_true_r.
  unfold isFileNameChar, isSlugChar, isLowerAlnum. unfold isDigit in Hc.
  rewrite Hc. now rewrite orb_true_r.
Qed.

Lemma escChar_fileNameChar (c : ascii) :
  isFileNameChar c = true -> escChar c = String c EmptyString.
Proof.
  destruct c as [[] [] [] [] [] [] [] []]; vm_compute; intros H;
    first [reflexivity | discriminate H].
Qed.

Lemma escapeXml_fileName (s : string) :
  allChars isFileNameChar s = true -> escapeXml s = s.
Proof.
  induction s as [|c t IH]; [reflexivity|].
  cbn [allChars]. rewrite andb_true_iff. intros [Hc Ht].
  rewrite escapeXml_cons, (escChar_fileNameChar c Hc), (IH Ht). reflexivity.
Qed.

(** X16.  The file name of a chapter is made of [a-z0-9-] and dots only,
    whatever the title and the platform's lowercasing: [chapter-], the
    number, a hyphen, the slug and [.xhtml].  So [escapeXml] would leave it
    unchanged: [makeOpf] and [makeNcx], which put it in [href] and [src]
    attributes without escaping it, write what they would write with
    escaping.  It has at most 75 characters besides the digits of the
    number. *)
Theorem chapter_filename_safe :
  forall (toLowerCase : string -> string) (i : nat) (c : Chapter),
    let name := cfFilename (chapterFile toLowerCase i c) in
    allChars isFileNameChar name = true /\
    escapeXml name = name /\
    (16 + String.length (showNat (i + 1)) <= String.length name
     <= 75 + String.length (showNat (i + 1)))%nat.
Proof.
  intros lower i c name.
  assert (Hsafe : allChars isFileNameChar name = true).
  { unfold name, chapterFile. cbn [cfFilename].
    rewrite !allChars_app.
    rewrite (digitsOnly_allChars (showNat (i + 1)))
      by apply digitsOnly_string_of_uint.
    assert (Hslug : allChars isFileNameChar (slugify lower (chTitle c)) = true).
    { apply (allChars_weaken isSlugChar); [|apply slugify_allChars].
      intros ch H. unfold isFileNameChar. now rewrite H. }
    rewrite Hslug. reflexivity. }
  split; [exact Hsafe|]. split; [now apply escapeXml_fileName|].
  unfold name, chapterFile. cbn [cfFilename].
  rewrite !string_length_app. cbn [String.length].
  pose proof (slugify_length lower (chTitle c)) as Hmax.
  assert (Hmin : (1 <= String.length (slugify lower (chTitle c)))%nat).
  { rewrite slugify_words. destruct (substring0 60 _) as [|x t]; cbn; lia. }
  lia.
Qed.

(** ** The size of an archive *)

Lemma centralHeaderOf_len (f : Entry.t) :
  len (centralHeaderOf f) = 46 + len (utf8 (Entry.name f)).
Proof. unfold len. rewrite centralHeaderOf_length, Nat2Z.inj_add. reflexivity. Qed.

Lemma entriesFrom_size (deflate : Buffer -> Buffer) (calls : list Call) (o : Z) :
  len (List.concat (map localRecordOf (entriesFrom deflate o calls)))
  + len (List.concat (map centralHeaderOf (entriesFrom deflate o calls))) + 22
  = totalSize deflate calls.
Proof.
  revert o. induction calls as [|c calls IH]; intros o; [reflexivity|].
  cbn [entriesFrom]. cbv zeta. cbn [map List.concat totalSize].
  rewrite !len_app, <- (IH (o + len (localRecordOf
            (entryOf deflate (callNow c) o (callName c) (callData c) (callOpts c))))).
  rewrite localRecordOf_len_eq, centralHeaderOf_len.
  unfold memberSize, entryOf, callCompress, callBuffer.
  cbn [Entry.name Entry.comp].
  destruct (callData c); destruct (bind (callOpts c) compress) as [[|]|]; lia.
Qed.

(** X18.  The length of a built archive: 22 bytes for the end record and,
    for each call of [addFile], 76 bytes of headers, the UTF-8 name twice
    and the payload as stored (deflated, or as given for [compress: false]).
    The length is exact even where the 32-bit fields of the headers wrap. *)
Theorem zip_archive_length :
  forall (deflate : Buffer -> Buffer) (calls : list Call)
         (zb zb' : ZipBuilder.t) (buf : Buffer),
    addFiles deflate calls ZipBuilder.new = Some zb ->
    ZipBuilder.build zb = (zb', Some buf) ->
    len buf = totalSize deflate calls /\
    ZipBuilder.offset zb' = totalSize deflate calls.
Proof.
  intros deflate calls zb zb' buf Hadd Hbuild.
  destruct (addFiles_inv _ _ _ _ new_inv Hadd) as [Hinv _].
  destruct (build_full _ _ _ Hinv Hbuild) as (Hbuf & _ & Hcur & _).
  assert (Hlen : len buf = totalSize deflate calls).
  { rewrite Hbuf, !len_app, (addFiles_files _ _ _ Hadd).
    change (len (endRecordOf zb)) with 22.
    rewrite <- (entriesFrom_size deflate calls 0). lia. }
  split; [exact Hlen|]. now rewrite Hcur.
Qed.

(** X18, witness: the sample archive has 256 bytes. *)
Lemma zip_archive_length_witness :
  exists (zb zb' : ZipBuilder.t) (buf : Buffer),
    addFiles deflateStored sampleCalls ZipBuilder.new = Some zb /\
    ZipBuilder.build zb = (zb', Some buf) /\
    len buf = totalSize deflateStored sampleCalls /\
    totalSize deflateStored sampleCalls = 256.
Proof.
  destruct (addFiles deflateStored sampleCalls ZipBuilder.new) as [zb|] eqn:Hadd;
    [|vm_compute in Hadd; discriminate].
  destruct (ZipBuilder.build zb) as [zb' [buf|]] eqn:Hbuild;
    [|exfalso; vm_compute in Hadd; injection Hadd as <-; vm_compute in Hbuild; discriminate].
  exists zb, zb', buf.
  split; [reflexivity|]. split; [exact Hbuild|].
  split; [exact (proj1 (zip_archive_length _ _ _ _ _ Hadd Hbuild))|].
  vm_compute. reflexivity.
Defined.

(** ** Following links *)

Lemma asciiLower_app (a b : string) :
  asciiLower (a ++ b) = (asciiLower a ++ asciiLower b)%string.
Proof. induction a as [|c a IH]; cbn [append asciiLower]; [reflexivity|now rewrite IH]. Qed.

Lemma lower_is_letter (c : ascii) :
  Ascii.eqb "h" (asciiLowerChar c) = isEither "h" "H" c /\
  Ascii.eqb "t" (asciiLowerChar c) = isEither "t" "T" c /\
  Ascii.eqb "p" (asciiLowerChar c) = isEither "p" "P" c /\
  Ascii.eqb "s" (asciiLowerChar c) = isEither "s" "S" c /\
  Ascii.eqb ":" (asciiLowerChar c) = Ascii.eqb ":" c /\
  Ascii.eqb "/" (asciiLowerChar c) = Ascii.eqb "/" c.
Proof. destruct c as [[] [] [] [] [] [] [] []]; vm_compute; repeat split. Qed.

Lemma startsWith_separator (s : string) :
  startsWith "://" (asciiLower s) = startsWith "://" s.
Proof.
  destruct s as [|c1 [|c2 [|c3 s]]]; cbn [asciiLower startsWith];
    repeat match goal with
           | |- context [Ascii.eqb ":" (asciiLowerChar ?c)] =>
               rewrite (proj1 (proj2 (proj2 (proj2 (proj2 (lower_is_letter c))))))
           | |- context [Ascii.eqb "/" (asciiLowerChar ?c)] =>
               rewrite (proj2 (proj2 (proj2 (proj2 (proj2 (lower_is_letter c))))))
           end; reflexivity.
Qed.

Lemma startsWith_lower_cons (a : ascii) (p : string) (c : ascii) (s : string) :
  startsWith (String a p) (asciiLower (String c s))
  = Ascii.eqb a (asciiLowerChar c) && startsWith p (asciiLower s).
Proof. reflexivity. Qed.

(** The test of the program is the test of the specification. *)
Lemma isAbsolute_scheme (s : string) : RoyalRoad.isAbsolute s = hasHttpScheme s.
Proof.
  unfold RoyalRoad.isAbsolute, hasHttpScheme.
  destruct s as [|c1 [|c2 [|c3 [|c4 rest]]]];
    try (cbn [asciiLower startsWith]; rewrite ?andb_false_r; reflexivity).
  cbv beta iota.
  rewrite !startsWith_lower_cons, startsWith_separator.
  destruct (lower_is_letter c1) as (H1 & _).
  destruct (lower_is_letter c2) as (_ & H2 & _).
  destruct (lower_is_letter c3) as (_ & H3 & _).
  destruct (lower_is_letter c4) as (_ & _ & H4 & _).
  rewrite H1, H2, H3, H4.
  destruct (isEither "h" "H" c1), (isEither "t" "T" c2), (isEither "t" "T" c3),
    (isEither "p" "P" c4); cbn [andb orb]; try reflexivity.
  destruct rest as [|c5 rest'].
  - reflexivity.
  - rewrite startsWith_lower_cons, startsWith_separator.
    destruct (lower_is_letter c5) as (_ & _ & _ & H5 & _). rewrite H5. reflexivity.
Qed.

(** X17.  The URL of the next page: a link that starts with [http://] or
    [https://], in any letter case, is followed as it is, whatever its host;
    any other link is appended to [https://www.royalroad.com].  Either way
    the URL asked next is absolute, and resolving it again changes
    nothing. *)
Theorem resolve_absolute :
  forall nextRel : string,
    RoyalRoad.resolve nextRel
    = (if hasHttpScheme nextRel then nextRel
       else "https://www.royalroad.com" ++ nextRel)%string /\
    RoyalRoad.isAbsolute nextRel = hasHttpScheme nextRel /\
    RoyalRoad.isAbsolute (RoyalRoad.resolve nextRel) = true /\
    RoyalRoad.resolve (RoyalRoad.resolve nextRel) = RoyalRoad.resolve nextRel /\
    (RoyalRoad.isAbsolute nextRel = true <-> RoyalRoad.resolve nextRel = nextRel).
Proof.
  intros nextRel.
  assert (Habs : RoyalRoad.isAbsolute (RoyalRoad.resolve nextRel) = true).
  { unfold RoyalRoad.resolve.
    destruct (RoyalRoad.isAbsolute nextRel) eqn:E; [exact E|].
    unfold RoyalRoad.isAbsolute. rewrite asciiLower_app.
    apply orb_true_iff. right. reflexivity. }
  split.
  { unfold RoyalRoad.resolve. now rewrite isAbsolute_scheme. }
  split; [apply isAbsolute_scheme|].
  split; [exact Habs|]. split.
  - unfold RoyalRoad.resolve at 1. now rewrite Habs.
  - split.
    + intros H. unfold RoyalRoad.resolve. now rewrite H.
    + intros H. rewrite <- H. exact Habs.
Qed.

Example resolve_relative :
  RoyalRoad.resolve "/fiction/1/chapter/2"
  = "https://www.royalroad.com/fiction/1/chapter/2"%string.
Proof. reflexivity. Qed.

Example resolve_other_host :
  RoyalRoad.resolve "HTTPS://example.org/next" = "HTTPS://example.org/next"%string.
Proof. reflexivity. Qed.
